(** * Restaurant recommender: the loader and the recommendation filter

    A shallow embedding of [RestaurantRecommender] from [src/app.py]
    ([load_data], lines 14-28, and [recommend], lines 30-40) together with
    the part of pandas and of Python's [re] that those two methods call.

    Conventions of the embedding.
    - Text is a [string] of 8-bit characters read as Latin-1 code points
      (the repertoire of the loader's fallback encoding).
    - A float is [float64]: a finite binary64 is the rational it denotes,
      the two infinities and NaN are separate constructors; comparisons
      follow IEEE 754 (every comparison with NaN is false).
    - A [DataFrame] is a list of column labels and a list of rows, each row
      a finite map from labels to cells.  A column is read as a column of
      objects: a cell is a float or text, whatever the other cells are.
    - Python objects live in a [store]; a method is a function from stores
      to an [outcome] and a store, so that in-place updates, fresh objects
      and raised exceptions are all visible. *)

From Stdlib Require Import Ascii String QArith Sorted Permutation Lia Lqa.
From stdpp Require Import base option list strings gmap.

Local Open Scope string_scope.
Local Open Scope list_scope.

(* ===================================================================== *)
(** ** Text *)

Module Text.

(** [str.lower] on one Latin-1 code point: A-Z and the capital letters
    U+00C0..U+00DE (the multiplication sign U+00D7 apart) move up by 32. *)
Definition lower_char (c : ascii) : ascii :=
  let n := nat_of_ascii c in
  if (Nat.leb 65 n && Nat.leb n 90)
     || (Nat.leb 192 n && Nat.leb n 222 && negb (Nat.eqb n 215))
  then ascii_of_nat (n + 32) else c.

Fixpoint lower (s : string) : string :=
  match s with
  | EmptyString => EmptyString
  | String c s' => String (lower_char c) (lower s')
  end.

(** [sep.join(parts)]. *)
Definition join (sep : string) (parts : list string) : string :=
  String.concat sep parts.

(** [needle in hay], decided by trying every position. *)
Fixpoint starts_with (needle hay : string) : bool :=
  match needle, hay with
  | EmptyString, _ => true
  | String a n', String b h' => Ascii.eqb a b && starts_with n' h'
  | String _ _, EmptyString => false
  end.

Fixpoint contains (needle hay : string) : bool :=
  starts_with needle hay
  || match hay with
     | EmptyString => false
     | String _ h' => contains needle h'
     end.

(** The same notion as a proposition. *)
Definition substring (needle hay : string) : Prop :=
  exists pre post, hay = (pre ++ needle ++ post)%string.

(** Case-insensitive containment: containment after lowercasing both. *)
Definition ci_substring (needle hay : string) : Prop :=
  substring (lower needle) (lower hay).

End Text.

(* ===================================================================== *)
(** ** Python's [re], as far as [str.contains] needs it *)

Module Re.
Import Text.

(** One item of a compiled pattern. *)
Inductive atom :=
| Lit (c : ascii)       (* a literal character *)
| AnyChar.              (* [.] : anything but a newline *)

Inductive compiled :=
| Compiled (alts : list (list atom))   (* the branches of a top-level [|] *)
| NothingToRepeat                      (* [re.error]: nothing to repeat *)
| Beyond.                              (* a construct not interpreted here *)

(** [* + ?] *)
Definition is_repeat (c : ascii) : bool :=
  Ascii.eqb c "*" || Ascii.eqb c "+" || Ascii.eqb c "?".

(** The other special characters whose constructs are not interpreted:
    backslash, [^ $ { [ ( )]. *)
Definition is_uninterpreted (c : ascii) : bool :=
  Ascii.eqb c "\" || Ascii.eqb c "^" || Ascii.eqb c "$" || Ascii.eqb c "{"
  || Ascii.eqb c "[" || Ascii.eqb c "(" || Ascii.eqb c ")".

Definition atom_of (c : ascii) : atom :=
  if Ascii.eqb c "." then AnyChar else Lit c.

(** [re.compile(pat)], scanning left to right.  [at_start] says that the
    current branch has no item yet: a repeat there raises "nothing to
    repeat"; a repeat after an item, and every other special construct,
    is left uninterpreted.  [[]] and [}] are ordinary characters outside a
    class or a repeat. *)
Fixpoint parse (at_start : bool) (pat : string) : compiled :=
  match pat with
  | EmptyString => Compiled [[]]
  | String c rest =>
      if is_repeat c then (if at_start then NothingToRepeat else Beyond)
      else if is_uninterpreted c then Beyond
      else if Ascii.eqb c "|" then
        match parse true rest with
        | Compiled bs => Compiled ([] :: bs)
        | r => r
        end
      else
        match parse false rest with
        | Compiled (b :: bs) => Compiled ((atom_of c :: b) :: bs)
        | Compiled [] => Compiled [[atom_of c]]
        | r => r
        end
  end.

Definition compile (pat : string) : compiled := parse true pat.

(** Matching under [re.IGNORECASE]: a literal matches a character with the
    same lowercase form. *)
Definition atom_matches (a : atom) (d : ascii) : bool :=
  match a with
  | Lit c => Ascii.eqb (lower_char d) (lower_char c)
  | AnyChar => negb (Ascii.eqb d "010")
  end.

Fixpoint match_here (b : list atom) (s : string) : bool :=
  match b, s with
  | [], _ => true
  | a :: b', String d s' => atom_matches a d && match_here b' s'
  | _ :: _, EmptyString => false
  end.

(** [regex.search(s) is not None]. *)
Fixpoint search (alts : list (list atom)) (s : string) : bool :=
  existsb (fun b => match_here b s) alts
  || match s with
     | EmptyString => false
     | String _ s' => search alts s'
     end.

(** A tag is plain when none of its characters is special in a pattern. *)
Definition plain_char (c : ascii) : bool :=
  negb (is_repeat c || is_uninterpreted c || Ascii.eqb c "|"
        || Ascii.eqb c "." || Ascii.eqb c "}" || Ascii.eqb c "]").

Fixpoint plain (s : string) : bool :=
  match s with
  | EmptyString => true
  | String c s' => plain_char c && plain s'
  end.

End Re.

(* ===================================================================== *)
(** ** Floats *)

Inductive float64 :=
| NaN
| NegInf
| Fin (q : Q)
| PosInf.

Module Float.

(** [x >= y] *)
Definition ge (x y : float64) : bool :=
  match x, y with
  | NaN, _ | _, NaN => false
  | PosInf, _ => true
  | _, NegInf => true
  | Fin a, Fin b => Qle_bool b a
  | _, _ => false
  end.

(** [x > y] *)
Definition gt (x y : float64) : bool :=
  match x, y with
  | NaN, _ | _, NaN => false
  | NegInf, _ => false
  | _, PosInf => false
  | Fin a, Fin b => negb (Qle_bool a b)
  | _, _ => true
  end.

(** [x < y] *)
Definition lt (x y : float64) : bool := gt y x.

(** [x == y] *)
Definition eq (x y : float64) : bool :=
  match x, y with
  | NegInf, NegInf | PosInf, PosInf => true
  | Fin a, Fin b => Qeq_bool a b
  | _, _ => false
  end.

(** [bool(x)]: only zero is falsy (NaN and the infinities are truthy). *)
Definition truthy (x : float64) : bool :=
  match x with
  | Fin q => negb (Qeq_bool q 0)
  | _ => true
  end.

Definition isnan (x : float64) : bool :=
  match x with NaN => true | _ => false end.

Definition isfinite (x : float64) : bool :=
  match x with Fin _ => true | _ => false end.

End Float.

(* ===================================================================== *)
(** ** Tables *)

(** A cell of a table read from a delimited file: a number (a missing
    value is the number NaN) or text. *)
Inductive cell :=
| CNum (x : float64)
| CStr (s : string).

(** A row maps column labels to cells; a [Series] is one column. *)
Abbreviation row := (gmap string cell).
Abbreviation Series := (list cell).

Record DataFrame := mkDataFrame {
  columns : list string;
  rows : list row
}.

(** [pd.DataFrame()] *)
Definition empty_frame : DataFrame := mkDataFrame [] [].

(** The cell of a row under a label; a row with no entry there (a short
    line of the file) reads as missing. *)
Definition cell_at (r : row) (c : string) : cell :=
  default (CNum NaN) (r !! c).

Definition has_column (D : DataFrame) (c : string) : bool :=
  bool_decide (c ∈ columns D).

(* ===================================================================== *)
(** ** Exceptions and outcomes *)

Inductive exn :=
| KeyError (key : string)
| UnicodeDecodeError (msg : string)
| TypeError (msg : string)
| re_error (msg : string)
| OtherException (msg : string).

(** [str(e)].  A [KeyError] prints its key in quotes.  For a pattern
    error the text carried here is the [msg] attribute alone; [str(e)] of
    a [re.error] goes on with the position in the pattern, so the text
    that is reported for a pattern error is not stated by any theorem. *)
Definition exn_str (e : exn) : string :=
  match e with
  | KeyError k => ("'" ++ k ++ "'")%string
  | UnicodeDecodeError m | TypeError m | re_error m | OtherException m => m
  end.

(** What a computation does: return, raise, or leave the interpreted part
    of Python (a regular-expression construct outside [Re.parse], or a
    sort on a text key). *)
Inductive outcome (A : Type) :=
| Ret (a : A)
| Raise (e : exn)
| Unmodelled.
Arguments Ret {A} a.
Arguments Raise {A} e.
Arguments Unmodelled {A}.

Definition obind {A B} (o : outcome A) (k : A -> outcome B) : outcome B :=
  match o with
  | Ret a => k a
  | Raise e => Raise e
  | Unmodelled => Unmodelled
  end.

(* ===================================================================== *)
(** ** pandas operations on values *)

Module Pandas.
Import Text.

(** [df[c]] *)
Definition getitem (D : DataFrame) (c : string) : outcome Series :=
  if has_column D c then Ret (map (fun r => cell_at r c) (rows D))
  else Raise (KeyError c).

(** [df[c] = s], on the value: the cells of [s] go into the rows in order;
    a new label is appended to the columns. *)
Definition setitem (D : DataFrame) (c : string) (s : Series) : DataFrame :=
  mkDataFrame
    (if has_column D c then columns D else columns D ++ [c])
    (zip_with (fun r v => <[c := v]> r) (rows D) s).

(** [s.fillna(v)] *)
Definition fillna (v : cell) (s : Series) : Series :=
  map (fun c => match c with CNum NaN => v | _ => c end) s.

(** [s.astype(str)]; [repr] prints a float. *)
Definition astype_str (repr : float64 -> string) (s : Series) : Series :=
  map (fun c => match c with CNum x => CStr (repr x) | CStr t => CStr t end) s.

(** [s.str.lower()]: a cell that is not text becomes missing. *)
Definition str_lower (s : Series) : Series :=
  map (fun c => match c with CStr t => CStr (lower t) | CNum _ => CNum NaN end) s.

(** [pd.to_numeric(s, errors='coerce')]; [parse] reads a float from text. *)
Definition to_numeric_coerce (parse : string -> option float64) (s : Series)
  : Series :=
  map (fun c => match c with
                | CNum x => CNum x
                | CStr t => CNum (default NaN (parse t))
                end) s.

(** [s.str.contains(pat, case=False, na=False)]: the pattern is a regular
    expression, compiled once; a cell that is not text gives [False]. *)
Definition str_contains (s : Series) (pat : string) : outcome (list bool) :=
  match Re.compile pat with
  | Re.Compiled alts =>
      Ret (map (fun c => match c with
                         | CStr t => Re.search alts t
                         | CNum _ => false
                         end) s)
  | Re.NothingToRepeat => Raise (re_error "nothing to repeat")
  | Re.Beyond => Unmodelled
  end.

(** [s >= m], cell by cell; comparing text with a float raises. *)
Fixpoint ge_scalar (s : Series) (m : float64) : outcome (list bool) :=
  match s with
  | [] => Ret []
  | CNum x :: s' => obind (ge_scalar s' m) (fun bs => Ret (Float.ge x m :: bs))
  | CStr _ :: _ =>
      Raise (TypeError "'>=' not supported between instances of 'str' and 'float'")
  end.

(** [df[mask]]: the rows whose flag is set, in order. *)
Fixpoint select_rows (mask : list bool) (rs : list row) : list row :=
  match mask, rs with
  | b :: mask', r :: rs' =>
      if b then r :: select_rows mask' rs' else select_rows mask' rs'
  | _, _ => []
  end.

Definition getitem_mask (D : DataFrame) (mask : list bool) : DataFrame :=
  mkDataFrame (columns D) (select_rows mask (rows D)).

(** Order of one descending sort key: the larger value first, a missing
    value last. *)
Definition key_cmp (x y : float64) : comparison :=
  match x, y with
  | NaN, NaN => Eq
  | NaN, _ => Gt
  | _, NaN => Lt
  | _, _ => if Float.gt x y then Lt else if Float.gt y x then Gt else Eq
  end.

Definition key_of (c : cell) : float64 :=
  match c with CNum x => x | CStr _ => NaN end.

(** Rows compared on the keys [by], the first key that differs deciding. *)
Fixpoint row_cmp (by_ : list string) (a b : row) : comparison :=
  match by_ with
  | [] => Eq
  | c :: by' =>
      match key_cmp (key_of (cell_at a c)) (key_of (cell_at b c)) with
      | Eq => row_cmp by' a b
      | o => o
      end
  end.

(** A stable sort: [x], which stood before every row of [l], goes in front
    of the first row that does not come strictly before it. *)
Fixpoint insert_row (by_ : list string) (x : row) (l : list row) : list row :=
  match l with
  | [] => [x]
  | y :: l' =>
      match row_cmp by_ y x with
      | Lt => y :: insert_row by_ x l'
      | _ => x :: y :: l'
      end
  end.

Definition sort_rows (by_ : list string) (l : list row) : list row :=
  foldr (insert_row by_) [] l.

Definition is_num (c : cell) : bool :=
  match c with CNum _ => true | CStr _ => false end.

(** [df.sort_values(by, ascending=[False, ...])]: a missing key column is
    a [KeyError] (the first one in [by]); numeric keys are sorted, missing
    values last; text keys are not interpreted. *)
Definition sort_values_desc (D : DataFrame) (by_ : list string)
  : outcome DataFrame :=
  match List.find (fun c => negb (has_column D c)) by_ with
  | Some c => Raise (KeyError c)
  | None =>
      if forallb (fun r => forallb (fun c => is_num (cell_at r c)) by_) (rows D)
      then Ret (mkDataFrame (columns D) (sort_rows by_ (rows D)))
      else Unmodelled
  end.

(** [df.head(n)] *)
Definition head (D : DataFrame) (n : nat) : DataFrame :=
  mkDataFrame (columns D) (take n (rows D)).

End Pandas.

(* ===================================================================== *)
(** ** The object store *)

Abbreviation loc := nat.

(** The frames allocated so far (a reference is a position) and the
    messages sent to [st.error]. *)
Record store := mkStore {
  objs : list DataFrame;
  reports : list string
}.

Definition M (A : Type) : Type := store -> outcome A * store.

Definition ret {A} (a : A) : M A := fun s => (Ret a, s).

Definition bind {A B} (m : M A) (k : A -> M B) : M B :=
  fun s =>
    match m s with
    | (Ret a, s') => k a s'
    | (Raise e, s') => (Raise e, s')
    | (Unmodelled, s') => (Unmodelled, s')
    end.

Notation "x <- c1 ;; c2" := (bind c1 (fun x => c2))
  (at level 100, c1 at next level, right associativity).
Notation "c1 ;;; c2" := (bind c1 (fun _ => c2))
  (at level 100, right associativity).

Definition lift {A} (o : outcome A) : M A := fun s => (o, s).

(** [try: body  except E as e: handler(e)] for the exceptions [E] that
    [catches] accepts. *)
Definition try_except {A} (body : M A) (catches : exn -> bool)
    (handler : exn -> M A) : M A :=
  fun s =>
    match body s with
    | (Raise e, s') => if catches e then handler e s' else (Raise e, s')
    | r => r
    end.

(** A fresh object. *)
Definition new_object (D : DataFrame) : M loc :=
  fun s => (Ret (length (objs s)), mkStore (objs s ++ [D]) (reports s)).

(** The value behind a reference; references are never dangling in
    Python, so a position outside the store is not interpreted. *)
Definition deref (l : loc) : M DataFrame :=
  fun s => match objs s !! l with
           | Some D => (Ret D, s)
           | None => (Unmodelled, s)
           end.

(** An update in place. *)
Definition assign (l : loc) (D : DataFrame) : M unit :=
  fun s => (Ret tt, mkStore (<[l := D]> (objs s)) (reports s)).

(** [st.error(msg)] *)
Definition st_error (msg : string) : M unit :=
  fun s => (Ret tt, mkStore (objs s) (reports s ++ [msg])).

(* ===================================================================== *)
(** ** The program: [RestaurantRecommender] *)

Inductive encoding := utf_8 | latin1.

(** What lies outside the program: the files as [pd.read_csv] reads them
    under an encoding, and the conversions between floats and text. *)
Record world := mkWorld {
  read_csv : string -> encoding -> DataFrame + exn;
  float_of_string : string -> option float64;
  str_of_float : float64 -> string
}.

(** [pd.read_csv(path, encoding=enc)]: a fresh frame, or an exception. *)
Definition pd_read_csv (w : world) (path : string) (enc : encoding) : M loc :=
  match read_csv w path enc with
  | inl D => new_object D
  | inr e => lift (Raise e)
  end.

Definition is_UnicodeDecodeError (e : exn) : bool :=
  match e with UnicodeDecodeError _ => true | _ => false end.

(** [except Exception] *)
Definition is_Exception (e : exn) : bool := true.

(** [results = f(results)] where [f] builds a new frame. *)
Definition apply_new (f : DataFrame -> outcome DataFrame) (l : loc) : M loc :=
  frame <- deref l ;;
  out <- lift (f frame) ;;
  new_object out.

(** [df.copy()] *)
Definition DataFrame_copy (l : loc) : M loc := apply_new Ret l.

Record RestaurantRecommender := mkRecommender { df : loc }.

(** The data cleaning of [load_data], lines 22-25, on the frame [df]. *)
Definition cleaning (w : world) (df : loc) : M loc :=
  frame <- deref df ;;
  col <- lift (Pandas.getitem frame "Cuisines") ;;
  assign df
    (Pandas.setitem frame "Cuisines"
       (Pandas.str_lower
          (Pandas.astype_str (str_of_float w)
             (Pandas.fillna (CStr "Unknown") col)))) ;;;
  frame <- deref df ;;
  col <- lift (Pandas.getitem frame "Aggregate rating") ;;
  assign df
    (Pandas.setitem frame "Aggregate rating"
       (Pandas.fillna (CNum (Fin 0))
          (Pandas.to_numeric_coerce (float_of_string w) col))) ;;;
  ret df.

(** [load_data], lines 14-28. *)
Definition load_data (w : world) (path : string) : M loc :=
  try_except
    (df <- try_except (pd_read_csv w path utf_8) is_UnicodeDecodeError
             (fun _ => pd_read_csv w path latin1) ;;
     cleaning w df)
    is_Exception
    (fun e =>
       st_error ("Data loading error: " ++ exn_str e)%string ;;;
       new_object empty_frame).

(** [__init__], lines 11-12. *)
Definition init (w : world) (data_path : string) : M RestaurantRecommender :=
  d <- load_data w data_path ;;
  ret (mkRecommender d).

(** The preferences dictionary: each of its two keys may be absent. *)
Record Preferences := mkPreferences {
  cuisines : option (list string);
  min_rating : option float64
}.

(** Lines 34-35. *)
Definition select_cuisines (tags : list string) (D : DataFrame)
  : outcome DataFrame :=
  let pattern := Text.join "|" (map Text.lower tags) in
  obind (Pandas.getitem D "Cuisines") (fun col =>
  obind (Pandas.str_contains col pattern) (fun mask =>
  Ret (Pandas.getitem_mask D mask))).

(** Line 38. *)
Definition select_rating (m : float64) (D : DataFrame) : outcome DataFrame :=
  obind (Pandas.getitem D "Aggregate rating") (fun col =>
  obind (Pandas.ge_scalar col m) (fun mask =>
  Ret (Pandas.getitem_mask D mask))).

(** Lines 33-35 on the value of [results]: [preferences.get('cuisines')]
    is falsy when the key is absent and when the collection is empty. *)
Definition cuisine_filter (preferences : Preferences) (D : DataFrame)
  : outcome DataFrame :=
  match cuisines preferences with
  | Some (t :: ts) => select_cuisines (t :: ts) D
  | _ => Ret D
  end.

(** Lines 37-38 on the value of [results]: [preferences.get('min_rating')]
    is falsy when the key is absent and when the value is zero. *)
Definition rating_filter (preferences : Preferences) (D : DataFrame)
  : outcome DataFrame :=
  match min_rating preferences with
  | Some m => if Float.truthy m then select_rating m D else Ret D
  | None => Ret D
  end.

(** [recommend], lines 30-40.  A filter that is skipped leaves [results]
    bound to the same object. *)
Definition recommend (self : RestaurantRecommender)
    (preferences : Preferences) : M loc :=
  results <- DataFrame_copy (df self) ;;
  results <- match cuisines preferences with
             | Some (t :: ts) => apply_new (select_cuisines (t :: ts)) results
             | _ => ret results
             end ;;
  results <- match min_rating preferences with
             | Some m =>
                 if Float.truthy m then apply_new (select_rating m) results
                 else ret results
             | None => ret results
             end ;;
  sorted <- apply_new
              (fun D => Pandas.sort_values_desc D ["Aggregate rating"; "Votes"])
              results ;;
  apply_new (fun D => Ret (Pandas.head D 10)) sorted.

(* ===================================================================== *)
(** ** Value-level readings *)

(** The frame a run ends with. *)
Definition value_of (r : outcome loc * store) : outcome DataFrame :=
  match r with
  | (Ret l, s) =>
      match objs s !! l with Some D => Ret D | None => Unmodelled end
  | (Raise e, _) => Raise e
  | (Unmodelled, _) => Unmodelled
  end.

(** [recommend(T, P)]: the call on a recommender that holds [T]. *)
Definition recommend_on (T : DataFrame) (P : Preferences) : outcome DataFrame :=
  value_of (recommend (mkRecommender 0) P (mkStore [T] [])).

(** [load(path)]: the table and the errors reported. *)
Definition load (w : world) (path : string) : outcome DataFrame * list string :=
  let r := load_data w path (mkStore [] []) in
  (value_of r, reports (snd r)).

(** A loaded table is one that some [load] delivers. *)
Definition loaded (T : DataFrame) : Prop :=
  exists w path, fst (load w path) = Ret T.

(** The records that survive both filters. *)
Definition survivors (T : DataFrame) (P : Preferences) : outcome DataFrame :=
  obind (cuisine_filter P T) (rating_filter P).

(** The fields of a record that the filter reads. *)
Definition cuisines_of (r : row) : cell := cell_at r "Cuisines".
Definition rating_of (r : row) : float64 :=
  Pandas.key_of (cell_at r "Aggregate rating").
Definition votes_of (r : row) : float64 := Pandas.key_of (cell_at r "Votes").

(* ===================================================================== *)
(** ** Auxiliary notions used by the statements *)

(** The pattern of a plain tag: one literal per character. *)
Fixpoint lits (s : string) : list Re.atom :=
  match s with
  | EmptyString => []
  | String c s' => Re.Lit c :: lits s'
  end.

(** Compiling the tags one by one and collecting their branches. *)
Fixpoint compile_all (tags : list string) : Re.compiled :=
  match tags with
  | [] => Re.Compiled []
  | t :: ts =>
      match Re.compile t with
      | Re.Compiled bs =>
          match compile_all ts with
          | Re.Compiled bs' => Re.Compiled (bs ++ bs')
          | r => r
          end
      | r => r
      end
  end.

(** A record passes the compiled pattern. *)
Definition cuisine_keep (alts : list (list Re.atom)) (r : row) : bool :=
  match cuisines_of r with
  | CStr t => Re.search alts t
  | CNum _ => false
  end.

(** A record passes the rating bound. *)
Definition rating_keep (m : float64) (r : row) : bool :=
  Float.ge (rating_of r) m.

(** Some requested tag occurs in the record's cuisines, case-insensitively. *)
Definition tag_occurs (tags : list string) (r : row) : Prop :=
  exists t s, t ∈ tags /\ cuisines_of r = CStr s /\ Text.ci_substring t s.

(** The keys that [recommend] sorts on. *)
Definition sort_keys : list string := ["Aggregate rating"; "Votes"].

(** The order the spec asks of two neighbours [a], [b] of the result. *)
Definition in_order (a b : row) : Prop :=
  Float.gt (rating_of a) (rating_of b) = true
  \/ (Float.eq (rating_of a) (rating_of b) = true
      /\ Float.ge (votes_of a) (votes_of b) = true).

(** [a] does not come after [b] in the sort. *)
Definition not_after (by_ : list string) (a b : row) : Prop :=
  Pandas.row_cmp by_ b a <> Lt.

(** Every rating and every vote count of the table is a number that is
    present. *)
Definition keys_present (T : DataFrame) : Prop :=
  Forall (fun r => exists x v,
            cell_at r "Aggregate rating" = CNum x /\ x <> NaN
            /\ cell_at r "Votes" = CNum v /\ v <> NaN) (rows T).

(** The invariant of a cleaned record. *)
Definition clean_row (r : row) : Prop :=
  (exists s, r !! "Cuisines" = Some (CStr s) /\ Text.lower s = s)
  /\ (exists x, r !! "Aggregate rating" = Some (CNum x) /\ x <> NaN).

(** The whole body of [recommend] on values. *)
Definition pipeline (T : DataFrame) (P : Preferences) : outcome DataFrame :=
  obind (cuisine_filter P T) (fun D1 =>
  obind (rating_filter P D1) (fun D2 =>
  obind (Pandas.sort_values_desc D2 sort_keys) (fun D3 =>
  Ret (Pandas.head D3 10)))).

(** The frame that [load_data] cleans: the UTF-8 reading, or the Latin-1
    reading after a decode failure. *)
Definition reading (w : world) (path : string) : DataFrame + exn :=
  match read_csv w path utf_8 with
  | inl D => inl D
  | inr e => if is_UnicodeDecodeError e then read_csv w path latin1 else inr e
  end.

(** The two cleaning steps of [load_data] on a frame that has the column. *)
Definition clean_cuisines (w : world) (D : DataFrame) : DataFrame :=
  Pandas.setitem D "Cuisines"
    (Pandas.str_lower
       (Pandas.astype_str (str_of_float w)
          (Pandas.fillna (CStr "Unknown")
             (map (fun r => cell_at r "Cuisines") (rows D))))).

Definition clean_rating (w : world) (D : DataFrame) : DataFrame :=
  Pandas.setitem D "Aggregate rating"
    (Pandas.fillna (CNum (Fin 0))
       (Pandas.to_numeric_coerce (float_of_string w)
          (map (fun r => cell_at r "Aggregate rating") (rows D)))).

(** What the cleaning makes of one source cell of each column. *)
Definition cuisines_cell (w : world) (c : cell) : cell :=
  match c with
  | CNum NaN => CStr "unknown"
  | CNum x => CStr (Text.lower (str_of_float w x))
  | CStr t => CStr (Text.lower t)
  end.

Definition rating_cell (w : world) (c : cell) : cell :=
  match c with
  | CNum NaN => CNum (Fin 0)
  | CNum x => CNum x
  | CStr t =>
      match float_of_string w t with
      | Some NaN | None => CNum (Fin 0)
      | Some x => CNum x
      end
  end.

Definition clean_record (w : world) (r : row) : row :=
  <["Aggregate rating" := rating_cell w (cell_at r "Aggregate rating")]>
    (<["Cuisines" := cuisines_cell w (cell_at r "Cuisines")]> r).

(** [tag_occurs], decided. *)
Definition tag_occursb (tags : list string) (r : row) : bool :=
  match cuisines_of r with
  | CStr s => existsb (fun t => Text.contains (Text.lower t) (Text.lower s)) tags
  | CNum _ => false
  end.

(** The sort keys of every record are numbers. *)
Definition numeric_keys (D : DataFrame) : bool :=
  forallb (fun r => forallb (fun c => Pandas.is_num (cell_at r c)) sort_keys)
    (rows D).

(** A run only allocates: the old objects and the reports stay. *)
Definition grows (s s' : store) : Prop :=
  (exists new, objs s' = objs s ++ new) /\ reports s' = reports s.

(** From a store with at least [n] objects, [m] only allocates and returns
    a reference to an object past the first [n]. *)
Definition step_ok (n : nat) (m : M loc) : Prop :=
  forall s o s', n <= length (objs s) -> m s = (o, s') ->
    grows s s' /\ forall l, o = Ret l -> n <= l < length (objs s').

(** The same for a statement that continues from such a reference. *)
Definition cont_ok (n : nat) (k : loc -> M loc) : Prop :=
  forall l s o s', n <= length (objs s) -> n <= l < length (objs s) ->
    k l s = (o, s') ->
    grows s s' /\ forall l', o = Ret l' -> n <= l' < length (objs s').

(** A statement [k] on references computes [f] on the values behind
    them: same exception, or a reference to the frame that [f] returns. *)
Definition implements (k : loc -> M loc) (f : DataFrame -> outcome DataFrame)
  : Prop :=
  forall s l D, objs s !! l = Some D ->
    match k l s, f D with
    | (Ret l', s'), Ret D' => objs s' !! l' = Some D'
    | (Raise e, _), Raise e' => e = e'
    | (Unmodelled, _), Unmodelled => True
    | _, _ => False
    end.

(* ===================================================================== *)
(** ** Sample data *)

Definition restaurant (name cuisines rating votes : cell) : row :=
  {[ "Restaurant Name" := name; "Cuisines" := cuisines;
     "Aggregate rating" := rating; "Votes" := votes ]}.

Definition zomato_columns : list string :=
  ["Restaurant Name"; "Cuisines"; "Aggregate rating"; "Votes"].

(** A file as [pd.read_csv] delivers it: the third line has no cuisines
    and a rating of N/A (both read as missing), the fourth a rating that
    is text, the fifth a rating below zero. *)
Definition zomato_source : DataFrame :=
  mkDataFrame zomato_columns
    [ restaurant (CStr "Roma") (CStr "Italian, Pizza")
        (CNum (Fin (42 # 10))) (CNum (Fin 100));
      restaurant (CStr "Darbar") (CStr "North Indian, Mughlai")
        (CNum (Fin (45 # 10))) (CNum (Fin 5));
      restaurant (CStr "Corner") (CNum NaN) (CNum NaN) (CNum (Fin 3));
      restaurant (CStr "Wok") (CStr "Chinese") (CStr "not rated")
        (CNum (Fin 7));
      restaurant (CStr "Cellar") (CStr "Bar Food") (CNum (Fin (-1)))
        (CNum (Fin 2)) ].

(** The same file after [load_data]. *)
Definition zomato_table : DataFrame :=
  mkDataFrame zomato_columns
    [ restaurant (CStr "Roma") (CStr "italian, pizza")
        (CNum (Fin (42 # 10))) (CNum (Fin 100));
      restaurant (CStr "Darbar") (CStr "north indian, mughlai")
        (CNum (Fin (45 # 10))) (CNum (Fin 5));
      restaurant (CStr "Corner") (CStr "unknown") (CNum (Fin 0)) (CNum (Fin 3));
      restaurant (CStr "Wok") (CStr "chinese") (CNum (Fin 0)) (CNum (Fin 7));
      restaurant (CStr "Cellar") (CStr "bar food") (CNum (Fin (-1)))
        (CNum (Fin 2)) ].

(** A world with that one file, readable as UTF-8. *)
Definition zomato_world : world :=
  mkWorld
    (fun path _ =>
       if String.eqb path "cleaned_zomato.csv" then inl zomato_source
       else inr (OtherException "No such file or directory"))
    (fun _ => None)
    (fun _ => "nan").

(** The same file with bytes that are not UTF-8. *)
Definition latin1_world : world :=
  mkWorld
    (fun path enc =>
       if String.eqb path "cleaned_zomato.csv" then
         match enc with
         | utf_8 => inr (UnicodeDecodeError "invalid continuation byte")
         | latin1 => inl zomato_source
         end
       else inr (OtherException "No such file or directory"))
    (fun _ => None)
    (fun _ => "nan").

(** The loaded sample table in the order [recommend] ranks it. *)
Definition zomato_ranked : DataFrame :=
  mkDataFrame zomato_columns
    [ restaurant (CStr "Darbar") (CStr "north indian, mughlai")
        (CNum (Fin (45 # 10))) (CNum (Fin 5));
      restaurant (CStr "Roma") (CStr "italian, pizza")
        (CNum (Fin (42 # 10))) (CNum (Fin 100));
      restaurant (CStr "Wok") (CStr "chinese") (CNum (Fin 0)) (CNum (Fin 7));
      restaurant (CStr "Corner") (CStr "unknown") (CNum (Fin 0)) (CNum (Fin 3));
      restaurant (CStr "Cellar") (CStr "bar food") (CNum (Fin (-1)))
        (CNum (Fin 2)) ].

(** A file in which the second record has no vote count. *)
Definition gaps_table : DataFrame :=
  mkDataFrame zomato_columns
    [ restaurant (CStr "Roma") (CStr "italian") (CNum (Fin 4)) (CNum (Fin 10));
      restaurant (CStr "Napoli") (CStr "italian") (CNum (Fin 4)) (CNum NaN) ].

Definition gaps_world : world :=
  mkWorld (fun _ _ => inl gaps_table) (fun _ => None) (fun _ => "nan").

(** A table that has a record and no [Votes] column. *)
Definition no_votes_table : DataFrame :=
  mkDataFrame ["Restaurant Name"; "Cuisines"; "Aggregate rating"]
    [ {[ "Restaurant Name" := CStr "Wok"; "Cuisines" := CStr "chinese";
         "Aggregate rating" := CNum (Fin 4) ]} ].

(** A file in which a rating is spelled [inf]. *)
Definition infinity_source : DataFrame :=
  mkDataFrame zomato_columns
    [ restaurant (CStr "Olymp") (CStr "greek") (CNum PosInf) (CNum (Fin 1)) ].

Definition infinity_world : world :=
  mkWorld (fun _ _ => inl infinity_source) (fun _ => None) (fun _ => "inf").

(* ===================================================================== *)
(** ** The rest of the script: start-up, the cuisine choices, the button *)

Module Str.

(** [c.isspace()] on a Latin-1 code point: tab to carriage return, the
    four separators U+001C..U+001F, space, U+0085 and U+00A0. *)
Definition is_space (c : ascii) : bool :=
  let n := nat_of_ascii c in
  (Nat.leb 9 n && Nat.leb n 13) || (Nat.leb 28 n && Nat.leb n 32)
  || Nat.eqb n 133 || Nat.eqb n 160.

Fixpoint lstrip (s : string) : string :=
  match s with
  | EmptyString => EmptyString
  | String c s' => if is_space c then lstrip s' else s
  end.

Fixpoint rstrip (s : string) : string :=
  match s with
  | EmptyString => EmptyString
  | String c s' =>
      match rstrip s' with
      | EmptyString => if is_space c then EmptyString else String c EmptyString
      | r => String c r
      end
  end.

(** [s.strip()] *)
Definition strip (s : string) : string := lstrip (rstrip s).

(** [s.split(sep)] for a separator of one character. *)
Fixpoint split (sep : ascii) (s : string) : list string :=
  match s with
  | EmptyString => [EmptyString]
  | String c s' =>
      if Ascii.eqb c sep then EmptyString :: split sep s'
      else match split sep s' with
           | p :: ps => String c p :: ps
           | [] => [String c EmptyString]
           end
  end.

(** [sorted(set(l))]: the distinct strings of [l] in code-point order. *)
Fixpoint set_insert (x : string) (l : list string) : list string :=
  match l with
  | [] => [x]
  | y :: l' =>
      match String.compare x y with
      | Lt => x :: l
      | Eq => l
      | Gt => y :: set_insert x l'
      end
  end.

Definition sorted_set (l : list string) : list string :=
  foldr set_insert [] l.

Definition nonempty (s : string) : bool :=
  match s with EmptyString => false | String _ _ => true end.

End Str.

(** [c in s] for a character. *)
Fixpoint has_char (c : ascii) (s : string) : bool :=
  match s with
  | EmptyString => false
  | String d s' => Ascii.eqb c d || has_char c s'
  end.

(** Strictly ascending in code-point order. *)
Definition str_lt (a b : string) : Prop := String.compare a b = Lt.

(** The pieces of every cell of [df['Cuisines'].str.split(',')], in order;
    iterating over the entry of a cell that is not text raises. *)
Fixpoint comma_pieces (col : Series) : outcome (list string) :=
  match col with
  | [] => Ret []
  | CStr s :: col' =>
      obind (comma_pieces col') (fun ps => Ret (Str.split "," s ++ ps))
  | CNum _ :: _ => Raise (TypeError "'float' object is not iterable")
  end.

(** Lines 81-84: the body of the [try]. *)
Definition cuisine_choices (D : DataFrame) : outcome (list string) :=
  obind (Pandas.getitem D "Cuisines") (fun col =>
  obind (comma_pieces col) (fun pieces =>
  match Str.sorted_set (List.filter Str.nonempty (map Str.strip pieces)) with
  | [] => Raise (OtherException "No cuisines found")
  | found => Ret found
  end)).

Definition default_cuisines : list string :=
  ["Italian"; "Indian"; "Chinese"; "American"].

(** [df.empty] *)
Definition df_empty (D : DataFrame) : bool :=
  match columns D, rows D with
  | _ :: _, _ :: _ => false
  | _, _ => true
  end.

(** What the page shows, [st.error] apart (that goes to the reports of the
    store). *)
Inductive ui_event :=
| StInfo (msg : string)
| StWarning (msg : string)
| StWrite (msg : string)
| StTitle                      (* [st.title] with the name of the page *)
| StFound (n : nat)            (* [st.success(f"Found {n} restaurants")] *)
| StExpander (r : row).        (* the card of one record is opened *)

(** The machine the script runs on: the files, the two configured paths,
    whether the data file exists, what goes wrong when [joblib.dump]
    writes (the exception, and the exception that loading the file it
    leaves raises, if it leaves one), and what goes wrong inside
    Streamlit when the card of a record is drawn. *)
Record host := mkHost {
  files : world;
  DATA_PATH : string;
  MODEL_PATH : string;
  data_exists : bool;
  dump_fault : option (exn * option exn);
  card_fault : row -> option exn
}.

(** The state of a run: the objects and reports, the model file (absent,
    the pickled table of a recommender, or bytes whose loading raises),
    and the page. *)
Record session := mkSession {
  mem : store;
  model_file : option (DataFrame + exn);
  screen : list ui_event
}.

Definition App (A : Type) : Type := session -> outcome A * session.

Definition app_ret {A} (a : A) : App A := fun t => (Ret a, t).

Definition app_raise {A} (e : exn) : App A := fun t => (Raise e, t).

Definition app_bind {A B} (m : App A) (k : A -> App B) : App B :=
  fun t =>
    match m t with
    | (Ret a, t') => k a t'
    | (Raise e, t') => (Raise e, t')
    | (Unmodelled, t') => (Unmodelled, t')
    end.

Notation "x <~ c1 ;; c2" := (app_bind c1 (fun x => c2))
  (at level 100, c1 at next level, right associativity).
Notation "c1 ~;; c2" := (app_bind c1 (fun _ => c2))
  (at level 100, right associativity).

(** A computation on the objects, run inside the session. *)
Definition in_mem {A} (m : M A) : App A :=
  fun t =>
    let (o, s') := m (mem t) in
    (o, mkSession s' (model_file t) (screen t)).

Definition show (e : ui_event) : App unit :=
  fun t => (Ret tt, mkSession (mem t) (model_file t) (screen t ++ [e])).

(** [try: body  except Exception as e: handler(e)] *)
Definition app_try {A} (body : App A) (handler : exn -> App A) : App A :=
  fun t =>
    match body t with
    | (Raise e, t') => handler e t'
    | r => r
    end.

(** [os.path.exists(MODEL_PATH)] *)
Definition model_exists : App bool :=
  fun t => (Ret (bool_decide (is_Some (model_file t))), t).

(** [joblib.dump(recommender, MODEL_PATH)]: the table of the recommender
    goes to the model file, unless the write goes wrong. *)
Definition joblib_dump (h : host) (recommender : RestaurantRecommender)
  : App unit :=
  D <~ in_mem (deref (df recommender)) ;;
  fun t =>
    match dump_fault h with
    | None => (Ret tt, mkSession (mem t) (Some (inl D)) (screen t))
    | Some (e, leftover) =>
        (Raise e, mkSession (mem t) (inr <$> leftover) (screen t))
    end.

(** [joblib.load(MODEL_PATH)]: a new recommender with a table of its own. *)
Definition joblib_load : App RestaurantRecommender :=
  fun t =>
    match model_file t with
    | Some (inl D) =>
        (d <~ in_mem (new_object D) ;; app_ret (mkRecommender d)) t
    | Some (inr e) => (Raise e, t)
    | None => (Raise (OtherException "No such file or directory"), t)
    end.

(** [initialize_system], lines 48-65: one execution of its body (the
    decorator [st.cache_resource] keeps the result for the reruns of one
    process). *)
Definition initialize_system (h : host)
  : App (option (loc * RestaurantRecommender)) :=
  app_try
    (if negb (data_exists h) then
       in_mem (st_error ("Data file not found at: " ++ DATA_PATH h)%string) ~;;
       app_ret None
     else
       cached <~ model_exists ;;
       if negb cached then
         show (StInfo "Creating new model...") ~;;
         recommender <~ in_mem (init (files h) (DATA_PATH h)) ;;
         joblib_dump h recommender ~;;
         app_ret (Some (df recommender, recommender))
       else
         recommender <~ joblib_load ;;
         app_ret (Some (df recommender, recommender)))
    (fun e =>
       in_mem (st_error ("System error: " ++ exn_str e)%string) ~;;
       app_ret None).

(** Lines 80-87: the cuisines offered in the sidebar. *)
Definition all_cuisines (d : loc) : App (list string) :=
  app_try
    (D <~ in_mem (deref d) ;;
     in_mem (lift (cuisine_choices D)))
    (fun e =>
       show (StWarning ("Using default cuisines: " ++ exn_str e)%string) ~;;
       app_ret default_cuisines).

(** [st.multiselect('Select Cuisines', options)]: of what the user picks,
    only offered options can be selected. *)
Definition multiselect (options picks : list string) : list string :=
  List.filter (fun p => bool_decide (p ∈ options)) picks.

(** Lines 111-125, for one record: the title of the card reads the name
    and the rating of the record, then the card is drawn. *)
Definition show_card (h : host) (D : DataFrame) (r : row) : App unit :=
  if has_column D "Restaurant Name" then
    show (StExpander r) ~;;
    match card_fault h r with
    | Some e => app_raise e
    | None => app_ret tt
    end
  else app_raise (KeyError "Restaurant Name").

Fixpoint for_each {A} (f : A -> App unit) (l : list A) : App unit :=
  match l with
  | [] => app_ret tt
  | x :: l' => f x ~;; for_each f l'
  end.

(** Lines 97-127: what the button does. *)
Definition find_restaurants (h : host) (recommender : RestaurantRecommender)
    (selected_cuisines : list string) (min_rating : float64) : App unit :=
  match selected_cuisines with
  | [] => show (StWarning "Please select at least one cuisine")
  | _ :: _ =>
      app_try
        (recommendations <~
           in_mem (recommend recommender
                     (mkPreferences (Some selected_cuisines) (Some min_rating))) ;;
         D <~ in_mem (deref recommendations) ;;
         if df_empty D then show (StInfo "No restaurants match your criteria")
         else
           show (StFound (length (rows D))) ~;;
           for_each (show_card h D) (rows D))
        (fun e =>
           in_mem (st_error ("Recommendation error: " ++ exn_str e)%string))
  end.

(** What the user does on the page. *)
Record inputs := mkInputs {
  picks : list string;
  slider : float64;
  button : bool
}.

(** The script, lines 67-127; [st.stop()] ends it. *)
Definition script (h : host) (u : inputs) : App unit :=
  started <~ initialize_system h ;;
  match started with
  | None =>
      in_mem (st_error "System initialization failed. Please check:") ~;;
      show (StWrite ("1. Data file exists at: " ++ DATA_PATH h)%string) ~;;
      show (StWrite "2. You have proper file permissions")
  | Some (d, recommender) =>
      D <~ in_mem (deref d) ;;
      if df_empty D then
        in_mem (st_error "System initialization failed. Please check:") ~;;
        show (StWrite ("1. Data file exists at: " ++ DATA_PATH h)%string) ~;;
        show (StWrite "2. You have proper file permissions")
      else
        show StTitle ~;;
        options <~ all_cuisines d ;;
        if button u then
          find_restaurants h recommender (multiselect options (picks u))
            (slider u)
        else app_ret tt
  end.

(** Twelve records rated 1 to 12, in that order. *)
Definition ladder_record (n : nat) : row :=
  restaurant (CStr "Stall") (CStr "thai") (CNum (Fin (Z.of_nat n # 1)))
    (CNum (Fin 1)).

Definition ladder_table : DataFrame :=
  mkDataFrame zomato_columns (map ladder_record (seq 1 12)).

(** A table with the sort columns and no [Restaurant Name] column. *)
Definition nameless_table : DataFrame :=
  mkDataFrame ["Cuisines"; "Aggregate rating"; "Votes"]
    [ {[ "Cuisines" := CStr "thai"; "Aggregate rating" := CNum (Fin 4);
         "Votes" := CNum (Fin 9) ]} ].

(** A file that has no [Restaurant Name] column, and the machine state
    that holds it. *)
Definition nameless_source : DataFrame :=
  mkDataFrame ["Cuisines"; "Aggregate rating"; "Votes"]
    [ {[ "Cuisines" := CStr "Thai"; "Aggregate rating" := CNum (Fin 4);
         "Votes" := CNum (Fin 9) ]} ].

Definition nameless_world : world :=
  mkWorld
    (fun path _ =>
       if String.eqb path "cleaned_zomato.csv" then inl nameless_source
       else inr (OtherException "No such file or directory"))
    (fun _ => None)
    (fun _ => "nan").

(** A machine whose data file cannot be parsed. *)
Definition broken_host : host :=
  mkHost
    (mkWorld (fun _ _ => inr (OtherException "Error tokenizing data"))
       (fun _ => None) (fun _ => "nan"))
    "cleaned_zomato.csv" "restaurant_recommender_model.joblib"
    true None (fun _ => None).

(** The order of the sort is a total preorder; these are the three facts
    that say so for a comparison. *)
Definition preorder_cmp {A} (cmp : A -> A -> comparison) : Prop :=
  (forall x y, cmp y x = CompOpp (cmp x y))
  /\ (forall x y z, cmp x y = Lt -> cmp y z <> Gt -> cmp x z = Lt)
  /\ (forall x y z, cmp x y = Eq -> cmp x z = cmp y z).

(** A sample machine: the sample file, no model file yet, nothing going
    wrong. *)
Definition zomato_host : host :=
  mkHost zomato_world "cleaned_zomato.csv" "restaurant_recommender_model.joblib"
    true None (fun _ => None).

Definition fresh_session : session := mkSession (mkStore [] []) None [].

(* ===================================================================== *)
(** * Properties *)

(** ** Text and patterns *)

Section TextFacts.
Import Text.

Lemma lower_char_idem c : lower_char (lower_char c) = lower_char c.
Proof. destruct c as [[] [] [] [] [] [] [] []]; reflexivity. Qed.

Lemma lower_idem s : lower (lower s) = lower s.
Proof. induction s as [|c s IH]; simpl; [done|]. by rewrite lower_char_idem, IH. Qed.

Lemma starts_with_spec n h :
  starts_with n h = true <-> exists post, h = (n ++ post)%string.
Proof.
  revert h. induction n as [|a n IH]; intros h; simpl.
  - split; [intros _; by exists h | done].
  - destruct h as [|b h].
    + split; [done | intros [post Hp]; discriminate].
    + rewrite andb_true_iff, Ascii.eqb_eq, IH. split.
      * intros [-> [post ->]]. by exists post.
      * intros [post Hp]. injection Hp as -> ->. split; [done | by exists post].
Qed.

Lemma contains_spec n h : contains n h = true <-> substring n h.
Proof.
  unfold substring. induction h as [|b h IH].
  - simpl. rewrite orb_false_r, starts_with_spec. split.
    + intros [post Hp]. by exists EmptyString, post.
    + intros [pre [post Hp]]. destruct pre; [by exists post | discriminate].
  - change (contains n (String b h))
      with (starts_with n (String b h) || contains n h).
    rewrite orb_true_iff, starts_with_spec, IH. split.
    + intros [[post Hp] | [pre [post Hp]]].
      * by exists EmptyString, post.
      * exists (String b pre), post. simpl. by rewrite Hp.
    + intros [pre [post Hp]]. destruct pre as [|c pre].
      * left. by exists post.
      * right. injection Hp as -> ->. by exists pre, post.
Qed.

End TextFacts.

Section PatternFacts.
Import Text Re.

Lemma plain_char_lower c : plain_char (lower_char c) = plain_char c.
Proof. destruct c as [[] [] [] [] [] [] [] []]; reflexivity. Qed.

Lemma plain_lower s : plain (lower s) = plain s.
Proof. induction s as [|c s IH]; simpl; [done|]. by rewrite plain_char_lower, IH. Qed.

Lemma plain_char_parse c :
  plain_char c = true ->
  is_repeat c = false /\ is_uninterpreted c = false
  /\ Ascii.eqb c "|" = false /\ atom_of c = Lit c.
Proof.
  unfold plain_char, atom_of. rewrite negb_true_iff, !orb_false_iff.
  intros [[[[[-> ->] ->] ->] _] _]. done.
Qed.

Lemma parse_nonempty b pat : parse b pat <> Compiled [].
Proof.
  revert b. induction pat as [|c pat IH]; intros b; simpl; [done|].
  destruct (is_repeat c); [by destruct b|].
  destruct (is_uninterpreted c); [done|].
  destruct (Ascii.eqb c "|").
  - by destruct (parse true pat).
  - by destruct (parse false pat) as [[|? ?]| |].
Qed.

(** A plain tag compiles to its literals, whatever the position. *)
Lemma parse_plain b s : plain s = true -> parse b s = Compiled [lits s].
Proof.
  revert b. induction s as [|c s IH]; intros b; simpl; [done|].
  rewrite andb_true_iff. intros [Hc Hs].
  destruct (plain_char_parse c Hc) as (-> & -> & -> & ->).
  by rewrite (IH false Hs).
Qed.

(** The pattern [a|b] has the branches of [a], then those of [b]; the
    first failure decides. *)
Lemma parse_app_bar a b st :
  parse st (a ++ String "|" b)%string =
    match parse st a with
    | Compiled as_ =>
        match parse true b with
        | Compiled bs => Compiled (as_ ++ bs)
        | r => r
        end
    | r => r
    end.
Proof.
  revert st. induction a as [|c a IH]; intros st.
  - simpl. by destruct (parse true b).
  - simpl. destruct (is_repeat c); [by destruct st|].
    destruct (is_uninterpreted c); [done|].
    destruct (Ascii.eqb c "|").
    + rewrite IH. destruct (parse true a); [|done..].
      by destruct (parse true b).
    + rewrite IH. pose proof (parse_nonempty false a) as Hne.
      destruct (parse false a) as [[|b0 bs]| |]; [done| |done..].
      by destruct (parse true b).
Qed.

Lemma compile_join tags :
  tags <> [] -> compile (join "|" tags) = compile_all tags.
Proof.
  induction tags as [|t ts IH]; [done|]. intros _.
  destruct ts as [|t2 ts].
  - simpl. unfold compile. destruct (parse true t); [|done..].
    by rewrite app_nil_r.
  - change (join "|" (t :: t2 :: ts))
      with (t ++ String "|" (join "|" (t2 :: ts)))%string.
    unfold compile at 1. rewrite parse_app_bar.
    change (parse true (join "|" (t2 :: ts))) with (compile (join "|" (t2 :: ts))).
    rewrite IH by done. reflexivity.
Qed.

Lemma compile_all_plain tags :
  Forall (fun t => plain t = true) tags ->
  compile_all tags = Compiled (map lits tags).
Proof.
  induction 1 as [|t ts Ht _ IH]; simpl; [done|].
  unfold compile. by rewrite (parse_plain true t Ht), IH.
Qed.

(** Narrowing the tags narrows the branches. *)
Lemma compile_all_elem tags bs t :
  compile_all tags = Compiled bs -> t ∈ tags ->
  exists bt, compile t = Compiled bt /\ bt ⊆ bs.
Proof.
  revert bs. induction tags as [|t0 ts IH]; intros bs Hc Ht.
  - by apply elem_of_nil in Ht.
  - simpl in Hc. destruct (compile t0) as [b0| |] eqn:E0; [|done..].
    destruct (compile_all ts) as [bs'| |] eqn:Ets; [|done..].
    injection Hc as <-. apply elem_of_cons in Ht as [->|Ht].
    + exists b0. split; [done|]. intros x Hx. apply elem_of_app. by left.
    + destruct (IH bs' eq_refl Ht) as (bt & Hbt & Hsub).
      exists bt. split; [done|]. intros x Hx. apply elem_of_app. right. by apply Hsub.
Qed.

Lemma compile_all_subset tags tags' bs :
  compile_all tags = Compiled bs -> tags' ⊆ tags ->
  exists bs', compile_all tags' = Compiled bs' /\ bs' ⊆ bs.
Proof.
  intros Hc. induction tags' as [|t ts IH]; intros Hsub.
  - exists []. split; [done|]. intros x Hx. by apply elem_of_nil in Hx.
  - destruct (compile_all_elem tags bs t Hc) as (bt & Hbt & Hbs).
    { apply Hsub. by left. }
    destruct IH as (bs' & Hts & Hbs').
    { intros x Hx. apply Hsub. by right. }
    exists (bt ++ bs'). simpl. rewrite Hbt, Hts. split; [done|].
    intros x Hx. apply elem_of_app in Hx as [Hx|Hx]; auto.
Qed.

Lemma search_mono bs bs' s :
  bs' ⊆ bs -> search bs' s = true -> search bs s = true.
Proof.
  intros Hsub. induction s as [|c s IH].
  - simpl. rewrite !orb_false_r, !existsb_exists.
    intros (b & Hb & Hm). exists b. split; [|done].
    apply list_elem_of_In, Hsub, list_elem_of_In, Hb.
  - change (search bs' (String c s))
      with (existsb (fun b => match_here b (String c s)) bs' || search bs' s).
    change (search bs (String c s))
      with (existsb (fun b => match_here b (String c s)) bs || search bs s).
    rewrite !orb_true_iff, !existsb_exists. intros [(b & Hb & Hm)|Hs].
    + left. exists b. split; [|done].
      apply list_elem_of_In, Hsub, list_elem_of_In, Hb.
    + right. by apply IH.
Qed.

(** Under [re.IGNORECASE], the literals of a lowercased tag match exactly
    where the lowercased text starts with the lowercased tag. *)
Lemma match_here_lits t s :
  match_here (lits (lower t)) s = starts_with (lower t) (lower s).
Proof.
  revert s. induction t as [|c t IH]; intros s; simpl; [done|].
  destruct s as [|d s]; simpl; [done|].
  rewrite lower_char_idem, IH. f_equal.
  destruct (Ascii.eqb_spec (lower_char d) (lower_char c)) as [->|Hne].
  - by rewrite Ascii.eqb_refl.
  - symmetry. apply Ascii.eqb_neq. congruence.
Qed.

Lemma existsb_orb {A} (f g : A -> bool) l :
  existsb (fun x => f x || g x) l = existsb f l || existsb g l.
Proof.
  induction l as [|x l IH]; simpl; [done|]. rewrite IH.
  destruct (f x), (g x), (existsb f l), (existsb g l); reflexivity.
Qed.

Lemma existsb_match_lits tags s :
  existsb (fun b => match_here b s) (map lits (map lower tags))
  = existsb (fun t => starts_with (lower t) (lower s)) tags.
Proof.
  induction tags as [|t ts IHt]; [done|].
  cbn [map existsb]. by rewrite IHt, match_here_lits.
Qed.

Lemma search_lits tags s :
  search (map lits (map lower tags)) s
  = existsb (fun t => contains (lower t) (lower s)) tags.
Proof.
  induction s as [|c s IH].
  - cbn [search lower contains]. rewrite !orb_false_r, existsb_match_lits.
    clear. induction tags as [|t ts IHt]; [done|].
    cbn [existsb]. by rewrite IHt, orb_false_r.
  - change (search (map lits (map lower tags)) (String c s))
      with (existsb (fun b => match_here b (String c s)) (map lits (map lower tags))
            || search (map lits (map lower tags)) s).
    rewrite IH, existsb_match_lits, <- existsb_orb. reflexivity.
Qed.

End PatternFacts.

(** ** Floats and the sort order *)

Section OrderFacts.
Import Pandas.

Lemma Qle_bool_total a b : Qle_bool a b = false -> Qle_bool b a = true.
Proof.
  intros H. apply Qle_bool_iff, Qlt_le_weak, Qnot_le_lt.
  intros Hle. apply Qle_bool_iff in Hle. congruence.
Qed.

Lemma key_cmp_opp x y : key_cmp y x = CompOpp (key_cmp x y).
Proof.
  destruct x as [| |a|], y as [| |b|]; try reflexivity.
  unfold key_cmp, Float.gt.
  destruct (Qle_bool a b) eqn:E1, (Qle_bool b a) eqn:E2; simpl; try reflexivity.
  apply Qle_bool_total in E1. congruence.
Qed.

Lemma row_cmp_opp by_ a b : row_cmp by_ b a = CompOpp (row_cmp by_ a b).
Proof.
  induction by_ as [|c by_ IH]; simpl; [done|].
  rewrite (key_cmp_opp (key_of (cell_at a c)) (key_of (cell_at b c))).
  by destruct (key_cmp (key_of (cell_at a c)) (key_of (cell_at b c))).
Qed.

Lemma insert_row_perm by_ x l : insert_row by_ x l ≡ₚ x :: l.
Proof.
  induction l as [|y l IH]; simpl; [done|].
  destruct (row_cmp by_ y x); try done.
  rewrite IH. apply Permutation_swap.
Qed.

Lemma sort_rows_perm by_ l : sort_rows by_ l ≡ₚ l.
Proof.
  induction l as [|x l IH]; simpl; [done|].
  fold (sort_rows by_ l). by rewrite insert_row_perm, IH.
Qed.

Lemma insert_row_sorted by_ x l :
  Sorted (not_after by_) l -> Sorted (not_after by_) (insert_row by_ x l).
Proof.
  induction 1 as [|y l Hs IH Hhd]; simpl.
  - repeat constructor.
  - destruct (row_cmp by_ y x) eqn:E.
    + constructor; [by constructor|]. constructor. unfold not_after. by rewrite E.
    + constructor; [done|].
      assert (not_after by_ y x) as Hyx.
      { unfold not_after. rewrite row_cmp_opp, E. done. }
      destruct l as [|z l]; simpl in *; [by repeat constructor|].
      destruct (row_cmp by_ z x); constructor; try done.
      by inversion Hhd.
    + constructor; [by constructor|]. constructor. unfold not_after. by rewrite E.
Qed.

Lemma sort_rows_sorted by_ l : Sorted (not_after by_) (sort_rows by_ l).
Proof.
  induction l as [|x l IH]; simpl; [constructor|].
  by apply insert_row_sorted.
Qed.

Lemma Sorted_take {A} (R : A -> A -> Prop) n l :
  Sorted R l -> Sorted R (take n l).
Proof.
  intros Hs. revert n. induction Hs as [|x l Hs IH Hhd]; intros n.
  - destruct n; constructor.
  - destruct n as [|n]; simpl; [constructor|].
    constructor; [apply IH|].
    destruct Hhd as [|y l' Hxy]; [destruct n; constructor|].
    destruct n; simpl; constructor. done.
Qed.

(** Neighbours of a sorted list are related. *)
Lemma Sorted_adjacent {A} (R : A -> A -> Prop) l i a b :
  Sorted R l -> l !! i = Some a -> l !! S i = Some b -> R a b.
Proof.
  intros Hs. revert i. induction Hs as [|x l Hs IH Hhd]; intros i Ha Hb; [done|].
  destruct i as [|i]; simpl in *.
  - injection Ha as <-. destruct Hhd as [|y l' Hxy]; [done|].
    simpl in Hb. by injection Hb as <-.
  - by apply (IH i).
Qed.

Lemma key_cmp_not_lt x y :
  x <> NaN -> y <> NaN -> key_cmp y x <> Lt ->
  Float.gt x y = true \/ (Float.eq x y = true /\ key_cmp y x = Eq).
Proof.
  destruct x as [| |a|], y as [| |b|]; intros Hx Hy; try done;
    try (intros _; left; reflexivity); try (intros _; right; done).
  unfold key_cmp, Float.gt, Float.eq.
  destruct (Qle_bool b a) eqn:E1; simpl; [|done].
  destruct (Qle_bool a b) eqn:E2; simpl; [|intros _; by left].
  intros _. right. split; [|done].
  apply Qeq_bool_iff, Qle_antisym; by apply Qle_bool_iff.
Qed.

Lemma key_cmp_not_lt_ge x y :
  x <> NaN -> y <> NaN -> key_cmp y x <> Lt -> Float.ge x y = true.
Proof.
  destruct x as [| |a|], y as [| |b|]; intros Hx Hy; try done.
  unfold key_cmp, Float.gt, Float.ge.
  by destruct (Qle_bool b a).
Qed.

(** With both keys present, "not after" is the order the spec states. *)
Lemma not_after_in_order a b xa va xb vb :
  cell_at a "Aggregate rating" = CNum xa -> xa <> NaN ->
  cell_at a "Votes" = CNum va -> va <> NaN ->
  cell_at b "Aggregate rating" = CNum xb -> xb <> NaN ->
  cell_at b "Votes" = CNum vb -> vb <> NaN ->
  not_after sort_keys a b -> in_order a b.
Proof.
  intros Ha Hxa Hva Hva' Hb Hxb Hvb Hvb'.
  unfold not_after, in_order, rating_of, votes_of, sort_keys.
  cbn [row_cmp]. rewrite Ha, Hva, Hb, Hvb. cbn [key_of].
  intros H.
  destruct (key_cmp_not_lt xa xb Hxa Hxb) as [Hgt|[Heq Hc]].
  { intros Hc. by rewrite Hc in H. }
  - by left.
  - right. split; [done|]. rewrite Hc in H.
    apply key_cmp_not_lt_ge; try done.
    intros Hc'. by rewrite Hc' in H.
Qed.

End OrderFacts.

(** ** The statements of [recommend] on values *)

Section FrameFacts.
Import Pandas.

Lemma select_rows_map (f : row -> bool) rs :
  select_rows (map f rs) rs = List.filter f rs.
Proof.
  induction rs as [|r rs IH]; simpl; [done|]. rewrite IH. by destruct (f r).
Qed.

Lemma select_cuisines_eq tags D :
  tags <> [] ->
  select_cuisines tags D =
    if has_column D "Cuisines" then
      match compile_all (map Text.lower tags) with
      | Re.Compiled alts =>
          Ret (mkDataFrame (columns D) (List.filter (cuisine_keep alts) (rows D)))
      | Re.NothingToRepeat => Raise (re_error "nothing to repeat")
      | Re.Beyond => Unmodelled
      end
    else Raise (KeyError "Cuisines").
Proof.
  intros Hne. unfold select_cuisines, getitem.
  destruct (has_column D "Cuisines"); [|done]. cbn [obind].
  unfold str_contains. rewrite compile_join by (by destruct tags).
  destruct (compile_all (map Text.lower tags)); [|done..]. cbn [obind].
  unfold getitem_mask. rewrite map_map.
  change (fun x : row => match cell_at x "Cuisines" with
                         | CNum _ => false
                         | CStr t => Re.search alts t
                         end) with (cuisine_keep alts).
  by rewrite select_rows_map.
Qed.

Lemma forallb_fmap {A B} (f : B -> bool) (g : A -> B) l :
  forallb f (map g l) = forallb (fun x => f (g x)) l.
Proof. induction l as [|x l IH]; simpl; [done|]. by rewrite IH. Qed.

Lemma ge_scalar_eq s m :
  ge_scalar s m =
    if forallb is_num s then Ret (map (fun c => Float.ge (key_of c) m) s)
    else Raise (TypeError "'>=' not supported between instances of 'str' and 'float'").
Proof.
  induction s as [|[x|t] s IH]; simpl; [done| |done].
  rewrite IH. by destruct (forallb is_num s).
Qed.

Lemma select_rating_eq m D :
  select_rating m D =
    if has_column D "Aggregate rating" then
      if forallb (fun r => is_num (cell_at r "Aggregate rating")) (rows D) then
        Ret (mkDataFrame (columns D) (List.filter (rating_keep m) (rows D)))
      else Raise (TypeError "'>=' not supported between instances of 'str' and 'float'")
    else Raise (KeyError "Aggregate rating").
Proof.
  unfold select_rating, getitem.
  destruct (has_column D "Aggregate rating"); [|done]. cbn [obind].
  rewrite ge_scalar_eq, forallb_fmap.
  destruct (forallb _ (rows D)); [|done]. cbn [obind].
  unfold getitem_mask. rewrite map_map.
  change (fun x : row => Float.ge (key_of (cell_at x "Aggregate rating")) m)
    with (rating_keep m).
  by rewrite select_rows_map.
Qed.

(** [recommend] computes the pipeline of its four statements. *)
Lemma recommend_on_eq T P : recommend_on T P = pipeline T P.
Proof.
  unfold recommend_on, pipeline, recommend, cuisine_filter, rating_filter,
    DataFrame_copy, apply_new, sort_keys, value_of.
  unfold bind, deref, lift, new_object, ret.
  destruct P as [[[|t ts]|] [m|]]; cbn -[select_cuisines select_rating sort_values_desc head];
    repeat (match goal with
            | |- context [Float.truthy ?m] => destruct (Float.truthy m)
            | |- context [select_cuisines ?a ?b] => destruct (select_cuisines a b)
            | |- context [select_rating ?a ?b] => destruct (select_rating a b)
            | |- context [sort_values_desc ?a ?b] => destruct (sort_values_desc a b)
            end; cbn -[select_cuisines select_rating sort_values_desc head]);
    reflexivity.
Qed.

End FrameFacts.

(** ** The store during [recommend] *)

Section StoreFacts.

Lemma grows_refl s : grows s s.
Proof. split; [exists []; by rewrite app_nil_r | done]. Qed.

Lemma grows_trans s1 s2 s3 : grows s1 s2 -> grows s2 s3 -> grows s1 s3.
Proof.
  intros [[n1 H1] R1] [[n2 H2] R2]. split; [|congruence].
  exists (n1 ++ n2). by rewrite H2, H1, app_assoc.
Qed.

Lemma grows_length s s' : grows s s' -> length (objs s) <= length (objs s').
Proof. intros [[new ->] _]. rewrite length_app. lia. Qed.

Lemma grows_lookup s s' l D :
  grows s s' -> objs s !! l = Some D -> objs s' !! l = Some D.
Proof.
  intros [[new ->] _] H. rewrite lookup_app_l; [done|].
  by apply lookup_lt_Some in H.
Qed.

Lemma apply_new_spec f l s o s' :
  apply_new f l s = (o, s') ->
  grows s s' /\ forall l', o = Ret l' -> l' = length (objs s) /\ l' < length (objs s').
Proof.
  unfold apply_new, bind, deref, lift, new_object.
  destruct (objs s !! l) as [D|]; [destruct (f D) as [out|e|]|];
    intros [= <- <-]; try (split; [apply grows_refl | done]).
  split.
  - split; [by exists [out] | done].
  - intros l' [= <-]. cbn. rewrite length_app. cbn. lia.
Qed.

Lemma apply_new_step n f l : step_ok n (apply_new f l).
Proof.
  intros s o s' Hn Hrun. destruct (apply_new_spec _ _ _ _ _ Hrun) as [Hg Hl].
  split; [done|]. intros l' Ho. destruct (Hl l' Ho). lia.
Qed.

Lemma apply_new_cont n f : cont_ok n (apply_new f).
Proof. intros l s o s' Hn _ Hrun. by apply (apply_new_step n f l s). Qed.

Lemma ret_cont n : cont_ok n (@ret loc).
Proof.
  intros l s o s' Hn Hl [= <- <-]. split; [apply grows_refl|].
  by intros l' [= <-].
Qed.

Lemma bind_step n m k :
  step_ok n m -> cont_ok n k -> step_ok n (bind m k).
Proof.
  intros Hm Hk s o s' Hn. unfold bind.
  destruct (m s) as [[l|e|] s1] eqn:E; destruct (Hm _ _ _ Hn E) as [Hg Hl].
  - intros Hrun. destruct (Hk l s1 o s') as [Hg' Hl']; try done.
    + apply grows_length in Hg. lia.
    + by apply Hl.
    + split; [by eapply grows_trans | done].
  - intros [= <- <-]. split; done.
  - intros [= <- <-]. split; done.
Qed.

Lemma bind_cont n k1 k2 :
  cont_ok n k1 -> cont_ok n k2 -> cont_ok n (fun l => bind (k1 l) k2).
Proof.
  intros H1 H2 l s o s' Hn Hl. unfold bind.
  destruct (k1 l s) as [[l1|e|] s1] eqn:E;
    destruct (H1 _ _ _ _ Hn Hl E) as [Hg Hl1].
  - intros Hrun. destruct (H2 l1 s1 o s') as [Hg' Hl']; try done.
    + apply grows_length in Hg. lia.
    + by apply Hl1.
    + split; [by eapply grows_trans | done].
  - intros [= <- <-]. split; done.
  - intros [= <- <-]. split; done.
Qed.

(** [recommend] only allocates, and what it returns is new. *)
Lemma recommend_step n self P : step_ok n (recommend self P).
Proof.
  unfold recommend. apply bind_step; [apply apply_new_step|].
  apply bind_cont.
  { destruct (cuisines P) as [[|t ts]|]; auto using ret_cont, apply_new_cont. }
  apply bind_cont.
  { destruct (min_rating P) as [m|]; [destruct (Float.truthy m)|];
      auto using ret_cont, apply_new_cont. }
  apply bind_cont; apply apply_new_cont.
Qed.

End StoreFacts.

(** ** The loader *)

Section LoadFacts.
Import Pandas.
Variable w : world.

Lemma clean_cuisines_columns D :
  has_column D "Cuisines" = true -> columns (clean_cuisines w D) = columns D.
Proof. intros H. unfold clean_cuisines, setitem. cbn. by rewrite H. Qed.

Lemma cleaning_run s D r :
  cleaning w (length (objs s)) (mkStore (objs s ++ [D]) r) =
    if has_column D "Cuisines" then
      if has_column D "Aggregate rating" then
        (Ret (length (objs s)),
         mkStore (objs s ++ [clean_rating w (clean_cuisines w D)]) r)
      else (Raise (KeyError "Aggregate rating"),
            mkStore (objs s ++ [clean_cuisines w D]) r)
    else (Raise (KeyError "Cuisines"), mkStore (objs s ++ [D]) r).
Proof.
  unfold cleaning, bind, deref, lift, assign, ret, getitem. cbn [objs reports].
  rewrite list_lookup_middle by done.
  destruct (has_column D "Cuisines") eqn:Hc; [|done].
  cbn [objs reports].
  rewrite insert_app_r_alt, Nat.sub_diag by done. cbn [insert list_insert].
  rewrite list_lookup_middle by done.
  fold (clean_cuisines w D).
  assert (has_column (clean_cuisines w D) "Aggregate rating"
          = has_column D "Aggregate rating") as ->.
  { unfold has_column. by rewrite clean_cuisines_columns. }
  destruct (has_column D "Aggregate rating"); [|done].
  cbn [objs reports].
  rewrite insert_app_r_alt, Nat.sub_diag by done. reflexivity.
Qed.

(** What a call of [load_data] does, from any store. *)
Lemma load_data_run path s :
  load_data w path s =
    match reading w path with
    | inl D =>
        if has_column D "Cuisines" then
          if has_column D "Aggregate rating" then
            (Ret (length (objs s)),
             mkStore (objs s ++ [clean_rating w (clean_cuisines w D)]) (reports s))
          else
            (Ret (S (length (objs s))),
             mkStore ((objs s ++ [clean_cuisines w D]) ++ [empty_frame])
               (reports s ++ ["Data loading error: 'Aggregate rating'"]))
        else
          (Ret (S (length (objs s))),
           mkStore ((objs s ++ [D]) ++ [empty_frame])
             (reports s ++ ["Data loading error: 'Cuisines'"]))
    | inr e =>
        (Ret (length (objs s)),
         mkStore (objs s ++ [empty_frame])
           (reports s ++ [("Data loading error: " ++ exn_str e)%string]))
    end.
Proof.
  assert (forall D, (df <- new_object D ;; cleaning w df) s
                    = cleaning w (length (objs s))
                        (mkStore (objs s ++ [D]) (reports s))) as Hnew by done.
  unfold load_data, reading, try_except at 1. unfold bind at 1.
  unfold try_except, pd_read_csv.
  destruct (read_csv w path utf_8) as [D|e].
  - change (new_object D s) with (Ret (length (objs s)), mkStore (objs s ++ [D]) (reports s)).
    cbn beta iota. rewrite cleaning_run.
    destruct (has_column D "Cuisines"); [destruct (has_column D "Aggregate rating")|];
      unfold bind, st_error, new_object; cbn; rewrite ?length_app; cbn;
      rewrite ?Nat.add_1_r; reflexivity.
  - unfold lift at 1. cbn beta iota.
    destruct (is_UnicodeDecodeError e) eqn:He.
    + destruct (read_csv w path latin1) as [D|e'].
      * change (new_object D s) with (Ret (length (objs s)), mkStore (objs s ++ [D]) (reports s)).
        cbn beta iota. rewrite cleaning_run.
        destruct (has_column D "Cuisines"); [destruct (has_column D "Aggregate rating")|];
          unfold bind, st_error, new_object; cbn; rewrite ?length_app; cbn;
      rewrite ?Nat.add_1_r; reflexivity.
      * reflexivity.
    + reflexivity.
Qed.

(** [load] on values. *)
Lemma load_eq path :
  load w path =
    match reading w path with
    | inl D =>
        if has_column D "Cuisines" then
          if has_column D "Aggregate rating" then
            (Ret (clean_rating w (clean_cuisines w D)), [])
          else (Ret empty_frame, ["Data loading error: 'Aggregate rating'"])
        else (Ret empty_frame, ["Data loading error: 'Cuisines'"])
    | inr e => (Ret empty_frame, [("Data loading error: " ++ exn_str e)%string])
    end.
Proof.
  unfold load. rewrite load_data_run.
  destruct (reading w path) as [D|e]; [|done].
  destruct (has_column D "Cuisines"); [destruct (has_column D "Aggregate rating")|];
    reflexivity.
Qed.

End LoadFacts.

(** ** Cleaned records *)

Section CleanFacts.
Import Pandas.
Variable w : world.

Lemma zip_with_map_self {A B C} (f : A -> B -> C) (g : A -> B) l :
  zip_with f l (map g l) = map (fun x => f x (g x)) l.
Proof. induction l as [|x l IH]; simpl; [done|]. by rewrite IH. Qed.

Lemma cuisines_series s :
  str_lower (astype_str (str_of_float w) (fillna (CStr "Unknown") s))
  = map (cuisines_cell w) s.
Proof.
  unfold str_lower, astype_str, fillna. rewrite !map_map.
  apply map_ext. intros c. by destruct c as [[| | |]|].
Qed.

Lemma rating_series s :
  fillna (CNum (Fin 0)) (to_numeric_coerce (float_of_string w) s)
  = map (rating_cell w) s.
Proof.
  unfold to_numeric_coerce, fillna. rewrite !map_map.
  apply map_ext. intros c. destruct c as [[| | |]|t]; try done.
  cbn. by destruct (float_of_string w t) as [[| | |]|].
Qed.

Lemma clean_cuisines_rows D :
  rows (clean_cuisines w D)
  = map (fun r => <["Cuisines" := cuisines_cell w (cell_at r "Cuisines")]> r)
      (rows D).
Proof.
  unfold clean_cuisines. rewrite cuisines_series. unfold setitem. cbn [rows].
  rewrite map_map.
  apply (zip_with_map_self (fun (r : row) (v : cell) => <["Cuisines" := v]> r)).
Qed.

Lemma clean_rating_rows D :
  rows (clean_rating w D)
  = map (fun r => <["Aggregate rating" :=
                      rating_cell w (cell_at r "Aggregate rating")]> r)
      (rows D).
Proof.
  unfold clean_rating. rewrite rating_series. unfold setitem. cbn [rows].
  rewrite map_map.
  apply (zip_with_map_self
           (fun (r : row) (v : cell) => <["Aggregate rating" := v]> r)).
Qed.

Lemma cleaned_rows D :
  rows (clean_rating w (clean_cuisines w D)) = map (clean_record w) (rows D).
Proof.
  rewrite clean_rating_rows, clean_cuisines_rows, map_map.
  apply map_ext. intros r. unfold clean_record.
  do 2 f_equal. unfold cell_at. by rewrite lookup_insert_ne.
Qed.

Lemma cleaned_columns D :
  has_column D "Cuisines" = true -> has_column D "Aggregate rating" = true ->
  columns (clean_rating w (clean_cuisines w D)) = columns D.
Proof.
  intros Hc Hr. unfold clean_rating, setitem. cbn [columns].
  assert (has_column (clean_cuisines w D) "Aggregate rating" = true) as ->.
  { unfold has_column. by rewrite clean_cuisines_columns. }
  by apply clean_cuisines_columns.
Qed.

Lemma cuisines_cell_text c :
  exists s, cuisines_cell w c = CStr s /\ Text.lower s = s.
Proof.
  destruct c as [[| |q|]|t]; cbn; eexists; (split; [reflexivity|]);
    try apply lower_idem; reflexivity.
Qed.

Lemma rating_cell_number c :
  exists x, rating_cell w c = CNum x /\ x <> NaN.
Proof.
  destruct c as [[| |q|]|t]; cbn; try (eexists; split; [reflexivity|done]).
  destruct (float_of_string w t) as [[| |q|]|];
    eexists; (split; [reflexivity|done]).
Qed.

Lemma clean_record_clean r : clean_row (clean_record w r).
Proof.
  unfold clean_row, clean_record. split.
  - destruct (cuisines_cell_text (cell_at r "Cuisines")) as (s & Hs & Hl).
    exists s. rewrite lookup_insert_ne by done.
    by rewrite lookup_insert_eq, Hs.
  - destruct (rating_cell_number (cell_at r "Aggregate rating")) as (x & Hx & Hn).
    exists x. by rewrite lookup_insert_eq, Hx.
Qed.

End CleanFacts.

(** A loaded table is the empty table of a failed load, or has the two
    cleaned columns and only clean records. *)
Lemma loaded_inv T :
  loaded T ->
  T = empty_frame
  \/ (has_column T "Cuisines" = true /\ has_column T "Aggregate rating" = true
      /\ Forall clean_row (rows T)).
Proof.
  intros (w & path & Hload). rewrite load_eq in Hload.
  destruct (reading w path) as [D|e]; [|left; by injection Hload].
  destruct (has_column D "Cuisines") eqn:Hc; [|left; by injection Hload].
  destruct (has_column D "Aggregate rating") eqn:Hr; [|left; by injection Hload].
  right. cbn in Hload. injection Hload as <-.
  unfold has_column in *. rewrite (cleaned_columns w D Hc Hr).
  repeat split; [done..|].
  rewrite cleaned_rows. apply Forall_forall. intros r Hin.
  apply list_elem_of_In, in_map_iff in Hin as (r0 & <- & _).
  apply clean_record_clean.
Qed.

(** ** Inverting a successful run *)

Section Inversion.
Import Pandas.

Lemma filter_sublist {A} (f : A -> bool) l : sublist (List.filter f l) l.
Proof.
  induction l as [|x l IH]; simpl; [constructor|].
  destruct (f x); by constructor.
Qed.

Lemma cuisine_filter_Ret P D D1 :
  cuisine_filter P D = Ret D1 ->
  columns D1 = columns D /\ sublist (rows D1) (rows D).
Proof.
  unfold cuisine_filter. destruct (cuisines P) as [[|t ts]|];
    try (intros [= <-]; done).
  rewrite select_cuisines_eq by done.
  destruct (has_column D "Cuisines"); [|done].
  destruct (compile_all _); [|done..]. intros [= <-]. split; [done|].
  apply filter_sublist.
Qed.

Lemma rating_filter_Ret P D D2 :
  rating_filter P D = Ret D2 ->
  columns D2 = columns D /\ sublist (rows D2) (rows D).
Proof.
  unfold rating_filter. destruct (min_rating P) as [m|];
    [destruct (Float.truthy m)|]; try (intros [= <-]; done).
  rewrite select_rating_eq.
  destruct (has_column D "Aggregate rating"); [|done].
  destruct (forallb _ _); [|done]. intros [= <-]. split; [done|].
  apply filter_sublist.
Qed.

Lemma sort_values_desc_Ret D D3 :
  sort_values_desc D sort_keys = Ret D3 ->
  has_column D "Aggregate rating" = true /\ has_column D "Votes" = true
  /\ numeric_keys D = true
  /\ D3 = mkDataFrame (columns D) (sort_rows sort_keys (rows D)).
Proof.
  unfold sort_values_desc, sort_keys, numeric_keys. cbn [List.find].
  destruct (has_column D "Aggregate rating"); [|done].
  destruct (has_column D "Votes"); [|done]. cbn [negb].
  destruct (forallb _ (rows D)); [|done]. by intros [= <-].
Qed.

Lemma sort_values_desc_eq D :
  has_column D "Aggregate rating" = true -> has_column D "Votes" = true ->
  numeric_keys D = true ->
  sort_values_desc D sort_keys
  = Ret (mkDataFrame (columns D) (sort_rows sort_keys (rows D))).
Proof.
  intros Hr Hv Hn. unfold sort_values_desc, sort_keys. cbn [List.find].
  rewrite Hr, Hv. cbn [negb]. unfold numeric_keys, sort_keys in Hn.
  by rewrite Hn.
Qed.

(** A call that returns went through the four statements. *)
Lemma recommend_on_Ret T P R :
  recommend_on T P = Ret R ->
  exists D1 D2,
    cuisine_filter P T = Ret D1 /\ rating_filter P D1 = Ret D2
    /\ has_column D2 "Aggregate rating" = true /\ has_column D2 "Votes" = true
    /\ numeric_keys D2 = true
    /\ R = mkDataFrame (columns D2) (take 10 (sort_rows sort_keys (rows D2))).
Proof.
  rewrite recommend_on_eq. unfold pipeline.
  destruct (cuisine_filter P T) as [D1|e|] eqn:E1; [|done..]. cbn [obind].
  destruct (rating_filter P D1) as [D2|e|] eqn:E2; [|done..]. cbn [obind].
  destruct (sort_values_desc D2 sort_keys) as [D3|e|] eqn:Hs; [|done..].
  cbn [obind]. intros [= <-].
  apply sort_values_desc_Ret in Hs as (Hr & Hv & Hn & ->).
  exists D1, D2. repeat split; done || reflexivity.
Qed.

End Inversion.

(** ** Sample runs *)

Lemma zomato_load :
  load zomato_world "cleaned_zomato.csv" = (Ret zomato_table, []).
Proof. vm_compute. reflexivity. Qed.

Lemma zomato_loaded : loaded zomato_table.
Proof.
  exists zomato_world, "cleaned_zomato.csv". by rewrite zomato_load.
Defined.

Lemma empty_frame_loaded : loaded empty_frame.
Proof. exists zomato_world, "missing.csv". vm_compute. reflexivity. Defined.

(** ** What a returned table is made of *)

Section ResultFacts.
Import Pandas.

Lemma tag_occursb_spec tags r : tag_occursb tags r = true <-> tag_occurs tags r.
Proof.
  unfold tag_occursb, tag_occurs. destruct (cuisines_of r) as [x|s].
  - split; [done|]. by intros (t & s & _ & Hs & _).
  - rewrite existsb_exists. split.
    + intros (t & Hin & Hc). exists t, s. split; [by apply list_elem_of_In|].
      split; [done|]. by apply contains_spec.
    + intros (t & s' & Hin & [= <-] & Hc). exists t.
      split; [by apply list_elem_of_In|]. by apply contains_spec.
Qed.

Lemma recommend_on_sub T P R :
  recommend_on T P = Ret R -> columns R = columns T /\ rows R ⊆+ rows T.
Proof.
  intros H. apply recommend_on_Ret in H as (D1 & D2 & H1 & H2 & _ & _ & _ & ->).
  apply cuisine_filter_Ret in H1 as [Hc1 Hs1].
  apply rating_filter_Ret in H2 as [Hc2 Hs2]. cbn. split; [congruence|].
  transitivity (sort_rows sort_keys (rows D2)).
  { apply sublist_submseteq, sublist_take. }
  rewrite sort_rows_perm. apply sublist_submseteq. by transitivity (rows D1).
Qed.

Lemma plain_lower_all tags :
  Forall (fun t => Re.plain t = true) tags ->
  Forall (fun t => Re.plain t = true) (map Text.lower tags).
Proof.
  induction 1 as [|t ts Ht _ IH]; cbn; constructor; [|done].
  by rewrite plain_lower.
Qed.

(** On plain tags the compiled pattern decides [tag_occurs]. *)
Lemma select_cuisines_plain tags D :
  tags <> [] -> Forall (fun t => Re.plain t = true) tags ->
  has_column D "Cuisines" = true ->
  select_cuisines tags D
  = Ret (mkDataFrame (columns D) (List.filter (tag_occursb tags) (rows D))).
Proof.
  intros Hne Hplain Hc. rewrite select_cuisines_eq, Hc by done.
  rewrite (compile_all_plain _ (plain_lower_all _ Hplain)).
  do 2 f_equal. apply filter_ext. intros r.
  unfold cuisine_keep, tag_occursb. destruct (cuisines_of r); [done|].
  apply search_lits.
Qed.

End ResultFacts.

(* ===================================================================== *)
(** * The claims *)

(** ** C1: the cuisine filter *)

(** C1 at a failing input.  The claim asks for a substring match for any
    tag; the code joins the tags into a regular expression without
    escaping them, so a tag that holds a character with a meaning there
    is not matched as text.  On the loaded sample table the tag "." keeps
    every record, the five of them, although no record's cuisines contain
    a full stop. *)
Lemma cuisine_tag_dot_is_a_wildcard :
  loaded zomato_table
  /\ cuisine_filter (mkPreferences (Some ["."]) None) zomato_table
     = Ret zomato_table
  /\ forall r, r ∈ rows zomato_table -> ~ tag_occurs ["."] r.
Proof.
  split; [apply zomato_loaded|]. split; [vm_compute; reflexivity|].
  intros r Hr Hocc. apply tag_occursb_spec in Hocc.
  apply list_elem_of_In in Hr. cbn [rows zomato_table In] in Hr.
  destruct Hr as [<-|[<-|[<-|[<-|[<-|[]]]]]]; vm_compute in Hocc; discriminate.
Qed.

(** Where the cuisine filter does what C1 states, namely on tags free of
    regular-expression metacharacters: on a loaded table that holds
    records, a non-empty collection of such tags keeps exactly the records
    whose cuisines contain one of the tags as a case-insensitive
    substring, in their order, and every record that [recommend] returns
    is one of them; with no tags, or the key absent, the filter returns
    the table as it is. *)
Theorem cuisine_filter_keeps_matching_records (T : DataFrame) (P : Preferences) :
  loaded T ->
  (forall tags, cuisines P = Some tags -> tags <> [] ->
     Forall (fun t => Re.plain t = true) tags ->
     T = empty_frame
     \/ exists T',
          cuisine_filter P T = Ret T'
          /\ columns T' = columns T
          /\ rows T' = List.filter (tag_occursb tags) (rows T)
          /\ (forall r, r ∈ rows T' <-> r ∈ rows T /\ tag_occurs tags r)
          /\ (forall R, recommend_on T P = Ret R ->
                exists D2, rating_filter P T' = Ret D2
                  /\ rows R = take 10 (Pandas.sort_rows sort_keys (rows D2))
                  /\ forall r, r ∈ rows R -> r ∈ rows T /\ tag_occurs tags r))
  /\ (cuisines P = None \/ cuisines P = Some [] -> cuisine_filter P T = Ret T).
Proof.
  intros Hl. split.
  - intros tags Htags Hne Hplain.
    destruct (loaded_inv T Hl) as [->|(Hc & _ & _)]; [by left|right].
    assert (cuisine_filter P T
            = Ret (mkDataFrame (columns T) (List.filter (tag_occursb tags) (rows T))))
      as Hf.
    { unfold cuisine_filter. rewrite Htags. destruct tags as [|t ts]; [done|].
      by apply select_cuisines_plain. }
    assert (forall r, r ∈ List.filter (tag_occursb tags) (rows T)
                      <-> r ∈ rows T /\ tag_occurs tags r) as Hiff.
    { intros r. rewrite !list_elem_of_In, filter_In, tag_occursb_spec. done. }
    eexists. split; [exact Hf|]. cbn [columns rows].
    split; [done|]. split; [done|]. split; [done|].
    intros R HR. apply recommend_on_Ret in HR as (D1 & D2 & H1 & H2 & _ & _ & _ & ->).
    rewrite Hf in H1. injection H1 as <-. exists D2. split; [done|].
    cbn [rows]. split; [done|]. intros r Hr. apply Hiff.
    apply rating_filter_Ret in H2 as [_ Hs2].
    eapply elem_of_sublist; [|exact Hs2].
    rewrite <- (sort_rows_perm sort_keys).
    eapply elem_of_sublist; [exact Hr | apply sublist_take].
  - unfold cuisine_filter. by intros [->| ->].
Qed.

Lemma cuisine_filter_keeps_matching_records_witness :
  exists T',
    cuisine_filter (mkPreferences (Some ["Indian"]) None) zomato_table = Ret T'
    /\ rows T' = [ restaurant (CStr "Darbar") (CStr "north indian, mughlai")
                     (CNum (Fin (45 # 10))) (CNum (Fin 5)) ].
Proof.
  destruct (cuisine_filter_keeps_matching_records zomato_table
              (mkPreferences (Some ["Indian"]) None) zomato_loaded) as [H _].
  destruct (H ["Indian"] eq_refl) as [He|(T' & Hf & _ & Hrows & _)].
  - discriminate.
  - repeat constructor.
  - discriminate He.
  - exists T'. split; [exact Hf|]. rewrite Hrows. vm_compute. reflexivity.
Defined.

(** ** C2: the rating filter *)

Section RatingFacts.
Import Pandas.

Lemma select_rating_Ret m D D2 :
  select_rating m D = Ret D2 ->
  D2 = mkDataFrame (columns D) (List.filter (rating_keep m) (rows D)).
Proof.
  rewrite select_rating_eq. destruct (has_column D "Aggregate rating"); [|done].
  destruct (forallb _ _); [|done]. by intros [= <-].
Qed.

Lemma clean_row_rating r :
  clean_row r ->
  exists x, cell_at r "Aggregate rating" = CNum x /\ x <> NaN /\ rating_of r = x.
Proof.
  intros [_ (x & Hx & Hn)]. exists x.
  unfold rating_of, cell_at. rewrite Hx. done.
Qed.

Lemma clean_rows_numeric rs :
  Forall clean_row rs ->
  forallb (fun r => is_num (cell_at r "Aggregate rating")) rs = true.
Proof.
  induction 1 as [|r rs Hr _ IH]; cbn; [done|].
  destruct (clean_row_rating r Hr) as (x & -> & _). done.
Qed.

Lemma ge_iff_not_lt x m :
  x <> NaN -> m <> NaN -> Float.ge x m = true <-> Float.lt x m = false.
Proof.
  unfold Float.lt.
  destruct x as [| |a|], m as [| |b|]; intros Hx Hm; try done.
  cbn. destruct (Qle_bool b a); done.
Qed.

End RatingFacts.

(** C2, as stated, fails when [min_rating] is provided with the value
    zero: the guard takes zero for an absent key, so that the record of
    the loaded sample table whose rating is -1, below the bound, is kept
    by the filter and returned by [recommend]. *)
Lemma min_rating_zero_excludes_nothing :
  loaded zomato_table
  /\ rating_filter (mkPreferences None (Some (Fin 0))) zomato_table
     = Ret zomato_table
  /\ exists r R,
       r ∈ rows zomato_table
       /\ Float.lt (rating_of r) (Fin 0) = true
       /\ recommend_on zomato_table (mkPreferences None (Some (Fin 0))) = Ret R
       /\ r ∈ rows R.
Proof.
  split; [apply zomato_loaded|]. split; [reflexivity|].
  exists (restaurant (CStr "Cellar") (CStr "bar food") (CNum (Fin (-1)))
            (CNum (Fin 2))).
  eexists. split; [|split; [|split]].
  - apply list_elem_of_In. cbn. tauto.
  - vm_compute. reflexivity.
  - vm_compute. reflexivity.
  - apply list_elem_of_In. cbn. tauto.
Qed.

(** C2 (amended to a bound that is not zero): on the records [D] of a
    loaded table, a [min_rating] that is provided and is not zero keeps
    exactly the records with [rating >= min_rating], in their order, which
    for a bound that is a number are exactly those not below it, and
    [recommend] returns only such records; a bound of zero and an absent
    key apply no restriction. *)
Theorem rating_filter_keeps_rated_records (T D : DataFrame) (P : Preferences) :
  loaded T -> columns D = columns T -> sublist (rows D) (rows T) ->
  (forall m, min_rating P = Some m -> Float.truthy m = true ->
     T = empty_frame
     \/ exists D',
          rating_filter P D = Ret D'
          /\ columns D' = columns D
          /\ rows D' = List.filter (rating_keep m) (rows D)
          /\ (forall r, r ∈ rows D' <->
                        r ∈ rows D /\ Float.ge (rating_of r) m = true)
          /\ (m <> NaN -> forall r, r ∈ rows D ->
                (r ∈ rows D' <-> Float.lt (rating_of r) m = false)))
  /\ (forall m R, min_rating P = Some m -> Float.truthy m = true ->
        recommend_on T P = Ret R ->
        forall r, r ∈ rows R -> Float.ge (rating_of r) m = true)
  /\ (forall m, min_rating P = Some m -> Float.truthy m = false ->
        rating_filter P D = Ret D)
  /\ (min_rating P = None -> rating_filter P D = Ret D).
Proof.
  intros Hl Hcols Hsub. split; [|split; [|split]].
  - intros m Hm Ht.
    destruct (loaded_inv T Hl) as [->|(_ & Hc & Hclean)]; [by left|right].
    assert (Forall clean_row (rows D)) as HcleanD.
    { apply Forall_forall. intros r Hr. eapply Forall_forall in Hclean; [done|].
      by eapply elem_of_sublist. }
    assert (rating_filter P D
            = Ret (mkDataFrame (columns D) (List.filter (rating_keep m) (rows D))))
      as Hf.
    { unfold rating_filter. rewrite Hm, Ht, select_rating_eq.
      unfold has_column in *. rewrite Hcols, Hc.
      by rewrite (clean_rows_numeric _ HcleanD). }
    assert (forall r, r ∈ List.filter (rating_keep m) (rows D)
                      <-> r ∈ rows D /\ Float.ge (rating_of r) m = true) as Hiff.
    { intros r. by rewrite !list_elem_of_In, filter_In. }
    eexists. split; [exact Hf|]. cbn [columns rows].
    split; [done|]. split; [done|]. split; [done|].
    intros Hnan r Hr. rewrite Hiff.
    eapply Forall_forall in HcleanD; [|exact Hr].
    destruct (clean_row_rating r HcleanD) as (x & _ & Hx & ->).
    rewrite <- (ge_iff_not_lt x m Hx Hnan). tauto.
  - intros m R Hm Ht HR r Hr.
    apply recommend_on_Ret in HR as (D1 & D2 & _ & H2 & _ & _ & _ & ->).
    unfold rating_filter in H2. rewrite Hm, Ht in H2.
    apply select_rating_Ret in H2 as ->. cbn [rows] in Hr.
    assert (r ∈ List.filter (rating_keep m) (rows D1)) as Hin.
    { rewrite <- (sort_rows_perm sort_keys).
      eapply elem_of_sublist; [exact Hr | apply sublist_take]. }
    apply list_elem_of_In, filter_In in Hin as [_ Hk]. exact Hk.
  - intros m Hm Ht. unfold rating_filter. by rewrite Hm, Ht.
  - intros Hm. unfold rating_filter. by rewrite Hm.
Qed.

Lemma rating_filter_keeps_rated_records_witness :
  exists D',
    rating_filter (mkPreferences None (Some (Fin 4))) zomato_table = Ret D'
    /\ rows D' = [ restaurant (CStr "Roma") (CStr "italian, pizza")
                     (CNum (Fin (42 # 10))) (CNum (Fin 100));
                   restaurant (CStr "Darbar") (CStr "north indian, mughlai")
                     (CNum (Fin (45 # 10))) (CNum (Fin 5)) ].
Proof.
  destruct (rating_filter_keeps_rated_records zomato_table zomato_table
              (mkPreferences None (Some (Fin 4))) zomato_loaded eq_refl)
    as [H _].
  - reflexivity.
  - destruct (H (Fin 4) eq_refl eq_refl) as [He|(D' & Hf & _ & Hrows & _)].
    + discriminate He.
    + exists D'. split; [exact Hf|]. rewrite Hrows. vm_compute. reflexivity.
Defined.

(** ** C3: the order of the result *)

(** Whatever the table, the result is sorted on the two keys, each
    descending with missing values last. *)
Lemma recommend_on_sorted T P R :
  recommend_on T P = Ret R -> Sorted (not_after sort_keys) (rows R).
Proof.
  intros H. apply recommend_on_Ret in H as (D1 & D2 & _ & _ & _ & _ & _ & ->).
  cbn [rows]. apply Sorted_take, sort_rows_sorted.
Qed.

Ltac present_keys :=
  repeat (constructor;
          [eexists _, _;
           (split; [vm_compute; reflexivity|]); (split; [discriminate|]);
           (split; [vm_compute; reflexivity | discriminate]) |]);
  try constructor.

Lemma zomato_keys_present : keys_present zomato_table.
Proof. unfold keys_present. cbn [rows zomato_table]. present_keys. Defined.

(** C3, as stated, fails on a table in which a vote count is missing: the
    sort puts a missing key last, and no comparison with a missing value
    holds.  The loaded table [gaps_table] comes back in its own order, and
    its two records, of equal rating, are not in the stated order. *)
Lemma missing_votes_are_ranked_last :
  loaded gaps_table
  /\ recommend_on gaps_table (mkPreferences None None) = Ret gaps_table
  /\ exists a b,
       rows gaps_table !! 0%nat = Some a /\ rows gaps_table !! 1%nat = Some b
       /\ ~ in_order a b.
Proof.
  split; [exists gaps_world, "gaps.csv"; vm_compute; reflexivity|].
  split; [vm_compute; reflexivity|].
  eexists _, _. split; [reflexivity|]. split; [reflexivity|].
  unfold in_order. vm_compute. intros [H|[_ H]]; discriminate.
Qed.

(** C3 (amended to tables whose ratings and vote counts are all present):
    in the table that [recommend] returns, every record and its successor
    satisfy a.rating > b.rating, or a.rating == b.rating and
    a.votes >= b.votes. *)
Theorem recommend_result_is_ranked (T : DataFrame) (P : Preferences)
    (R : DataFrame) :
  keys_present T ->
  recommend_on T P = Ret R ->
  forall i a b, rows R !! i = Some a -> rows R !! S i = Some b -> in_order a b.
Proof.
  intros Hkeys HR i a b Ha Hb.
  pose proof (recommend_on_sorted T P R HR) as Hsorted.
  pose proof (Sorted_adjacent _ _ _ _ _ Hsorted Ha Hb) as Hab.
  destruct (recommend_on_sub T P R HR) as [_ Hsub].
  assert (forall r, r ∈ rows R -> exists x v,
            cell_at r "Aggregate rating" = CNum x /\ x <> NaN
            /\ cell_at r "Votes" = CNum v /\ v <> NaN) as Hin.
  { intros r Hr. unfold keys_present in Hkeys.
    eapply Forall_forall in Hkeys; [exact Hkeys|].
    eapply elem_of_submseteq; [exact Hr | exact Hsub]. }
  destruct (Hin a) as (xa & va & Ha1 & Ha2 & Ha3 & Ha4).
  { by eapply list_elem_of_lookup_2. }
  destruct (Hin b) as (xb & vb & Hb1 & Hb2 & Hb3 & Hb4).
  { by eapply list_elem_of_lookup_2. }
  by eapply not_after_in_order.
Qed.

Lemma recommend_result_is_ranked_witness :
  in_order
    (restaurant (CStr "Darbar") (CStr "north indian, mughlai")
       (CNum (Fin (45 # 10))) (CNum (Fin 5)))
    (restaurant (CStr "Roma") (CStr "italian, pizza")
       (CNum (Fin (42 # 10))) (CNum (Fin 100))).
Proof.
  apply (recommend_result_is_ranked zomato_table (mkPreferences None None)
           zomato_ranked zomato_keys_present) with (i := 0%nat).
  - vm_compute. reflexivity.
  - reflexivity.
  - reflexivity.
Defined.

(** ** C4: the result against the table and against narrower preferences *)

Section Monotone.
Import Pandas.

Lemma filter_sublist_mono {A} (f : A -> bool) l1 l2 :
  sublist l1 l2 -> sublist (List.filter f l1) (List.filter f l2).
Proof.
  induction 1 as [|x l1 l2 _ IH|x l1 l2 _ IH]; cbn; [constructor| |].
  - destruct (f x); [by constructor | done].
  - destruct (f x); [by constructor | done].
Qed.

Lemma filter_impl_sublist {A} (f g : A -> bool) l :
  (forall x, f x = true -> g x = true) ->
  sublist (List.filter f l) (List.filter g l).
Proof.
  intros Himp. induction l as [|x l IH]; cbn; [constructor|].
  destruct (f x) eqn:Ef.
  - rewrite (Himp x Ef). by constructor.
  - destruct (g x); [by constructor | done].
Qed.

Lemma forallb_sublist {A} (f : A -> bool) l1 l2 :
  sublist l1 l2 -> forallb f l2 = true -> forallb f l1 = true.
Proof.
  induction 1 as [|x l1 l2 _ IH|x l1 l2 _ IH]; cbn; [done| |].
  - rewrite !andb_true_iff. intros [? ?]. auto.
  - rewrite andb_true_iff. intros [? ?]. auto.
Qed.

Lemma numeric_keys_rating D :
  numeric_keys D = true ->
  forallb (fun r => is_num (cell_at r "Aggregate rating")) (rows D) = true.
Proof.
  unfold numeric_keys, sort_keys. rewrite !forallb_forall.
  intros H r Hr. specialize (H r Hr). cbn in H.
  by apply andb_true_iff in H as [? _].
Qed.

(** The four statements, when each succeeds, make the call return. *)
Lemma recommend_on_intro T P D1 D2 :
  cuisine_filter P T = Ret D1 -> rating_filter P D1 = Ret D2 ->
  has_column D2 "Aggregate rating" = true -> has_column D2 "Votes" = true ->
  numeric_keys D2 = true ->
  recommend_on T P
  = Ret (mkDataFrame (columns D2) (take 10 (sort_rows sort_keys (rows D2)))).
Proof.
  intros H1 H2 Hr Hv Hn. rewrite recommend_on_eq. unfold pipeline.
  rewrite H1. cbn [obind]. rewrite H2. cbn [obind].
  by rewrite sort_values_desc_eq.
Qed.

Lemma ranked_length n l1 l2 :
  sublist l1 l2 ->
  length (take n (sort_rows sort_keys l1)) <= length (take n (sort_rows sort_keys l2)).
Proof.
  intros Hs. rewrite !length_take, !sort_rows_perm.
  apply sublist_length in Hs. lia.
Qed.

(** The rating filter on fewer records of the same columns returns, with
    fewer records. *)
Lemma rating_filter_sublist P D1 D2 D1' :
  rating_filter P D1 = Ret D2 ->
  columns D1' = columns D1 -> sublist (rows D1') (rows D1) ->
  exists D2', rating_filter P D1' = Ret D2'
    /\ columns D2' = columns D2 /\ sublist (rows D2') (rows D2).
Proof.
  intros H2 Hc Hs. unfold rating_filter in *.
  destruct (min_rating P) as [m|]; [destruct (Float.truthy m)|];
    try (injection H2 as <-; by exists D1').
  rewrite select_rating_eq in *. unfold has_column in *. rewrite Hc.
  destruct (bool_decide _); [|done].
  destruct (forallb _ (rows D1)) eqn:Hnum; [|done]. injection H2 as <-.
  rewrite (forallb_sublist _ _ _ Hs Hnum).
  eexists. split; [reflexivity|]. cbn. split; [done|].
  by apply filter_sublist_mono.
Qed.

(** Sorting and cutting fewer records of the same columns returns, with
    no more records. *)
Lemma recommend_on_narrower T P P' D1 D2 D1' :
  cuisine_filter P T = Ret D1 -> rating_filter P D1 = Ret D2 ->
  has_column D2 "Aggregate rating" = true -> has_column D2 "Votes" = true ->
  numeric_keys D2 = true ->
  cuisine_filter P' T = Ret D1' -> min_rating P' = min_rating P ->
  sublist (rows D1') (rows D1) ->
  exists R', recommend_on T P' = Ret R'
    /\ length (rows R')
       <= length (take 10 (sort_rows sort_keys (rows D2))).
Proof.
  intros H1 H2 Hr Hv Hn H1' Hm Hs.
  assert (columns D1' = columns D1) as Hc.
  { apply cuisine_filter_Ret in H1 as [-> _].
    by apply cuisine_filter_Ret in H1' as [-> _]. }
  destruct (rating_filter_sublist P D1 D2 D1' H2 Hc Hs) as (D2' & H2' & Hc2 & Hs2).
  assert (rating_filter P' D1' = Ret D2') as H2''.
  { unfold rating_filter in *. by rewrite Hm. }
  eexists. split.
  - apply (recommend_on_intro T P' D1' D2' H1' H2'').
    + unfold has_column in *. by rewrite Hc2.
    + unfold has_column in *. by rewrite Hc2.
    + unfold numeric_keys in *. by eapply forallb_sublist.
  - cbn [rows]. by apply ranked_length.
Qed.

End Monotone.

(** C4, as stated, fails for the subset that is empty: with no tags the
    cuisine filter is skipped, not applied with zero matches.  On the
    loaded sample table the tags [italian] give one record and their empty
    subset gives all five. *)
Lemma narrowing_to_no_tags_widens :
  ([] : list string) ⊆ ["italian"]
  /\ recommend_on zomato_table (mkPreferences (Some ["italian"]) None)
     = Ret (mkDataFrame zomato_columns
              [ restaurant (CStr "Roma") (CStr "italian, pizza")
                  (CNum (Fin (42 # 10))) (CNum (Fin 100)) ])
  /\ recommend_on zomato_table (mkPreferences (Some []) None)
     = Ret zomato_ranked
  /\ length (rows zomato_ranked) = 5%nat.
Proof.
  split; [apply list_subseteq_nil|].
  split; [vm_compute; reflexivity|].
  split; [vm_compute; reflexivity | reflexivity].
Qed.

(** C4 (amended to a non-empty subset of the tags): the table that
    [recommend] returns has the columns of [T] and only records of [T],
    each as often as in [T] at most; the same call with a [min_rating]
    added returns no more records; and so does the same call with the
    cuisines replaced by a non-empty subset of them. *)
Theorem recommend_filters_are_monotone (T : DataFrame) (P : Preferences)
    (R : DataFrame) :
  recommend_on T P = Ret R ->
  (columns R = columns T /\ rows R ⊆+ rows T
   /\ forall r, r ∈ rows R -> r ∈ rows T)
  /\ (min_rating P = None -> forall m,
        exists R', recommend_on T (mkPreferences (cuisines P) (Some m)) = Ret R'
                   /\ length (rows R') <= length (rows R))
  /\ (forall tags tags', cuisines P = Some tags -> tags' <> [] -> tags' ⊆ tags ->
        exists R', recommend_on T (mkPreferences (Some tags') (min_rating P)) = Ret R'
                   /\ length (rows R') <= length (rows R)).
Proof.
  intros HR. split; [|split].
  - destruct (recommend_on_sub T P R HR) as [Hc Hs]. split; [done|]. split; [done|].
    intros r Hr. by eapply elem_of_submseteq.
  - intros Hnone m.
    apply recommend_on_Ret in HR as (D1 & D2 & H1 & H2 & Hr & Hv & Hn & ->).
    assert (D2 = D1) as ->.
    { unfold rating_filter in H2. rewrite Hnone in H2. by injection H2. }
    set (P' := mkPreferences (cuisines P) (Some m)).
    assert (cuisine_filter P' T = Ret D1) as H1' by exact H1.
    assert (exists D2', rating_filter P' D1 = Ret D2'
              /\ columns D2' = columns D1 /\ sublist (rows D2') (rows D1))
      as (D2' & H2' & Hc' & Hs').
    { unfold rating_filter. cbn [min_rating P'].
      destruct (Float.truthy m); [|by exists D1].
      rewrite select_rating_eq, Hr, (numeric_keys_rating D1 Hn).
      eexists. split; [reflexivity|]. cbn. split; [done|].
      apply filter_sublist. }
    eexists. split.
    + apply (recommend_on_intro T P' D1 D2' H1' H2').
      * unfold has_column in *. by rewrite Hc'.
      * unfold has_column in *. by rewrite Hc'.
      * unfold numeric_keys in *. by eapply forallb_sublist.
    + cbn [rows]. by apply ranked_length.
  - intros tags tags' Htags Hne Hsub.
    apply recommend_on_Ret in HR as (D1 & D2 & H1 & H2 & Hr & Hv & Hn & ->).
    set (P' := mkPreferences (Some tags') (min_rating P)).
    assert (tags <> []) as Hne'.
    { intros ->. destruct tags' as [|t ts]; [done|].
      specialize (Hsub t). rewrite elem_of_nil in Hsub. apply Hsub. by left. }
    unfold cuisine_filter in H1. rewrite Htags in H1.
    destruct tags as [|t0 ts0]; [done|].
    rewrite select_cuisines_eq in H1 by done.
    destruct (has_column T "Cuisines") eqn:Hcu; [|done].
    destruct (compile_all (map Text.lower (t0 :: ts0))) as [alts| |] eqn:Hcomp;
      [|done..].
    injection H1 as <-.
    destruct (compile_all_subset _ (map Text.lower tags') _ Hcomp)
      as (alts' & Hcomp' & Halts).
    { intros x Hx. apply list_elem_of_In, in_map_iff in Hx as (t & <- & Ht).
      apply list_elem_of_In, in_map, list_elem_of_In, Hsub, list_elem_of_In, Ht. }
    assert (cuisine_filter P' T
            = Ret (mkDataFrame (columns T)
                     (List.filter (cuisine_keep alts') (rows T)))) as H1'.
    { unfold cuisine_filter. cbn [cuisines P']. destruct tags' as [|t ts]; [done|].
      rewrite select_cuisines_eq, Hcu, Hcomp' by done. reflexivity. }
    eapply (recommend_on_narrower T P P'); try done.
    + unfold cuisine_filter. rewrite Htags.
      rewrite select_cuisines_eq, Hcu, Hcomp by done. reflexivity.
    + cbn [rows]. apply filter_impl_sublist. intros r.
      unfold cuisine_keep. destruct (cuisines_of r); [done|].
      by apply search_mono.
Qed.

Lemma recommend_filters_are_monotone_witness :
  exists R',
    recommend_on zomato_table (mkPreferences (Some ["indian"]) None) = Ret R'
    /\ length (rows R') <= 2.
Proof.
  destruct (recommend_filters_are_monotone zomato_table
              (mkPreferences (Some ["indian"; "pizza"]) None)
              (mkDataFrame zomato_columns
                 [ restaurant (CStr "Darbar") (CStr "north indian, mughlai")
                     (CNum (Fin (45 # 10))) (CNum (Fin 5));
                   restaurant (CStr "Roma") (CStr "italian, pizza")
                     (CNum (Fin (42 # 10))) (CNum (Fin 100)) ]))
    as (_ & _ & H).
  - vm_compute. reflexivity.
  - apply (H ["indian"; "pizza"] ["indian"] eq_refl).
    + discriminate.
    + intros x Hx. apply list_elem_of_singleton in Hx as ->. left.
Defined.

(** ** C5: the two cleaned columns *)

(** C5, as stated, fails on a source rating that is an infinity: the
    loader replaces what is missing or unparseable and nothing else, so
    the rating [inf] of the source stays, and it is a number that is not
    finite. *)
Lemma loaded_rating_can_be_infinite :
  fst (load infinity_world "cleaned_zomato.csv")
  = Ret (mkDataFrame zomato_columns
           [ restaurant (CStr "Olymp") (CStr "greek") (CNum PosInf)
               (CNum (Fin 1)) ])
  /\ rating_of (restaurant (CStr "Olymp") (CStr "greek") (CNum PosInf)
                  (CNum (Fin 1))) = PosInf
  /\ Float.isfinite PosInf = false.
Proof. split; [vm_compute; reflexivity|]. split; reflexivity. Qed.

(** C5 (amended: the rating is a number that is not missing, and it is
    finite unless the source value is an infinity): after [load], every
    record has a [Cuisines] field that is lowercase text and an
    [Aggregate rating] field that is a number other than NaN; a missing
    source cuisine becomes "unknown" and any other becomes its lowercase
    form; a missing source rating, a text that does not parse and a text
    that parses to NaN become 0.0; every other source rating is kept: a
    number as it is, a text as the number it parses to; the loaded rating
    is finite unless the source cell is an infinite number or a text that
    parses to one; the other fields are those of the source. *)
Theorem loaded_records_are_normalised (w : world) (path : string)
    (T : DataFrame) :
  fst (load w path) = Ret T ->
  Forall clean_row (rows T)
  /\ forall S, reading w path = inl S ->
       forall i r, rows T !! i = Some r ->
         exists r0, rows S !! i = Some r0
           /\ (cell_at r0 "Cuisines" = CNum NaN ->
               r !! "Cuisines" = Some (CStr "unknown"))
           /\ (forall t, cell_at r0 "Cuisines" = CStr t ->
               r !! "Cuisines" = Some (CStr (Text.lower t)))
           /\ (forall x, cell_at r0 "Cuisines" = CNum x -> x <> NaN ->
               r !! "Cuisines"
               = Some (CStr (Text.lower (str_of_float w x))))
           /\ (cell_at r0 "Aggregate rating" = CNum NaN ->
               r !! "Aggregate rating" = Some (CNum (Fin 0)))
           /\ (forall t, cell_at r0 "Aggregate rating" = CStr t ->
               float_of_string w t = None ->
               r !! "Aggregate rating" = Some (CNum (Fin 0)))
           /\ (forall t, cell_at r0 "Aggregate rating" = CStr t ->
               float_of_string w t = Some NaN ->
               r !! "Aggregate rating" = Some (CNum (Fin 0)))
           /\ (forall t x, cell_at r0 "Aggregate rating" = CStr t ->
               float_of_string w t = Some x -> x <> NaN ->
               r !! "Aggregate rating" = Some (CNum x))
           /\ (forall x, cell_at r0 "Aggregate rating" = CNum x ->
               x <> NaN ->
               r !! "Aggregate rating" = Some (CNum x))
           /\ ((exists q, r !! "Aggregate rating" = Some (CNum (Fin q)))
               \/ (exists x, (x = PosInf \/ x = NegInf)
                    /\ r !! "Aggregate rating" = Some (CNum x)
                    /\ (cell_at r0 "Aggregate rating" = CNum x
                        \/ exists t, cell_at r0 "Aggregate rating" = CStr t
                             /\ float_of_string w t = Some x)))
           /\ (forall c, c <> "Cuisines" -> c <> "Aggregate rating" ->
               r !! c = r0 !! c).
Proof.
  intros Hload. split.
  - assert (loaded T) as Hl by (by exists w, path).
    destruct (loaded_inv T Hl) as [->|(_ & _ & H)]; [constructor | done].
  - intros S HS i r Hr. rewrite load_eq, HS in Hload.
    destruct (has_column S "Cuisines"); [|injection Hload as <-; done].
    destruct (has_column S "Aggregate rating"); [|injection Hload as <-; done].
    cbn in Hload. injection Hload as <-. rewrite cleaned_rows in Hr.
    apply list_lookup_fmap_Some in Hr as (r0 & -> & Hr0).
    exists r0. split; [done|]. unfold clean_record.
    repeat match goal with |- _ /\ _ => split end.
    + intros ->. by rewrite lookup_insert_ne, lookup_insert_eq.
    + intros t ->. by rewrite lookup_insert_ne, lookup_insert_eq.
    + intros x -> Hx. rewrite lookup_insert_ne, lookup_insert_eq by done.
      by destruct x.
    + intros ->. by rewrite lookup_insert_eq.
    + intros t -> Hp. rewrite lookup_insert_eq. cbn. by rewrite Hp.
    + intros t -> Hp. rewrite lookup_insert_eq. cbn. by rewrite Hp.
    + intros t x -> Hp Hx. rewrite lookup_insert_eq. cbn. rewrite Hp.
      by destruct x.
    + intros x -> Hx. rewrite lookup_insert_eq. by destruct x.
    + rewrite lookup_insert_eq.
      destruct (cell_at r0 "Aggregate rating") as [x|t] eqn:Hc; cbn.
      * destruct x as [| |q|]; [left; by exists 0%Q| |left; by exists q|].
        -- right. exists NegInf. split; [by right|]. split; [done|by left].
        -- right. exists PosInf. split; [by left|]. split; [done|by left].
      * destruct (float_of_string w t) as [x|] eqn:Hp;
          [|left; by exists 0%Q].
        destruct x as [| |q|]; [left; by exists 0%Q| |left; by exists q|].
        -- right. exists NegInf. split; [by right|]. split; [done|].
           right. by exists t.
        -- right. exists PosInf. split; [by left|]. split; [done|].
           right. by exists t.
    + intros c Hc1 Hc2. by rewrite !lookup_insert_ne.
Qed.

Lemma loaded_records_are_normalised_witness :
  Forall clean_row (rows zomato_table)
  /\ rows zomato_table !! 2%nat
     = Some (restaurant (CStr "Corner") (CStr "unknown") (CNum (Fin 0))
               (CNum (Fin 3))).
Proof.
  split; [|reflexivity].
  apply (loaded_records_are_normalised zomato_world "cleaned_zomato.csv"
           zomato_table).
  vm_compute. reflexivity.
Defined.

(** ** C6: the loader never raises *)

(** C6, as stated, fails for one of the columns the input is expected to
    have: a file without the [Restaurant Name] column is no load failure.
    [load_data] reads the columns [Cuisines] and [Aggregate rating] only,
    so the file loads to a table with a record and nothing is reported. *)
Lemma file_without_names_loads :
  has_column nameless_source "Restaurant Name" = false
  /\ load nameless_world "cleaned_zomato.csv" = (Ret nameless_table, [])
  /\ has_column nameless_table "Restaurant Name" = false
  /\ rows nameless_table <> []
  /\ nameless_table <> empty_frame.
Proof.
  split; [reflexivity|]. split; [vm_compute; reflexivity|].
  split; [reflexivity|]. split; discriminate.
Qed.

(** C6 (amended: the columns whose absence is a load failure are the two
    that the loader reads, [Cuisines] and [Aggregate rating]): from any
    store [load_data] returns a reference to a table and keeps the
    objects that were there; a reading that succeeds, as UTF-8 or as
    Latin-1 after a decode failure, is cleaned when it has the two
    columns, whatever other columns it has or lacks, and is otherwise
    answered with the empty table and one reported error; a reading that
    fails for another reason, or fails again as Latin-1, is answered with
    the empty table and the error reported. *)
Theorem load_never_raises (w : world) (path : string) (s : store) :
  (exists l s',
     load_data w path s = (Ret l, s')
     /\ is_Some (objs s' !! l)
     /\ forall l0 D, objs s !! l0 = Some D -> objs s' !! l0 = Some D)
  /\ (exists T, fst (load w path) = Ret T)
  /\ (forall D,
        read_csv w path utf_8 = inl D
        \/ (exists msg, read_csv w path utf_8 = inr (UnicodeDecodeError msg))
           /\ read_csv w path latin1 = inl D ->
        (has_column D "Cuisines" = true ->
         has_column D "Aggregate rating" = true ->
         load w path = (Ret (clean_rating w (clean_cuisines w D)), []))
        /\ (has_column D "Cuisines" = false ->
            load w path = (Ret empty_frame, ["Data loading error: 'Cuisines'"]))
        /\ (has_column D "Cuisines" = true ->
            has_column D "Aggregate rating" = false ->
            load w path
            = (Ret empty_frame, ["Data loading error: 'Aggregate rating'"])))
  /\ (forall e,
        read_csv w path utf_8 = inr e /\ is_UnicodeDecodeError e = false
        \/ (exists msg, read_csv w path utf_8 = inr (UnicodeDecodeError msg))
           /\ read_csv w path latin1 = inr e ->
        load w path
        = (Ret empty_frame, [("Data loading error: " ++ exn_str e)%string])).
Proof.
  split; [|split; [|split]].
  - rewrite load_data_run.
    assert (forall (l : list DataFrame) x l0 (D : DataFrame),
              l !! l0 = Some D -> (l ++ x) !! l0 = Some D) as Hkeep.
    { intros l x l0 D H. rewrite lookup_app_l; [done|]. by eapply lookup_lt_Some. }
    destruct (reading w path) as [D|e];
      [destruct (has_column D "Cuisines");
       [destruct (has_column D "Aggregate rating")|]|];
      eexists _, _; (split; [reflexivity|]); cbn [objs]; split;
      try (apply lookup_lt_is_Some; rewrite !length_app; cbn; lia);
      intros l0 D0 H; rewrite <- ?app_assoc; by apply Hkeep.
  - rewrite load_eq.
    destruct (reading w path) as [D|e];
      [destruct (has_column D "Cuisines");
       [destruct (has_column D "Aggregate rating")|]|]; by eexists.
  - intros D HD.
    assert (reading w path = inl D) as Hread.
    { unfold reading. destruct HD as [->|[[msg ->] Hl]]; [done|]. exact Hl. }
    rewrite load_eq, Hread. repeat split.
    + by intros -> ->.
    + by intros ->.
    + by intros -> ->.
  - intros e He.
    assert (reading w path = inr e) as Hread.
    { unfold reading. destruct He as [[-> ->]|[[msg ->] Hl]]; [done|]. exact Hl. }
    by rewrite load_eq, Hread.
Qed.

(** The sample file under bytes that are not UTF-8 loads through the
    Latin-1 reading, with nothing reported. *)
Lemma load_never_raises_witness :
  load latin1_world "cleaned_zomato.csv" = (Ret zomato_table, []).
Proof.
  destruct (load_never_raises latin1_world "cleaned_zomato.csv" (mkStore [] []))
    as (_ & _ & H & _).
  destruct (H zomato_source) as (Hok & _).
  - right. split; [by exists "invalid continuation byte" | reflexivity].
  - rewrite Hok by reflexivity. vm_compute. reflexivity.
Defined.

(** ** C7: at most ten records *)

Lemma pipeline_survivors T P :
  pipeline T P
  = obind (survivors T P) (fun D2 =>
    obind (Pandas.sort_values_desc D2 sort_keys) (fun D3 =>
    Ret (Pandas.head D3 10))).
Proof.
  unfold pipeline, survivors. by destruct (cuisine_filter P T).
Qed.

Lemma survivors_columns T P S :
  survivors T P = Ret S -> columns S = columns T /\ sublist (rows S) (rows T).
Proof.
  unfold survivors. destruct (cuisine_filter P T) as [D1|e|] eqn:H1; [|done..].
  cbn [obind]. intros H2.
  apply cuisine_filter_Ret in H1 as [Hc1 Hs1].
  apply rating_filter_Ret in H2 as [Hc2 Hs2].
  split; [congruence | by transitivity (rows D1)].
Qed.

(** C7, as stated, fails on a table without the sort columns, where no
    survivor is left and the call still raises: on the empty table of a
    failed load, and on a table with a record and no [Votes] column whose
    record the tag does not match, the filters leave zero records and
    [recommend] ends in a [KeyError]. *)
Lemma no_survivors_without_columns_is_an_error :
  (loaded empty_frame
   /\ survivors empty_frame (mkPreferences None None) = Ret empty_frame
   /\ rows empty_frame = []
   /\ recommend_on empty_frame (mkPreferences None None)
      = Raise (KeyError "Aggregate rating"))
  /\ (survivors no_votes_table (mkPreferences (Some ["thai"]) None)
      = Ret (mkDataFrame (columns no_votes_table) [])
      /\ recommend_on no_votes_table (mkPreferences (Some ["thai"]) None)
         = Raise (KeyError "Votes")).
Proof.
  split; [split; [apply empty_frame_loaded|]|]; repeat split;
    vm_compute; reflexivity.
Qed.

(** C7 (amended to tables that have the two sort columns, and to
    survivors whose sort keys are numbers where the claim says that the
    call returns): [recommend] never returns more than 10 records;
    whenever it returns, the records returned are records that survive
    the filters, 10 of them or as many as survive, and all of them when
    fewer than 10 survive; on a table with the columns [Aggregate rating]
    and [Votes], when the filters leave no record it returns the empty
    table with the columns of [T] and raises nothing, and when they leave
    records whose ratings and votes are numbers it returns as well. *)
Theorem recommend_returns_at_most_ten (T : DataFrame) (P : Preferences) :
  (forall R, recommend_on T P = Ret R -> length (rows R) <= 10)
  /\ (forall R, recommend_on T P = Ret R ->
      exists S, survivors T P = Ret S
        /\ length (rows R) = min 10 (length (rows S))
        /\ rows R ⊆+ rows S
        /\ (length (rows S) < 10 -> rows R ≡ₚ rows S))
  /\ (has_column T "Aggregate rating" = true -> has_column T "Votes" = true ->
      forall S, survivors T P = Ret S ->
        (numeric_keys S = true ->
         exists R, recommend_on T P = Ret R
           /\ length (rows R) = min 10 (length (rows S))
           /\ rows R ⊆+ rows S
           /\ (length (rows S) < 10 -> rows R ≡ₚ rows S))
        /\ (rows S = [] -> recommend_on T P = Ret (mkDataFrame (columns T) []))).
Proof.
  assert (forall S : DataFrame,
            length (take 10 (Pandas.sort_rows sort_keys (rows S)))
            = min 10 (length (rows S))
            /\ take 10 (Pandas.sort_rows sort_keys (rows S)) ⊆+ rows S
            /\ (length (rows S) < 10 ->
                take 10 (Pandas.sort_rows sort_keys (rows S)) ≡ₚ rows S))
    as Hcut.
  { intros S. split; [|split].
    - by rewrite length_take, sort_rows_perm.
    - rewrite <- (sort_rows_perm sort_keys (rows S)) at 2.
      apply sublist_submseteq, sublist_take.
    - intros Hlt. rewrite take_ge; [apply sort_rows_perm|].
      rewrite sort_rows_perm. lia. }
  split; [|split].
  - intros R HR.
    apply recommend_on_Ret in HR as (D1 & D2 & _ & _ & _ & _ & _ & ->).
    cbn [rows]. rewrite length_take. lia.
  - intros R HR. rewrite recommend_on_eq, pipeline_survivors in HR.
    destruct (survivors T P) as [S|e|]; [|done..]. cbn [obind] in HR.
    destruct (Pandas.sort_values_desc S sort_keys) as [D3|e|] eqn:Hs; [|done..].
    cbn [obind] in HR. injection HR as <-.
    apply sort_values_desc_Ret in Hs as (_ & _ & _ & ->).
    exists S. split; [done|]. cbn [rows Pandas.head columns]. apply Hcut.
  - intros Hr Hv S HS. destruct (survivors_columns T P S HS) as [Hc _].
    assert (has_column S "Aggregate rating" = true) as Hr'.
    { unfold has_column in *. by rewrite Hc. }
    assert (has_column S "Votes" = true) as Hv'.
    { unfold has_column in *. by rewrite Hc. }
    split.
    + intros Hn. eexists. split.
      { rewrite recommend_on_eq, pipeline_survivors, HS. cbn [obind].
        rewrite sort_values_desc_eq by done. reflexivity. }
      cbn [rows Pandas.head columns]. apply Hcut.
    + intros Hnil.
      rewrite recommend_on_eq, pipeline_survivors, HS. cbn [obind].
      rewrite sort_values_desc_eq; try done.
      * cbn [obind]. unfold Pandas.head. cbn [rows columns].
        by rewrite Hnil, Hc.
      * unfold numeric_keys. by rewrite Hnil.
Qed.

Lemma recommend_returns_at_most_ten_witness :
  recommend_on zomato_table (mkPreferences (Some ["thai"]) None)
  = Ret (mkDataFrame zomato_columns []).
Proof.
  destruct (recommend_returns_at_most_ten zomato_table
              (mkPreferences (Some ["thai"]) None)) as (_ & _ & H).
  destruct (H eq_refl eq_refl (mkDataFrame zomato_columns [])) as [_ H0].
  - vm_compute. reflexivity.
  - exact (H0 eq_refl).
Defined.

(** ** C8: the table held by the recommender *)

(** On any store, [recommend] computes the value that [recommend_on]
    states. *)
Lemma apply_new_run f l s D :
  objs s !! l = Some D ->
  apply_new f l s =
    match f D with
    | Ret out => (Ret (length (objs s)), mkStore (objs s ++ [out]) (reports s))
    | Raise e => (Raise e, s)
    | Unmodelled => (Unmodelled, s)
    end.
Proof.
  intros H. unfold apply_new, bind, deref, lift, new_object. rewrite H.
  by destruct (f D).
Qed.

Lemma implements_apply_new f : implements (apply_new f) f.
Proof.
  intros s l D H. rewrite (apply_new_run f l s D H).
  destruct (f D); [|done..]. cbn. by apply list_lookup_middle.
Qed.

Lemma implements_ret : implements ret Ret.
Proof. intros s l D H. exact H. Qed.

Lemma implements_bind k1 k2 f1 f2 :
  implements k1 f1 -> implements k2 f2 ->
  implements (fun l => bind (k1 l) k2) (fun D => obind (f1 D) f2).
Proof.
  intros H1 H2 s l D H. specialize (H1 s l D H). unfold bind.
  destruct (k1 l s) as [[l1|e|] s1], (f1 D) as [D1|e'|]; try done; cbn [obind].
  by apply H2.
Qed.

Lemma recommend_implements P :
  implements (fun l => recommend (mkRecommender l) P) (fun T => pipeline T P).
Proof.
  unfold recommend, pipeline, DataFrame_copy. cbn [df].
  apply (implements_bind (apply_new Ret) _ Ret
           (fun T => obind (cuisine_filter P T) _)).
  { apply implements_apply_new. }
  apply (implements_bind _ _ (cuisine_filter P)).
  { unfold cuisine_filter. destruct (cuisines P) as [[|t ts]|];
      auto using implements_ret, implements_apply_new. }
  apply (implements_bind _ _ (rating_filter P)).
  { unfold rating_filter. destruct (min_rating P) as [m|];
      [destruct (Float.truthy m)|];
      auto using implements_ret, implements_apply_new. }
  apply (implements_bind (apply_new _) _
           (fun D => Pandas.sort_values_desc D sort_keys)).
  { apply implements_apply_new. }
  apply implements_apply_new.
Qed.

Lemma recommend_value self P s T :
  objs s !! df self = Some T ->
  value_of (recommend self P s) = recommend_on T P.
Proof.
  intros H. rewrite recommend_on_eq. destruct self as [l]. cbn [df] in H.
  pose proof (recommend_implements P s l T H) as Hk. cbn beta in Hk.
  destruct (recommend (mkRecommender l) P s) as [[l1|e|] s1],
    (pipeline T P) as [D1|e'|]; try done; cbn; by rewrite Hk.
Qed.

(** C8: a call of [recommend], whatever it ends in, leaves the table of
    the recommender, every other object of the store and the reports as
    they were; the reference it returns is not the reference of that
    table but one to an object made during the call, which holds the
    value that [recommend_on] states. *)
Theorem recommend_leaves_the_table (self : RestaurantRecommender)
    (P : Preferences) (s : store) (T : DataFrame)
    (o : outcome loc) (s' : store) :
  objs s !! df self = Some T ->
  recommend self P s = (o, s') ->
  objs s' !! df self = Some T
  /\ (forall l D, objs s !! l = Some D -> objs s' !! l = Some D)
  /\ reports s' = reports s
  /\ value_of (o, s') = recommend_on T P
  /\ forall l, o = Ret l ->
       l <> df self /\ length (objs s) <= l /\ is_Some (objs s' !! l).
Proof.
  intros HT Hrun.
  destruct (recommend_step (length (objs s)) self P s o s') as [Hg Hl];
    [lia | exact Hrun |].
  split; [by eapply grows_lookup|].
  split; [intros l D H; by eapply grows_lookup|].
  split; [apply Hg|].
  split; [rewrite <- Hrun; by apply recommend_value|].
  intros l Ho. destruct (Hl l Ho) as [Hge Hlt].
  apply lookup_lt_Some in HT.
  split; [lia|]. split; [done|]. by apply lookup_lt_is_Some.
Qed.

Lemma recommend_leaves_the_table_witness :
  objs (snd (recommend (mkRecommender 0) (mkPreferences (Some ["pizza"]) (Some (Fin 4)))
               (mkStore [zomato_table] []))) !! 0%nat
  = Some zomato_table.
Proof.
  refine (proj1 (recommend_leaves_the_table (mkRecommender 0)
                   (mkPreferences (Some ["pizza"]) (Some (Fin 4)))
                   (mkStore [zomato_table] []) zomato_table _ _ eq_refl _)).
  apply surjective_pairing.
Defined.

(** ** C9: a minimum rating of zero *)

(** C9: a [min_rating] of zero gives the run, and so the result, of the
    same preferences without the key, on every store and table; the
    rating filter then returns the records as they are, those with a
    rating below zero included. *)
Theorem zero_min_rating_is_no_min_rating (T : DataFrame)
    (tags : option (list string)) (q : Q) :
  (q == 0)%Q ->
  recommend_on T (mkPreferences tags (Some (Fin q)))
  = recommend_on T (mkPreferences tags None)
  /\ (forall self s,
        recommend self (mkPreferences tags (Some (Fin q))) s
        = recommend self (mkPreferences tags None) s)
  /\ (forall D, rating_filter (mkPreferences tags (Some (Fin q))) D = Ret D).
Proof.
  intros Hq.
  assert (Float.truthy (Fin q) = false) as Ht.
  { cbn. apply negb_false_iff, Qeq_bool_iff, Hq. }
  assert (forall self s,
            recommend self (mkPreferences tags (Some (Fin q))) s
            = recommend self (mkPreferences tags None) s) as Hrun.
  { intros self s. unfold recommend. cbn [min_rating cuisines].
    by rewrite Ht. }
  split; [|split].
  - unfold recommend_on. by rewrite Hrun.
  - exact Hrun.
  - intros D. unfold rating_filter. cbn [min_rating]. by rewrite Ht.
Qed.

Lemma zero_min_rating_is_no_min_rating_witness :
  recommend_on zomato_table (mkPreferences None (Some (Fin 0))) = Ret zomato_ranked.
Proof.
  rewrite (proj1 (zero_min_rating_is_no_min_rating zomato_table None 0
                    (Qeq_refl 0))).
  vm_compute. reflexivity.
Defined.

(** ** C10: the columns that [recommend] needs *)

(** C10 at a failing input.  The claim asks that on a table with the three
    columns every call completes; the tags reach the regular expression
    unescaped (the defect met under C1), so on the loaded sample table,
    which has the three columns, the tag "*" gives a pattern that [re]
    refuses, and the call raises. *)
Lemma repeat_tag_raises_with_all_columns :
  has_column zomato_table "Cuisines" = true
  /\ has_column zomato_table "Aggregate rating" = true
  /\ has_column zomato_table "Votes" = true
  /\ recommend_on zomato_table (mkPreferences (Some ["*"]) None)
     = Raise (re_error "nothing to repeat").
Proof. repeat split; vm_compute; reflexivity. Qed.

(** Where [recommend] does what C10 states, namely on tags free of
    regular-expression metacharacters and sort keys that are numbers: on a
    table that has the columns [Cuisines], [Aggregate rating] and [Votes],
    [recommend] returns a table for any such preferences; on a table
    without the [Votes] column it never returns one, and when the filters
    pass, also with no record left, it raises the [KeyError] of the first
    sort column that is missing. *)
Theorem recommend_needs_the_votes_column (T : DataFrame) (P : Preferences) :
  (has_column T "Cuisines" = true -> has_column T "Aggregate rating" = true ->
   has_column T "Votes" = true -> numeric_keys T = true ->
   (forall tags, cuisines P = Some tags ->
      Forall (fun t => Re.plain t = true) tags) ->
   exists R, recommend_on T P = Ret R)
  /\ (has_column T "Votes" = false ->
      (forall R, recommend_on T P <> Ret R)
      /\ forall S, survivors T P = Ret S ->
           recommend_on T P
           = Raise (KeyError (if has_column T "Aggregate rating"
                              then "Votes" else "Aggregate rating"))).
Proof.
  split.
  - intros Hc Hr Hv Hn Hplain.
    assert (exists D1, cuisine_filter P T = Ret D1) as [D1 H1].
    { unfold cuisine_filter. destruct (cuisines P) as [[|t ts]|] eqn:Htags;
        try by eexists.
      rewrite select_cuisines_plain; [by eexists|done|by apply Hplain|done]. }
    destruct (cuisine_filter_Ret P T D1 H1) as [Hc1 Hs1].
    assert (numeric_keys D1 = true) as Hn1.
    { unfold numeric_keys in *. by eapply forallb_sublist. }
    assert (exists D2, rating_filter P D1 = Ret D2) as [D2 H2].
    { unfold rating_filter. destruct (min_rating P) as [m|];
        [destruct (Float.truthy m)|]; try by eexists.
      rewrite select_rating_eq. unfold has_column in *. rewrite Hc1, Hr.
      rewrite (numeric_keys_rating D1 Hn1). by eexists. }
    destruct (rating_filter_Ret P D1 D2 H2) as [Hc2 Hs2].
    eexists. apply (recommend_on_intro T P D1 D2 H1 H2).
    + unfold has_column in *. by rewrite Hc2, Hc1.
    + unfold has_column in *. by rewrite Hc2, Hc1.
    + unfold numeric_keys in *. by eapply forallb_sublist.
  - intros Hv. split.
    + intros R HR.
      apply recommend_on_Ret in HR as (D1 & D2 & H1 & H2 & _ & Hv2 & _).
      apply cuisine_filter_Ret in H1 as [Hc1 _].
      apply rating_filter_Ret in H2 as [Hc2 _].
      unfold has_column in *. rewrite Hc2, Hc1 in Hv2. congruence.
    + intros S HS. destruct (survivors_columns T P S HS) as [Hc _].
      rewrite recommend_on_eq, pipeline_survivors, HS. cbn [obind].
      unfold Pandas.sort_values_desc, sort_keys. cbn [List.find].
      unfold has_column in *. rewrite Hc, Hv.
      by destruct (bool_decide ("Aggregate rating" ∈ columns T)).
Qed.

Lemma recommend_needs_the_votes_column_witness :
  (exists R, recommend_on zomato_table
               (mkPreferences (Some ["Pizza"; "Thai"]) (Some (Fin 3))) = Ret R)
  /\ recommend_on (mkDataFrame ["Cuisines"; "Aggregate rating"] [])
       (mkPreferences (Some ["Pizza"]) None)
     = Raise (KeyError "Votes").
Proof.
  split.
  - apply (proj1 (recommend_needs_the_votes_column zomato_table
                    (mkPreferences (Some ["Pizza"; "Thai"]) (Some (Fin 3)))));
      try reflexivity.
    intros tags [= <-]. repeat constructor.
  - apply (proj2 (proj2 (recommend_needs_the_votes_column
                           (mkDataFrame ["Cuisines"; "Aggregate rating"] [])
                           (mkPreferences (Some ["Pizza"]) None)) eq_refl)
             (mkDataFrame ["Cuisines"; "Aggregate rating"] [])).
    vm_compute. reflexivity.
Defined.

(* ===================================================================== *)
(** * Further properties of [recommend] and [load_data] *)

(** ** The ten returned are the ten best *)

Section Ranking.
Import Pandas.

Ltac q_cases :=
  repeat match goal with
         | H : context [Qle_bool ?a ?b] |- _ =>
             let E := fresh "E" in
             destruct (Qle_bool a b) eqn:E;
             [apply Qle_bool_iff in E
             |apply not_true_iff_false in E; rewrite Qle_bool_iff in E]
         | |- context [Qle_bool ?a ?b] =>
             let E := fresh "E" in
             destruct (Qle_bool a b) eqn:E;
             [apply Qle_bool_iff in E
             |apply not_true_iff_false in E; rewrite Qle_bool_iff in E]
         end.

Lemma key_cmp_preorder : preorder_cmp key_cmp.
Proof.
  split; [exact (fun x y => key_cmp_opp x y)|]. split.
  - intros x y z.
    destruct x as [| |a|], y as [| |b|], z as [| |c|]; cbn; try done;
      unfold key_cmp, Float.gt; intros H1 H2; q_cases; cbn in *;
      try done; try lra.
  - intros x y z.
    destruct x as [| |a|], y as [| |b|], z as [| |c|]; cbn; try done;
      unfold key_cmp, Float.gt; intros H1; q_cases; cbn in *;
      try done; try lra.
Qed.

Lemma row_cmp_preorder by_ : preorder_cmp (row_cmp by_).
Proof.
  destruct key_cmp_preorder as (_ & Klt & Keq).
  split; [exact (fun a b => row_cmp_opp by_ a b)|].
  induction by_ as [|c by_ [IHlt IHeq]]; [split; done|].
  split.
  - intros x y z. cbn [row_cmp].
    pose proof (Klt (key_of (cell_at x c)) (key_of (cell_at y c))
                  (key_of (cell_at z c))) as HK.
    pose proof (Keq (key_of (cell_at x c)) (key_of (cell_at y c))
                  (key_of (cell_at z c))) as HE.
    destruct (key_cmp (key_of (cell_at x c)) (key_of (cell_at y c))) eqn:Exy;
      try done.
    + rewrite (HE eq_refl).
      destruct (key_cmp (key_of (cell_at y c)) (key_of (cell_at z c)));
        try done. apply IHlt.
    + intros _ Hyz. rewrite HK; [done..|].
      by destruct (key_cmp (key_of (cell_at y c)) (key_of (cell_at z c))).
  - intros x y z. cbn [row_cmp].
    pose proof (Keq (key_of (cell_at x c)) (key_of (cell_at y c))
                  (key_of (cell_at z c))) as HE.
    destruct (key_cmp (key_of (cell_at x c)) (key_of (cell_at y c))) eqn:Exy;
      try done.
    intros Hrest. rewrite (HE eq_refl).
    destruct (key_cmp (key_of (cell_at y c)) (key_of (cell_at z c)));
      try done. by apply IHeq.
Qed.

Lemma not_after_trans by_ a b c :
  not_after by_ a b -> not_after by_ b c -> not_after by_ a c.
Proof.
  destruct (row_cmp_preorder by_) as (Hopp & Hlt & _).
  unfold not_after. intros Hab Hbc Hca.
  apply Hbc. apply (Hlt c a b Hca).
  rewrite Hopp. by destruct (row_cmp by_ b a).
Qed.

Lemma not_after_strongly by_ l :
  Sorted (not_after by_) l -> StronglySorted (not_after by_) l.
Proof.
  apply Sorted.Sorted_StronglySorted. intros a b c. apply not_after_trans.
Qed.

Lemma StronglySorted_take_drop {A} (R : A -> A -> Prop) l n a b :
  StronglySorted R l -> a ∈ take n l -> b ∈ drop n l -> R a b.
Proof.
  intros Hs. revert n. induction Hs as [|x l Hs IH Hall]; intros n Ha Hb.
  - destruct n; by apply elem_of_nil in Ha.
  - destruct n as [|n]; cbn in *; [by apply elem_of_nil in Ha|].
    apply elem_of_cons in Ha as [->|Ha]; [|by eapply IH].
    rewrite Forall_forall in Hall. apply Hall.
    eapply elem_of_sublist; [exact Hb | apply sublist_drop].
Qed.

End Ranking.

(** The records that [recommend] returns are the best of the survivors:
    the survivors are the returned records and a rest, and no record of
    the rest comes before a returned one in the sort; with ratings and
    votes all present, each returned record and each record left out are
    in the stated order. *)
Theorem recommend_returns_the_best (T : DataFrame) (P : Preferences)
    (R : DataFrame) :
  recommend_on T P = Ret R ->
  exists S rest,
    survivors T P = Ret S
    /\ rows S ≡ₚ rows R ++ rest
    /\ (forall a b, a ∈ rows R -> b ∈ rest -> not_after sort_keys a b)
    /\ (keys_present T -> forall a b, a ∈ rows R -> b ∈ rest -> in_order a b).
Proof.
  intros HR.
  pose proof (recommend_on_Ret T P R HR) as (D1 & D2 & H1 & H2 & _ & _ & _ & ->).
  exists D2, (drop 10 (Pandas.sort_rows sort_keys (rows D2))).
  assert (forall a b,
            a ∈ take 10 (Pandas.sort_rows sort_keys (rows D2)) ->
            b ∈ drop 10 (Pandas.sort_rows sort_keys (rows D2)) ->
            not_after sort_keys a b) as Hbest.
  { intros a b. apply StronglySorted_take_drop, not_after_strongly,
      sort_rows_sorted. }
  split; [unfold survivors; by rewrite H1|]. cbn [rows].
  split; [by rewrite take_drop, sort_rows_perm|]. split; [exact Hbest|].
  intros Hkeys a b Ha Hb.
  assert (forall r, r ∈ Pandas.sort_rows sort_keys (rows D2) -> exists x v,
            cell_at r "Aggregate rating" = CNum x /\ x <> NaN
            /\ cell_at r "Votes" = CNum v /\ v <> NaN) as Hin.
  { intros r Hr. rewrite sort_rows_perm in Hr.
    apply cuisine_filter_Ret in H1 as [_ Hs1].
    apply rating_filter_Ret in H2 as [_ Hs2].
    unfold keys_present in Hkeys. eapply Forall_forall in Hkeys; [exact Hkeys|].
    eapply elem_of_sublist; [|exact Hs1]. by eapply elem_of_sublist. }
  destruct (Hin a) as (xa & va & Ha1 & Ha2 & Ha3 & Ha4).
  { eapply elem_of_sublist; [exact Ha | apply sublist_take]. }
  destruct (Hin b) as (xb & vb & Hb1 & Hb2 & Hb3 & Hb4).
  { eapply elem_of_sublist; [exact Hb | apply sublist_drop]. }
  eapply not_after_in_order; try done. by apply Hbest.
Qed.

Lemma recommend_returns_the_best_witness :
  exists S rest,
    survivors ladder_table (mkPreferences None (Some (Fin 2))) = Ret S
    /\ rows S ≡ₚ map ladder_record (rev (seq 3 10)) ++ rest
    /\ (forall a b, a ∈ map ladder_record (rev (seq 3 10)) -> b ∈ rest ->
          not_after sort_keys a b)
    /\ (keys_present ladder_table ->
        forall a b, a ∈ map ladder_record (rev (seq 3 10)) -> b ∈ rest ->
          in_order a b).
Proof.
  apply (recommend_returns_the_best ladder_table
           (mkPreferences None (Some (Fin 2)))
           (mkDataFrame zomato_columns (map ladder_record (rev (seq 3 10))))).
  vm_compute. reflexivity.
Defined.

(** ** The tags are read as a set *)

(** Two collections of tags with the same members, none of which holds a
    character that is special in a pattern, give the same outcome, a
    returned table or an exception: neither the order of the tags nor a
    repeated tag matters.  (Tags with special characters are left out:
    the tags are joined into one pattern unescaped, so a bracket in one
    tag can pair with a bracket in another, and the order then matters.) *)
Theorem recommend_reads_tags_as_a_set (T : DataFrame)
    (tags tags' : list string) (m : option float64) :
  tags ⊆ tags' -> tags' ⊆ tags ->
  Forall (fun t => Re.plain t = true) tags ->
  recommend_on T (mkPreferences (Some tags) m)
  = recommend_on T (mkPreferences (Some tags') m).
Proof.
  intros Hsub Hsub' Hplain.
  assert (Forall (fun t => Re.plain t = true) tags') as Hplain'.
  { apply Forall_forall. intros x Hx.
    eapply Forall_forall in Hplain; [exact Hplain|]. by apply Hsub'. }
  destruct tags as [|t ts].
  { destruct tags' as [|t' ts']; [done|].
    specialize (Hsub' t'). rewrite elem_of_nil in Hsub'.
    exfalso. apply Hsub'. by left. }
  destruct tags' as [|t' ts'].
  { specialize (Hsub t). rewrite elem_of_nil in Hsub.
    exfalso. apply Hsub. by left. }
  assert (forall r, tag_occursb (t :: ts) r = tag_occursb (t' :: ts') r) as Hocc.
  { intros r. apply eq_true_iff_eq. rewrite !tag_occursb_spec.
    unfold tag_occurs.
    split; intros (x & s & Hx & Hs & Hc); exists x, s; (split; [|done]);
      [by apply Hsub | by apply Hsub']. }
  assert (select_cuisines (t :: ts) T = select_cuisines (t' :: ts') T) as Hsel.
  { destruct (has_column T "Cuisines") eqn:Hcu.
    - rewrite !select_cuisines_plain by done. do 2 f_equal.
      by apply filter_ext.
    - by rewrite !select_cuisines_eq, Hcu by done. }
  rewrite !recommend_on_eq. unfold pipeline, cuisine_filter, rating_filter.
  cbn [cuisines min_rating]. by rewrite Hsel.
Qed.

Lemma recommend_reads_tags_as_a_set_witness :
  recommend_on zomato_table (mkPreferences (Some ["indian"; "pizza"]) None)
  = recommend_on zomato_table
      (mkPreferences (Some ["pizza"; "indian"; "pizza"]) None).
Proof.
  apply (recommend_reads_tags_as_a_set zomato_table ["indian"; "pizza"]
           ["pizza"; "indian"; "pizza"] None).
  - intros x Hx. apply list_elem_of_In. apply list_elem_of_In in Hx.
    cbn in *. tauto.
  - intros x Hx. apply list_elem_of_In. apply list_elem_of_In in Hx.
    cbn in *. tauto.
  - repeat constructor.
Defined.

(** ** A higher bound keeps fewer records *)

Lemma float_ge_trans x y z :
  Float.ge x y = true -> Float.ge y z = true -> Float.ge x z = true.
Proof.
  destruct x as [| |a|], y as [| |b|], z as [| |c|]; cbn; try done.
  rewrite !Qle_bool_iff. intros. lra.
Qed.

(** Raising [min_rating] to a higher value that is not zero returns no
    more records, and the call with the higher bound returns whenever the
    call with the lower one does. *)
Theorem raising_min_rating_keeps_fewer (T : DataFrame)
    (tags : option (list string)) (m m' : float64) (R : DataFrame) :
  Float.ge m' m = true -> Float.truthy m' = true ->
  recommend_on T (mkPreferences tags (Some m)) = Ret R ->
  exists R', recommend_on T (mkPreferences tags (Some m')) = Ret R'
             /\ length (rows R') <= length (rows R)
             /\ forall r, r ∈ rows R' -> Float.ge (rating_of r) m' = true.
Proof.
  intros Hge Ht HR.
  apply recommend_on_Ret in HR as (D1 & D2 & H1 & H2 & Hr & Hv & Hn & ->).
  destruct (cuisine_filter_Ret _ _ _ H1) as [Hc1 _].
  destruct (rating_filter_Ret _ _ _ H2) as [Hc2 Hs2].
  set (P' := mkPreferences tags (Some m')).
  assert (cuisine_filter P' T = Ret D1) as H1' by exact H1.
  assert (has_column D1 "Aggregate rating" = true) as Hr1.
  { unfold has_column in *. by rewrite <- Hc2. }
  set (D2' := mkDataFrame (columns D1) (List.filter (rating_keep m') (rows D1))).
  assert (sublist (rows D2') (rows D2)
          /\ forallb (fun r => Pandas.is_num (cell_at r "Aggregate rating"))
               (rows D1) = true) as [Hs' Hnum].
  { unfold rating_filter in H2. cbn [min_rating] in H2.
    destruct (Float.truthy m).
    - rewrite select_rating_eq, Hr1 in H2.
      destruct (forallb _ (rows D1)) eqn:Hnum; [|done]. injection H2 as <-.
      split; [|done]. cbn [rows D2']. apply filter_impl_sublist.
      intros r. unfold rating_keep. intros Hk. by eapply float_ge_trans.
    - injection H2 as <-. split; [apply filter_sublist|].
      by apply numeric_keys_rating. }
  assert (rating_filter P' D1 = Ret D2') as H2'.
  { unfold rating_filter. cbn [min_rating P'].
    by rewrite Ht, select_rating_eq, Hr1, Hnum. }
  exists (mkDataFrame (columns D2')
            (take 10 (Pandas.sort_rows sort_keys (rows D2')))).
  split; [|split].
  - apply (recommend_on_intro T P' D1 D2' H1' H2').
    + unfold has_column in *. cbn [columns D2']. by rewrite <- Hc2.
    + unfold has_column in *. cbn [columns D2']. by rewrite <- Hc2.
    + unfold numeric_keys in *. by eapply forallb_sublist.
  - cbn [rows]. by apply ranked_length.
  - cbn [rows]. intros r Hr'.
    assert (r ∈ List.filter (rating_keep m') (rows D1)) as Hin.
    { rewrite <- (sort_rows_perm sort_keys).
      eapply elem_of_sublist; [exact Hr' | apply sublist_take]. }
    apply list_elem_of_In, filter_In in Hin as [_ Hk]. exact Hk.
Qed.

Lemma raising_min_rating_keeps_fewer_witness :
  exists R', recommend_on zomato_table (mkPreferences None (Some (Fin (43 # 10))))
             = Ret R'
             /\ length (rows R') <= 2
             /\ forall r, r ∈ rows R' ->
                  Float.ge (rating_of r) (Fin (43 # 10)) = true.
Proof.
  apply (raising_min_rating_keeps_fewer zomato_table None (Fin 4) (Fin (43 # 10))
           (mkDataFrame zomato_columns
              [ restaurant (CStr "Darbar") (CStr "north indian, mughlai")
                  (CNum (Fin (45 # 10))) (CNum (Fin 5));
                restaurant (CStr "Roma") (CStr "italian, pizza")
                  (CNum (Fin (42 # 10))) (CNum (Fin 100)) ])).
  - reflexivity.
  - reflexivity.
  - vm_compute. reflexivity.
Defined.

(** ** Cleaning a cleaned table *)

Lemma clean_record_idem w w' r :
  clean_record w' (clean_record w r) = clean_record w r.
Proof.
  destruct (cuisines_cell_text w (cell_at r "Cuisines")) as (s & Hs & Hl).
  destruct (rating_cell_number w (cell_at r "Aggregate rating")) as (x & Hx & Hn).
  assert (clean_record w r !! "Cuisines" = Some (CStr s)) as Hc.
  { unfold clean_record. rewrite lookup_insert_ne by done.
    by rewrite lookup_insert_eq, Hs. }
  assert (clean_record w r !! "Aggregate rating" = Some (CNum x)) as Hr.
  { unfold clean_record. by rewrite lookup_insert_eq, Hx. }
  set (r1 := clean_record w r) in *.
  assert (cell_at r1 "Cuisines" = CStr s) as Hc1
      by (unfold cell_at; by rewrite Hc).
  assert (cell_at r1 "Aggregate rating" = CNum x) as Hr1
      by (unfold cell_at; by rewrite Hr).
  unfold clean_record. rewrite Hc1, Hr1.
  assert (cuisines_cell w' (CStr s) = CStr s) as -> by (cbn; by rewrite Hl).
  assert (rating_cell w' (CNum x) = CNum x) as -> by (by destruct x).
  rewrite (insert_id _ _ _ Hc). by apply insert_id.
Qed.

Lemma cleaned_idem w w' D :
  has_column D "Cuisines" = true -> has_column D "Aggregate rating" = true ->
  clean_rating w' (clean_cuisines w' (clean_rating w (clean_cuisines w D)))
  = clean_rating w (clean_cuisines w D).
Proof.
  intros Hc Hr.
  pose proof (cleaned_columns w D Hc Hr) as Hcols.
  pose proof (cleaned_rows w D) as Hrows.
  set (T := clean_rating w (clean_cuisines w D)) in *.
  assert (has_column T "Cuisines" = true) as Hc'
      by (unfold has_column in *; by rewrite Hcols).
  assert (has_column T "Aggregate rating" = true) as Hr'
      by (unfold has_column in *; by rewrite Hcols).
  pose proof (cleaned_columns w' T Hc' Hr') as Hcols'.
  pose proof (cleaned_rows w' T) as Hrows'.
  destruct (clean_rating w' (clean_cuisines w' T)) as [cs rs], T as [cs0 rs0].
  cbn in *. subst. f_equal. rewrite map_map. apply map_ext.
  intros r. apply clean_record_idem.
Qed.

(** The cleaning is idempotent on the table in memory: after a call of
    [load_data] that reported no error, running the cleaning statements
    (lines 23-24) once more on the table it returned, under any
    conversions between numbers and text, raises nothing and leaves the
    table, every other object and the reports exactly as they are. *)
Theorem cleaning_a_loaded_table_changes_nothing (w w' : world)
    (path : string) (s : store) (l : loc) (s1 : store) :
  load_data w path s = (Ret l, s1) ->
  reports s1 = reports s ->
  cleaning w' l s1 = (Ret l, s1).
Proof.
  rewrite load_data_run. intros Hrun Hrep.
  assert (forall (r : list string) x, r ++ [x] <> r) as Hgrow.
  { intros r x E. apply (f_equal length) in E. rewrite length_app in E.
    cbn in E. lia. }
  destruct (reading w path) as [D|e].
  - destruct (has_column D "Cuisines") eqn:Hc;
      [destruct (has_column D "Aggregate rating") eqn:Hr|].
    + injection Hrun as <- <-. rewrite cleaning_run.
      assert (has_column (clean_rating w (clean_cuisines w D)) "Cuisines" = true)
        as -> by (unfold has_column in *; by rewrite cleaned_columns).
      assert (has_column (clean_rating w (clean_cuisines w D))
                "Aggregate rating" = true)
        as -> by (unfold has_column in *; by rewrite cleaned_columns).
      by rewrite cleaned_idem.
    + injection Hrun as _ <-. cbn [reports] in Hrep. by apply Hgrow in Hrep.
    + injection Hrun as _ <-. cbn [reports] in Hrep. by apply Hgrow in Hrep.
  - injection Hrun as _ <-. cbn [reports] in Hrep. by apply Hgrow in Hrep.
Qed.

Lemma cleaning_a_loaded_table_changes_nothing_witness :
  cleaning infinity_world 0 (mkStore [zomato_table] [])
  = (Ret 0%nat, mkStore [zomato_table] []).
Proof.
  apply (cleaning_a_loaded_table_changes_nothing zomato_world infinity_world
           "cleaned_zomato.csv" (mkStore [] [])).
  - vm_compute. reflexivity.
  - reflexivity.
Defined.

(* ===================================================================== *)
(** * The cuisines offered in the sidebar *)

Section Choices.
Import Str.

Lemma ascii_compare_refl a : Ascii.compare a a = Eq.
Proof. unfold Ascii.compare. apply N.compare_refl. Qed.

Lemma ascii_compare_lt_trans a b c :
  Ascii.compare a b = Lt -> Ascii.compare b c = Lt -> Ascii.compare a c = Lt.
Proof. unfold Ascii.compare. rewrite !N.compare_lt_iff. lia. Qed.

Lemma str_lt_trans a b c : str_lt a b -> str_lt b c -> str_lt a c.
Proof.
  unfold str_lt. revert b c. induction a as [|x a IH]; intros [|y b] [|z c];
    cbn; try done.
  destruct (Ascii.compare x y) eqn:Exy, (Ascii.compare y z) eqn:Eyz; try done.
  - apply Ascii.compare_eq_iff in Exy as ->.
    apply Ascii.compare_eq_iff in Eyz as ->.
    rewrite ascii_compare_refl. apply IH.
  - apply Ascii.compare_eq_iff in Exy as ->. by rewrite Eyz.
  - apply Ascii.compare_eq_iff in Eyz as <-. by rewrite Exy.
  - by rewrite (ascii_compare_lt_trans x y z).
Qed.

Lemma str_lt_irrefl a : ~ str_lt a a.
Proof.
  unfold str_lt. intros H. pose proof (String.compare_antisym a a) as Ha.
  rewrite H in Ha. discriminate.
Qed.

Lemma set_insert_elem x y l : x ∈ set_insert y l <-> x = y \/ x ∈ l.
Proof.
  induction l as [|z l IH]; cbn.
  - rewrite list_elem_of_singleton, elem_of_nil. tauto.
  - destruct (String.compare y z) eqn:E.
    + apply String.compare_eq_iff in E as ->. rewrite elem_of_cons. tauto.
    + rewrite !elem_of_cons. tauto.
    + rewrite !elem_of_cons, IH. tauto.
Qed.

Lemma sorted_set_elem x l : x ∈ sorted_set l <-> x ∈ l.
Proof.
  induction l as [|y l IH]; cbn; [done|].
  fold (sorted_set l). rewrite set_insert_elem, elem_of_cons, IH. done.
Qed.

Lemma set_insert_sorted x l :
  Sorted str_lt l -> Sorted str_lt (set_insert x l).
Proof.
  induction 1 as [|y l Hs IH Hhd]; cbn; [repeat constructor|].
  destruct (String.compare x y) eqn:E.
  - by constructor.
  - constructor; [by constructor|]. by constructor.
  - constructor; [done|].
    assert (str_lt y x) as Hyx.
    { unfold str_lt. rewrite String.compare_antisym, E. done. }
    destruct l as [|z l]; cbn in *; [by repeat constructor|].
    destruct (String.compare x z); constructor; try done; by inversion Hhd.
Qed.

Lemma sorted_set_sorted l : Sorted str_lt (sorted_set l).
Proof.
  induction l as [|x l IH]; cbn; [constructor|]. by apply set_insert_sorted.
Qed.

Lemma sorted_set_NoDup l : NoDup (sorted_set l).
Proof.
  assert (StronglySorted str_lt (sorted_set l)) as Hs.
  { apply Sorted.Sorted_StronglySorted; [|apply sorted_set_sorted].
    intros a b c. apply str_lt_trans. }
  induction Hs as [|x l' _ IH Hall]; constructor; [|done].
  intros Hin. rewrite Forall_forall in Hall.
  by apply (str_lt_irrefl x), Hall.
Qed.

(** Stripping. *)
Lemma lstrip_idem s : lstrip (lstrip s) = lstrip s.
Proof.
  induction s as [|c s IH]; cbn; [done|].
  destruct (is_space c) eqn:E; [done|]. cbn. by rewrite E.
Qed.

Lemma rstrip_cons_inv c s :
  rstrip (String c s) = String c s -> rstrip s = s.
Proof.
  cbn. destruct (rstrip s) as [|d r] eqn:E.
  - destruct (is_space c); [done|]. by intros [= <-].
  - by intros [= <-].
Qed.

Lemma rstrip_lstrip s : rstrip s = s -> rstrip (lstrip s) = lstrip s.
Proof.
  induction s as [|c s IH]; [done|]. intros H. cbn [lstrip].
  destruct (is_space c); [|done]. apply IH. by eapply rstrip_cons_inv.
Qed.

Lemma rstrip_idem s : rstrip (rstrip s) = rstrip s.
Proof.
  induction s as [|c s IH]; cbn; [done|].
  destruct (rstrip s) as [|d r] eqn:E.
  - destruct (is_space c) eqn:Ec; [done|]. cbn. by rewrite Ec.
  - cbn. cbn in IH. by rewrite IH.
Qed.

Lemma strip_idem s : strip (strip s) = strip s.
Proof.
  unfold strip. rewrite (rstrip_lstrip (rstrip s)) by apply rstrip_idem.
  apply lstrip_idem.
Qed.

Lemma append_cons c (a b : string) :
  (String c a ++ b)%string = String c (a ++ b)%string.
Proof. reflexivity. Qed.

Lemma lstrip_suffix s : exists pre, s = (pre ++ lstrip s)%string.
Proof.
  induction s as [|c s [pre IH]]; [by exists EmptyString|]. cbn [lstrip].
  destruct (is_space c); [|by exists EmptyString].
  exists (String c pre). rewrite append_cons. by f_equal.
Qed.

Lemma rstrip_prefix s : exists post, s = (rstrip s ++ post)%string.
Proof.
  induction s as [|c s [post IH]]; [by exists EmptyString|]. cbn [rstrip].
  destruct (rstrip s) as [|d r] eqn:E.
  - destruct (is_space c).
    + by exists (String c s).
    + exists post. rewrite append_cons. by f_equal.
  - exists post. rewrite append_cons. by f_equal.
Qed.

Lemma append_assoc (a b c : string) :
  ((a ++ b) ++ c)%string = (a ++ (b ++ c))%string.
Proof.
  induction a as [|x a IH]; [done|]. rewrite !append_cons. by rewrite IH.
Qed.

Lemma substring_trans a b c :
  Text.substring a b -> Text.substring b c -> Text.substring a c.
Proof.
  intros (p1 & q1 & ->) (p2 & q2 & ->).
  exists (p2 ++ p1)%string, (q1 ++ q2)%string.
  by rewrite !append_assoc.
Qed.

Lemma strip_substring s : Text.substring (strip s) s.
Proof.
  unfold strip. destruct (rstrip_prefix s) as [post Hpost].
  destruct (lstrip_suffix (rstrip s)) as [pre Hpre].
  exists pre, post. rewrite <- append_assoc, <- Hpre. exact Hpost.
Qed.

Lemma split_nonempty sep s : split sep s <> [].
Proof.
  induction s as [|c s IH]; cbn; [done|].
  destruct (Ascii.eqb c sep); [done|]. by destruct (split sep s).
Qed.

Lemma split_head_prefix sep s q qs :
  split sep s = q :: qs -> exists post, s = (q ++ post)%string.
Proof.
  revert q qs. induction s as [|c s IH]; intros q qs; cbn.
  - intros [= <- <-]. by exists EmptyString.
  - destruct (Ascii.eqb c sep).
    + intros [= <- <-]. by eexists.
    + destruct (split sep s) as [|p ps] eqn:E; [intros [= <- <-]; by exists s|].
      intros [= <- <-]. destruct (IH p ps eq_refl) as [post ->].
      by exists post.
Qed.

Lemma split_substring sep s p : p ∈ split sep s -> Text.substring p s.
Proof.
  revert p. induction s as [|c s IH]; intros p; cbn.
  - intros ->%list_elem_of_singleton. by exists EmptyString, EmptyString.
  - assert (forall q, Text.substring q s -> Text.substring q (String c s)) as Hup.
    { intros q (pre & post & ->). by exists (String c pre), post. }
    destruct (Ascii.eqb c sep).
    + intros [->|Hp]%elem_of_cons; [by exists EmptyString, (String c s)|].
      by apply Hup, IH.
    + pose proof (split_nonempty sep s) as Hne.
      destruct (split sep s) as [|q qs] eqn:E; [done|].
      intros [->|Hp]%elem_of_cons.
      * destruct (split_head_prefix sep s q qs E) as [post ->].
        by exists EmptyString, post.
      * apply Hup, IH. by right.
Qed.

Lemma split_no_sep sep s p : p ∈ split sep s -> has_char sep p = false.
Proof.
  revert p. induction s as [|c s IH]; intros p; cbn.
  - by intros ->%list_elem_of_singleton.
  - destruct (Ascii.eqb c sep) eqn:Ec.
    + intros [->|Hp]%elem_of_cons; [done | by apply IH].
    + pose proof (split_nonempty sep s) as Hne.
      destruct (split sep s) as [|q qs] eqn:E; [done|].
      intros [->|Hp]%elem_of_cons.
      * cbn. rewrite Ascii.eqb_sym, Ec. apply IH. by left.
      * apply IH. by right.
Qed.

Lemma has_char_substring c a b :
  Text.substring a b -> has_char c b = false -> has_char c a = false.
Proof.
  intros (pre & post & ->). induction pre as [|d pre IH].
  - change (EmptyString ++ a ++ post)%string with (a ++ post)%string.
    induction a as [|x a IHa]; [done|].
    rewrite append_cons. cbn [has_char].
    rewrite !orb_false_iff. intros [? ?]. auto.
  - rewrite append_cons. cbn [has_char].
    rewrite orb_false_iff. intros [_ ?]. auto.
Qed.

Lemma lower_app a b :
  Text.lower (a ++ b) = (Text.lower a ++ Text.lower b)%string.
Proof.
  induction a as [|x a IH]; [done|]. rewrite append_cons. cbn [Text.lower].
  by rewrite append_cons, IH.
Qed.

Lemma substring_ci a b : Text.substring a b -> Text.ci_substring a b.
Proof.
  intros (pre & post & ->). exists (Text.lower pre), (Text.lower post).
  by rewrite !lower_app.
Qed.

(** The pieces of a column. *)
Lemma comma_pieces_Ret col ps :
  comma_pieces col = Ret ps ->
  Forall (fun c => exists s, c = CStr s) col
  /\ forall p, p ∈ ps <-> exists s, CStr s ∈ col /\ p ∈ split "," s.
Proof.
  revert ps. induction col as [|[x|s] col IH]; intros ps; cbn; [| done |].
  - intros [= <-]. split; [constructor|]. intros p. rewrite elem_of_nil.
    split; [done|]. intros (s & Hs & _). by apply elem_of_nil in Hs.
  - destruct (comma_pieces col) as [ps'| |]; [|done..]. cbn.
    intros [= <-]. destruct (IH ps' eq_refl) as [Hall Hiff].
    split; [constructor; [by eexists | done]|].
    intros p. rewrite elem_of_app, Hiff. split.
    + intros [Hp|(s' & Hs' & Hp)]; [exists s | exists s'];
        (split; [|done]); [by left | by right].
    + intros (s' & [[= ->]|Hs']%elem_of_cons & Hp); [by left|].
      right. by exists s'.
Qed.

Lemma comma_pieces_text col :
  Forall (fun c => exists s, c = CStr s) col -> exists ps, comma_pieces col = Ret ps.
Proof.
  induction 1 as [|c col [s ->] _ [ps IH]]; cbn; [by eexists|].
  rewrite IH. cbn. by eexists.
Qed.

End Choices.

Section ChoiceTheorems.
Import Str.

Lemma nonempty_spec x : nonempty x = true <-> x <> EmptyString.
Proof. by destruct x. Qed.

Lemma cuisine_choices_inv D l :
  cuisine_choices D = Ret l ->
  has_column D "Cuisines" = true
  /\ l <> []
  /\ exists ps,
       comma_pieces (map (fun r => cell_at r "Cuisines") (rows D)) = Ret ps
       /\ l = sorted_set (List.filter nonempty (map strip ps)).
Proof.
  unfold cuisine_choices, Pandas.getitem.
  destruct (has_column D "Cuisines"); [|done]. cbn [obind].
  destruct (comma_pieces _) as [ps| |]; [|done..]. cbn [obind].
  destruct (sorted_set _) as [|x l'] eqn:E; [done|].
  intros [= <-]. split; [done|]. split; [done|]. by exists ps.
Qed.

Lemma stripped_piece_elem ps x :
  x ∈ sorted_set (List.filter nonempty (map strip ps))
  <-> x <> EmptyString /\ exists p, p ∈ ps /\ strip p = x.
Proof.
  rewrite sorted_set_elem, list_elem_of_In, filter_In, in_map_iff, nonempty_spec.
  split.
  - intros [(p & Hp & Hin) Hne]. split; [done|]. exists p.
    by rewrite list_elem_of_In.
  - intros [Hne (p & Hin & Hp)]. split; [|done]. exists p.
    by rewrite <- list_elem_of_In.
Qed.

Lemma cuisine_choices_elem D l x :
  cuisine_choices D = Ret l ->
  x ∈ l <->
    x <> EmptyString
    /\ exists r s p, r ∈ rows D /\ cuisines_of r = CStr s
                     /\ p ∈ split "," s /\ strip p = x.
Proof.
  intros H. apply cuisine_choices_inv in H as (_ & Hne & ps & Hps & ->).
  rewrite stripped_piece_elem.
  destruct (comma_pieces_Ret _ _ Hps) as [_ Hiff].
  split; intros [Hx Hex]; (split; [done|]).
  - destruct Hex as (p & Hp & Hs). apply Hiff in Hp as (s & Hin & Hp).
    apply list_elem_of_In, in_map_iff in Hin as (r & Hr & Hin).
    exists r, s, p. by rewrite list_elem_of_In.
  - destruct Hex as (r & s & p & Hr & Hc & Hp & Hs). exists p. split; [|done].
    apply Hiff. exists s. split; [|done].
    apply list_elem_of_In, in_map_iff. exists r. by rewrite <- list_elem_of_In.
Qed.

(** The cuisines offered are exactly the comma-separated pieces of the
    records' cuisines, stripped of surrounding whitespace, that are not
    empty; there is at least one. *)
Theorem offered_cuisines_are_the_stripped_pieces (D : DataFrame)
    (l : list string) :
  cuisine_choices D = Ret l ->
  l <> []
  /\ forall x, x ∈ l <->
       x <> EmptyString
       /\ exists r s p, r ∈ rows D /\ cuisines_of r = CStr s
                        /\ p ∈ split "," s /\ strip p = x.
Proof.
  intros H. split.
  - by apply cuisine_choices_inv in H as (_ & Hne & _).
  - intros x. by apply cuisine_choices_elem.
Qed.

Lemma offered_cuisines_are_the_stripped_pieces_witness :
  "north indian" ∈ ["bar food"; "chinese"; "italian"; "mughlai";
                    "north indian"; "pizza"; "unknown"]
  <-> "north indian" <> EmptyString
      /\ exists r s p, r ∈ rows zomato_table /\ cuisines_of r = CStr s
                       /\ p ∈ split "," s /\ strip p = "north indian".
Proof.
  apply (offered_cuisines_are_the_stripped_pieces zomato_table).
  vm_compute. reflexivity.
Defined.

(** The cuisines offered come in strictly ascending code-point order,
    hence without repetition, and each one is non-empty, has no
    whitespace at either end and holds no comma. *)
Theorem offered_cuisines_are_sorted_and_trimmed (D : DataFrame)
    (l : list string) :
  cuisine_choices D = Ret l ->
  Sorted str_lt l /\ NoDup l
  /\ forall x, x ∈ l ->
       x <> EmptyString /\ strip x = x /\ has_char "," x = false.
Proof.
  intros H. apply cuisine_choices_inv in H as (_ & _ & ps & Hps & ->).
  split; [apply sorted_set_sorted|]. split; [apply sorted_set_NoDup|].
  intros x Hx. apply stripped_piece_elem in Hx as (Hne & p & Hp & <-).
  split; [done|]. split; [apply strip_idem|].
  destruct (comma_pieces_Ret _ _ Hps) as [_ Hiff].
  apply Hiff in Hp as (s & _ & Hp).
  eapply has_char_substring; [apply strip_substring|].
  by eapply split_no_sep.
Qed.

Lemma offered_cuisines_are_sorted_and_trimmed_witness :
  Sorted str_lt ["bar food"; "chinese"; "italian"; "mughlai";
                 "north indian"; "pizza"; "unknown"].
Proof.
  apply (offered_cuisines_are_sorted_and_trimmed zomato_table).
  vm_compute. reflexivity.
Defined.

(** A selection of offered cuisines that hold no regular-expression
    metacharacter never filters everything away: each selected cuisine
    keeps a record that contains it; and when the table has the sort
    columns with numeric keys and the bound is zero, the table that
    [recommend] returns holds a record. *)
Theorem offered_cuisines_match_a_record (D : DataFrame) (l sel : list string)
    (m : float64) :
  cuisine_choices D = Ret l ->
  sel <> [] -> sel ⊆ l -> Forall (fun t => Re.plain t = true) sel ->
  exists D',
    cuisine_filter (mkPreferences (Some sel) (Some m)) D = Ret D'
    /\ (forall x, x ∈ sel -> exists r, r ∈ rows D' /\ tag_occurs [x] r)
    /\ rows D' <> []
    /\ (has_column D "Aggregate rating" = true -> has_column D "Votes" = true ->
        numeric_keys D = true -> Float.truthy m = false ->
        exists R, recommend_on D (mkPreferences (Some sel) (Some m)) = Ret R
                  /\ rows R <> []).
Proof.
  intros Hl Hne Hsub Hplain.
  pose proof (fun x => cuisine_choices_elem D l x Hl) as Hiff.
  apply cuisine_choices_inv in Hl as (Hc & _).
  set (D' := mkDataFrame (columns D) (List.filter (tag_occursb sel) (rows D))).
  assert (cuisine_filter (mkPreferences (Some sel) (Some m)) D = Ret D') as Hf.
  { unfold cuisine_filter. cbn [cuisines]. destruct sel as [|t ts]; [done|].
    by apply select_cuisines_plain. }
  assert (forall x, x ∈ sel -> exists r, r ∈ rows D' /\ tag_occurs [x] r) as Hkeep.
  { intros x Hx. destruct (proj1 (Hiff x) (Hsub x Hx))
      as (_ & r & s & p & Hr & Hs & Hp & Hx').
    assert (Text.ci_substring x s) as Hci.
    { apply substring_ci. eapply substring_trans; [|by eapply split_substring].
      rewrite <- Hx'. apply strip_substring. }
    exists r. split.
    - cbn [rows D']. apply list_elem_of_In, filter_In.
      split; [by apply list_elem_of_In|].
      apply tag_occursb_spec. by exists x, s.
    - exists x, s. split; [by left | done]. }
  assert (rows D' <> []) as Hrows.
  { destruct sel as [|t ts]; [done|].
    destruct (Hkeep t) as (r & Hr & _); [by left|].
    intros E. rewrite E in Hr. by apply elem_of_nil in Hr. }
  exists D'. split; [done|]. split; [done|]. split; [done|].
  intros Hr Hv Hn Ht.
  assert (rating_filter (mkPreferences (Some sel) (Some m)) D' = Ret D') as H2.
  { unfold rating_filter. cbn [min_rating]. by rewrite Ht. }
  eexists. split.
  - apply (recommend_on_intro D _ D' D' Hf H2); try done.
    unfold numeric_keys in *. eapply forallb_sublist; [|exact Hn].
    apply filter_sublist.
  - cbn [rows]. intros E. apply (f_equal length) in E.
    rewrite length_take, sort_rows_perm in E.
    destruct (rows D') as [|r0 rs]; [done|]. cbn [length] in E. lia.
Qed.

Lemma offered_cuisines_match_a_record_witness :
  exists D',
    cuisine_filter (mkPreferences (Some ["mughlai"]) (Some (Fin 0))) zomato_table
    = Ret D'
    /\ rows D' <> [].
Proof.
  destruct (offered_cuisines_match_a_record zomato_table
              ["bar food"; "chinese"; "italian"; "mughlai";
               "north indian"; "pizza"; "unknown"]
              ["mughlai"] (Fin 0)) as (D' & Hf & _ & Hne & _).
  - vm_compute. reflexivity.
  - discriminate.
  - intros x Hx. apply list_elem_of_singleton in Hx as ->.
    apply list_elem_of_In. cbn. tauto.
  - repeat constructor.
  - by exists D'.
Defined.

(** A table that was loaded and holds the cleaned columns never makes the
    choices fail on a missing column or on a cell that is not text: they
    are computed, or no piece of any record is left after stripping. *)
Theorem loaded_table_offers_its_cuisines (T : DataFrame) :
  loaded T -> T <> empty_frame ->
  (exists l, cuisine_choices T = Ret l)
  \/ (cuisine_choices T = Raise (OtherException "No cuisines found")
      /\ forall r s p, r ∈ rows T -> cuisines_of r = CStr s ->
           p ∈ split "," s -> strip p = EmptyString).
Proof.
  intros Hl Hne. destruct (loaded_inv T Hl) as [->|(Hc & _ & Hclean)]; [done|].
  assert (Forall (fun c => exists s, c = CStr s)
            (map (fun r => cell_at r "Cuisines") (rows T))) as Htext.
  { apply Forall_forall. intros c Hin.
    apply list_elem_of_In, in_map_iff in Hin as (r & <- & Hr).
    apply list_elem_of_In in Hr. eapply Forall_forall in Hclean; [|exact Hr].
    destruct Hclean as [(s & Hs & _) _]. exists s. unfold cell_at. by rewrite Hs. }
  destruct (comma_pieces_text _ Htext) as [ps Hps].
  unfold cuisine_choices, Pandas.getitem. rewrite Hc. cbn [obind].
  rewrite Hps. cbn [obind].
  destruct (sorted_set (List.filter nonempty (map strip ps))) as [|x l] eqn:E;
    [right | left; by eexists].
  split; [done|]. intros r s p Hr Hs Hp.
  destruct (strip p) as [|c q] eqn:Ep; [done|]. exfalso.
  assert (String c q ∈ sorted_set (List.filter nonempty (map strip ps))) as Hin.
  { apply stripped_piece_elem. split; [done|]. exists p. split; [|done].
    destruct (comma_pieces_Ret _ _ Hps) as [_ Hiff]. apply Hiff.
    exists s. split; [|done]. apply list_elem_of_In, in_map_iff.
    exists r. by rewrite <- list_elem_of_In. }
  rewrite E in Hin. by apply elem_of_nil in Hin.
Qed.

Lemma loaded_table_offers_its_cuisines_witness :
  (exists l, cuisine_choices zomato_table = Ret l)
  \/ (cuisine_choices zomato_table = Raise (OtherException "No cuisines found")
      /\ forall r s p, r ∈ rows zomato_table -> cuisines_of r = CStr s ->
           p ∈ split "," s -> strip p = EmptyString).
Proof.
  apply (loaded_table_offers_its_cuisines zomato_table zomato_loaded).
  discriminate.
Defined.

End ChoiceTheorems.

(* ===================================================================== *)
(** * Start-up: [__init__] and [initialize_system] *)

Section StartUp.

(** [load_data] from any store delivers what [load] states. *)
Lemma load_data_generic w path s :
  exists l s' T errs,
    load_data w path s = (Ret l, s')
    /\ load w path = (Ret T, errs)
    /\ objs s' !! l = Some T
    /\ reports s' = reports s ++ errs
    /\ (forall l0 D, objs s !! l0 = Some D -> objs s' !! l0 = Some D).
Proof.
  rewrite load_data_run, load_eq.
  assert (forall (l : list DataFrame) x l0 (D : DataFrame),
            l !! l0 = Some D -> (l ++ x) !! l0 = Some D) as Hkeep.
  { intros l x l0 D H. rewrite lookup_app_l; [done|]. by eapply lookup_lt_Some. }
  destruct (reading w path) as [D|e];
    [destruct (has_column D "Cuisines");
     [destruct (has_column D "Aggregate rating")|]|];
    eexists _, _, _, _; (split; [reflexivity|]); (split; [reflexivity|]);
    cbn [objs reports]; (split; [|split]);
    try (by rewrite app_nil_r);
    try (intros l0 D0 H; rewrite <- ?app_assoc; by apply Hkeep).
  all: try reflexivity.
  all: apply list_lookup_middle; rewrite ?length_app; cbn; lia.
Qed.

(** [__init__]: the recommender holds the table that [load] states. *)
Lemma init_run w path s :
  exists l s' T errs,
    init w path s = (Ret (mkRecommender l), s')
    /\ load w path = (Ret T, errs)
    /\ objs s' !! l = Some T
    /\ reports s' = reports s ++ errs
    /\ (forall l0 D, objs s !! l0 = Some D -> objs s' !! l0 = Some D).
Proof.
  destruct (load_data_generic w path s) as (l & s' & T & errs & Hrun & H).
  exists l, s', T, errs. split; [|exact H].
  unfold init, bind. by rewrite Hrun.
Qed.

Lemma initialize_no_data h s mf sc :
  data_exists h = false ->
  initialize_system h (mkSession s mf sc)
  = (Ret None,
     mkSession
       (mkStore (objs s)
          (reports s ++ [("Data file not found at: " ++ DATA_PATH h)%string]))
       mf sc).
Proof. intros H. unfold initialize_system, app_try. by rewrite H. Qed.

Lemma initialize_cold h s sc :
  data_exists h = true ->
  exists l s' T errs,
    load (files h) (DATA_PATH h) = (Ret T, errs)
    /\ objs s' !! l = Some T
    /\ reports s' = reports s ++ errs
    /\ (forall l0 D, objs s !! l0 = Some D -> objs s' !! l0 = Some D)
    /\ initialize_system h (mkSession s None sc)
       = match dump_fault h with
         | None =>
             (Ret (Some (l, mkRecommender l)),
              mkSession s' (Some (inl T)) (sc ++ [StInfo "Creating new model..."]))
         | Some (e, leftover) =>
             (Ret None,
              mkSession
                (mkStore (objs s')
                   (reports s' ++ [("System error: " ++ exn_str e)%string]))
                (inr <$> leftover) (sc ++ [StInfo "Creating new model..."]))
         end.
Proof.
  intros Hd.
  destruct (init_run (files h) (DATA_PATH h) s)
    as (l & s' & T & errs & Hrun & Hload & Hl & Hrep & Hkeep).
  exists l, s', T, errs. repeat (split; [done|]).
  unfold initialize_system, app_try. rewrite Hd. cbn [negb].
  unfold app_bind at 1. unfold model_exists at 1. cbn [model_file].
  rewrite bool_decide_false by (by intros [? ?]). cbn [negb].
  unfold app_bind at 1. unfold show at 1. cbn [mem model_file screen].
  unfold app_bind at 1. unfold in_mem at 1. cbn [mem model_file screen].
  rewrite Hrun.
  unfold joblib_dump, app_bind, in_mem, deref. cbn [mem model_file screen df].
  rewrite Hl. destruct (dump_fault h) as [[e leftover]|]; reflexivity.
Qed.

Lemma initialize_warm h s D sc :
  data_exists h = true ->
  initialize_system h (mkSession s (Some (inl D)) sc)
  = (Ret (Some (length (objs s), mkRecommender (length (objs s)))),
     mkSession (mkStore (objs s ++ [D]) (reports s)) (Some (inl D)) sc).
Proof.
  intros Hd. unfold initialize_system, app_try. rewrite Hd. cbn [negb].
  unfold app_bind at 1. unfold model_exists at 1. cbn [model_file].
  rewrite bool_decide_true by (by eexists). reflexivity.
Qed.

Lemma initialize_corrupt h s e sc :
  data_exists h = true ->
  initialize_system h (mkSession s (Some (inr e)) sc)
  = (Ret None,
     mkSession
       (mkStore (objs s) (reports s ++ [("System error: " ++ exn_str e)%string]))
       (Some (inr e)) sc).
Proof.
  intros Hd. unfold initialize_system, app_try. rewrite Hd. cbn [negb].
  unfold app_bind at 1. unfold model_exists at 1. cbn [model_file].
  rewrite bool_decide_true by (by eexists). reflexivity.
Qed.

End StartUp.

(** [initialize_system] always returns.  It returns no recommender
    exactly when the data file does not exist, when the model file is
    absent and writing it goes wrong, or when the model file cannot be
    loaded; an error is then reported.  A recommender that is returned
    comes with its own table; objects already in the store are kept, and
    with the data file missing neither the model file nor the objects are
    touched, a valid model file notwithstanding. *)
Theorem initialize_system_never_raises (h : host) (t : session) :
  exists r t',
    initialize_system h t = (Ret r, t')
    /\ (r = None <->
        data_exists h = false
        \/ (model_file t = None /\ dump_fault h <> None)
        \/ (exists e, model_file t = Some (inr e)))
    /\ (r = None -> exists before msg, reports (mem t') = before ++ [msg])
    /\ (forall d rec, r = Some (d, rec) ->
          d = df rec /\ is_Some (objs (mem t') !! d))
    /\ (forall l D, objs (mem t) !! l = Some D -> objs (mem t') !! l = Some D)
    /\ (data_exists h = false ->
        model_file t' = model_file t /\ objs (mem t') = objs (mem t)).
Proof.
  destruct t as [s mf sc]. destruct (data_exists h) eqn:Hd.
  - destruct mf as [[D|e]|].
    + rewrite initialize_warm by done. eexists _, _. split; [reflexivity|].
      cbn [mem model_file objs reports]. split; [|split; [|split; [|split]]].
      * split; [done|]. intros [?|[[? _]|[e ?]]]; done.
      * done.
      * intros d rec [= <- <-]. split; [done|].
        apply lookup_lt_is_Some. rewrite length_app. cbn. lia.
      * intros l D0 H. rewrite lookup_app_l; [done|]. by eapply lookup_lt_Some.
      * done.
    + rewrite initialize_corrupt by done. eexists _, _. split; [reflexivity|].
      cbn [mem model_file objs reports]. split; [|split; [|split; [|split]]];
        try done.
      * split; [|done]. intros _. right. right. by exists e.
      * intros _. by eexists _, _.
    + destruct (initialize_cold h s sc Hd)
        as (l & s' & T & errs & Hload & Hl & Hrep & Hkeep & ->).
      destruct (dump_fault h) as [[e leftover]|] eqn:Hf;
        eexists _, _; (split; [reflexivity|]);
        cbn [mem model_file objs reports];
        (split; [|split; [|split; [|split]]]); try done.
      * split; [|done]. intros _. right. left. done.
      * intros _. by eexists _, _.
      * split; [done|]. intros [?|[[_ ?]|[e ?]]]; done.
      * intros d rec [= <- <-]. split; [done|]. by eexists.
  - rewrite initialize_no_data by done. eexists _, _. split; [reflexivity|].
    cbn [mem model_file objs reports]. split; [|split; [|split; [|split]]];
      try done.
    + split; [|done]. intros _. by left.
    + intros _. by eexists _, _.
Qed.

(** The first start, with the data file there and no model file yet,
    loads the table, returns a recommender that holds it and writes it to
    the model file; a load that failed is written like any other, as the
    empty table. *)
Theorem first_start_caches_what_load_gives (h : host) (t : session) :
  data_exists h = true -> model_file t = None -> dump_fault h = None ->
  exists d t' T errs,
    load (files h) (DATA_PATH h) = (Ret T, errs)
    /\ initialize_system h t = (Ret (Some (d, mkRecommender d)), t')
    /\ objs (mem t') !! d = Some T
    /\ model_file t' = Some (inl T)
    /\ reports (mem t') = reports (mem t) ++ errs
    /\ screen t' = screen t ++ [StInfo "Creating new model..."]
    /\ (forall e, reading (files h) (DATA_PATH h) = inr e -> T = empty_frame).
Proof.
  destruct t as [s mf sc]. cbn [model_file mem screen]. intros Hd -> Hf.
  destruct (initialize_cold h s sc Hd)
    as (l & s' & T & errs & Hload & Hl & Hrep & Hkeep & Hrun).
  rewrite Hf in Hrun. eexists l, _, T, errs.
  split; [done|]. split; [exact Hrun|]. cbn [mem model_file screen].
  repeat (split; [done|]).
  intros e He. rewrite load_eq, He in Hload. by injection Hload as <- _.
Qed.

Lemma first_start_caches_what_load_gives_witness :
  exists d t',
    initialize_system zomato_host fresh_session
    = (Ret (Some (d, mkRecommender d)), t')
    /\ model_file t' = Some (inl zomato_table).
Proof.
  destruct (first_start_caches_what_load_gives zomato_host fresh_session
              eq_refl eq_refl eq_refl)
    as (d & t' & T & errs & Hload & Hrun & _ & Hm & _).
  exists d, t'. split; [exact Hrun|]. rewrite Hm.
  assert (load (files zomato_host) (DATA_PATH zomato_host)
          = (Ret zomato_table, [])) as E by (vm_compute; reflexivity).
  rewrite E in Hload. by injection Hload as <- _.
Defined.

(** A later start returns the table of the model file and does not look
    at the data: whatever the data file holds by then, the recommender
    holds the table that the first start loaded, and nothing is reported,
    shown or written. *)
Theorem later_starts_return_the_cached_table (h h' : host) (t t2 : session) :
  data_exists h = true -> model_file t = None -> dump_fault h = None ->
  data_exists h' = true ->
  model_file t2 = model_file (snd (initialize_system h t)) ->
  exists d T t3,
    fst (load (files h) (DATA_PATH h)) = Ret T
    /\ initialize_system h' t2 = (Ret (Some (d, mkRecommender d)), t3)
    /\ objs (mem t3) !! d = Some T
    /\ model_file t3 = model_file t2
    /\ reports (mem t3) = reports (mem t2)
    /\ screen t3 = screen t2.
Proof.
  destruct t as [s mf sc], t2 as [s2 mf2 sc2]. cbn [model_file mem screen].
  intros Hd -> Hf Hd'.
  destruct (initialize_cold h s sc Hd)
    as (l & s' & T & errs & Hload & _ & _ & _ & Hrun).
  rewrite Hf in Hrun. rewrite Hrun. cbn [snd model_file]. intros ->.
  rewrite initialize_warm by done.
  eexists _, T, _. split; [by rewrite Hload|]. split; [reflexivity|].
  cbn [mem model_file screen objs reports]. split; [|done].
  by apply list_lookup_middle.
Qed.

Lemma later_starts_return_the_cached_table_witness :
  exists d t3,
    initialize_system
      (mkHost infinity_world "cleaned_zomato.csv"
         "restaurant_recommender_model.joblib" true None (fun _ => None))
      (snd (initialize_system zomato_host fresh_session))
    = (Ret (Some (d, mkRecommender d)), t3)
    /\ objs (mem t3) !! d = Some zomato_table.
Proof.
  destruct (later_starts_return_the_cached_table zomato_host
              (mkHost infinity_world "cleaned_zomato.csv"
                 "restaurant_recommender_model.joblib" true None (fun _ => None))
              fresh_session (snd (initialize_system zomato_host fresh_session))
              eq_refl eq_refl eq_refl eq_refl eq_refl)
    as (d & T & t3 & Hload & Hrun & Hl & _).
  exists d, t3. split; [exact Hrun|]. rewrite Hl.
  assert (fst (load (files zomato_host) (DATA_PATH zomato_host))
          = Ret zomato_table) as E by (vm_compute; reflexivity).
  rewrite E in Hload. by injection Hload as <-.
Defined.

(* ===================================================================== *)
(** * The button and the script *)

Section Button.

Lemma show_card_cases h R r s mf sc :
  show_card h R r (mkSession s mf sc) =
    if has_column R "Restaurant Name" then
      match card_fault h r with
      | Some e => (Raise e, mkSession s mf (sc ++ [StExpander r]))
      | None => (Ret tt, mkSession s mf (sc ++ [StExpander r]))
      end
    else (Raise (KeyError "Restaurant Name"), mkSession s mf sc).
Proof.
  unfold show_card. destruct (has_column R "Restaurant Name"); [|done].
  unfold app_bind, show. cbn [mem model_file screen].
  by destruct (card_fault h r).
Qed.

Lemma for_each_cards_ok h R rs s mf sc :
  has_column R "Restaurant Name" = true ->
  (forall r, r ∈ rs -> card_fault h r = None) ->
  for_each (show_card h R) rs (mkSession s mf sc)
  = (Ret tt, mkSession s mf (sc ++ map StExpander rs)).
Proof.
  intros Hn. revert sc. induction rs as [|r rs IH]; intros sc Hf;
    cbn [for_each map].
  - unfold app_ret. by rewrite app_nil_r.
  - unfold app_bind at 1. rewrite show_card_cases, Hn.
    rewrite (Hf r) by (by left).
    rewrite IH by (intros r' Hr'; apply Hf; by right).
    by rewrite <- app_assoc.
Qed.

Lemma for_each_cards_frame h R rs t o t' :
  for_each (show_card h R) rs t = (o, t') ->
  o <> Unmodelled /\ mem t' = mem t /\ model_file t' = model_file t.
Proof.
  revert t. induction rs as [|r rs IH]; intros [s mf sc]; cbn [for_each].
  - by intros [= <- <-].
  - unfold app_bind at 1. rewrite show_card_cases.
    destruct (has_column R "Restaurant Name"); [|by intros [= <- <-]].
    destruct (card_fault h r) as [e|]; [by intros [= <- <-]|].
    intros H. by apply IH in H as (? & -> & ->).
Qed.

Lemma for_each_cards_noname h R r rs t :
  has_column R "Restaurant Name" = false ->
  for_each (show_card h R) (r :: rs) t = (Raise (KeyError "Restaurant Name"), t).
Proof.
  intros Hn. cbn [for_each]. unfold app_bind, show_card. by rewrite Hn.
Qed.

(** A call of [recommend] on a store, against the value it computes. *)
Lemma recommend_run_cases rec P s T :
  objs s !! df rec = Some T ->
  exists o s1,
    recommend rec P s = (o, s1) /\ grows s s1
    /\ match recommend_on T P with
       | Ret R => exists l, o = Ret l /\ objs s1 !! l = Some R
       | Raise e => o = Raise e
       | Unmodelled => o = Unmodelled
       end.
Proof.
  intros HT. pose proof (recommend_value rec P s T HT) as Hv.
  destruct (recommend rec P s) as [o s1] eqn:Hrun. exists o, s1.
  destruct (recommend_step (length (objs s)) rec P s o s1) as [Hg Hl];
    [lia | done |].
  split; [done|]. split; [done|]. rewrite <- Hv. cbn.
  destruct o as [l|e|]; [|done..].
  destruct (Hl l eq_refl) as [_ Hlt].
  apply lookup_lt_is_Some in Hlt as [R HR]. rewrite HR. by exists l.
Qed.

Lemma returned_frame_not_empty T P R :
  recommend_on T P = Ret R ->
  columns R = columns T /\ df_empty R = bool_decide (rows R = []).
Proof.
  intros HR. destruct (recommend_on_sub T P R HR) as [Hc _]. split; [done|].
  apply recommend_on_Ret in HR as (D1 & D2 & _ & _ & _ & Hv & _ & ->).
  unfold df_empty, has_column in *. cbn [columns rows] in *.
  apply bool_decide_eq_true in Hv.
  destruct (columns D2) as [|c cs]; [by apply elem_of_nil in Hv|].
  by destruct (take 10 _).
Qed.

(** What the button does, case by case. *)
Lemma find_restaurants_run h rec x xs m s mf sc T :
  objs s !! df rec = Some T ->
  exists s1,
    grows s s1
    /\ find_restaurants h rec (x :: xs) m (mkSession s mf sc) =
       match recommend_on T (mkPreferences (Some (x :: xs)) (Some m)) with
       | Raise e =>
           (Ret tt,
            mkSession
              (mkStore (objs s1)
                 (reports s1 ++ [("Recommendation error: " ++ exn_str e)%string]))
              mf sc)
       | Unmodelled => (Unmodelled, mkSession s1 mf sc)
       | Ret R =>
           if df_empty R then
             (Ret tt,
              mkSession s1 mf (sc ++ [StInfo "No restaurants match your criteria"]))
           else
             match for_each (show_card h R) (rows R)
                     (mkSession s1 mf (sc ++ [StFound (length (rows R))])) with
             | (Raise e, t') =>
                 (Ret tt,
                  mkSession
                    (mkStore (objs (mem t'))
                       (reports (mem t')
                        ++ [("Recommendation error: " ++ exn_str e)%string]))
                    (model_file t') (screen t'))
             | r => r
             end
       end.
Proof.
  intros HT.
  destruct (recommend_run_cases rec (mkPreferences (Some (x :: xs)) (Some m)) s T HT)
    as (o & s1 & Hrun & Hg & Hcase).
  exists s1. split; [done|].
  unfold find_restaurants, app_try. unfold app_bind at 1. unfold in_mem at 1.
  cbn [mem model_file screen]. rewrite Hrun.
  destruct (recommend_on T _) as [R|e|].
  - destruct Hcase as (l & -> & Hl).
    unfold app_bind at 1. unfold in_mem at 1, deref at 1.
    cbn [mem model_file screen]. rewrite Hl.
    destruct (df_empty R); [reflexivity|].
    unfold app_bind at 1. unfold show at 1. cbn [mem model_file screen].
    destruct (for_each _ _ _) as [[[]|e|] t']; reflexivity.
  - subst o. reflexivity.
  - subst o. reflexivity.
Qed.

End Button.

Section ButtonTheorems.

Lemma find_restaurants_frame h rec sel m t T o t' :
  objs (mem t) !! df rec = Some T ->
  find_restaurants h rec sel m t = (o, t') ->
  (forall e, o <> Raise e)
  /\ model_file t' = model_file t
  /\ (forall l D, objs (mem t) !! l = Some D -> objs (mem t') !! l = Some D).
Proof.
  destruct t as [s mf sc]. cbn [mem model_file]. intros HT.
  destruct sel as [|x xs].
  { cbn. unfold show. by intros [= <- <-]. }
  destruct (find_restaurants_run h rec x xs m s mf sc T HT) as (s1 & Hg & ->).
  assert (forall l D, objs s !! l = Some D -> objs s1 !! l = Some D) as Hkeep
      by (intros l D; by apply grows_lookup).
  destruct (recommend_on T _) as [R|e|].
  - destruct (df_empty R); [by intros [= <- <-]|].
    destruct (for_each _ _ _) as [o1 t1] eqn:Hcards.
    apply for_each_cards_frame in Hcards as (Hu & Hm & Hf).
    cbn [mem model_file] in Hm, Hf.
    destruct o1 as [[]|e|]; [| |done]; intros [= <- <-];
      cbn [mem model_file objs]; rewrite ?Hm, ?Hf; done.
  - by intros [= <- <-].
  - by intros [= <- <-].
Qed.

(** On tags without special characters and a table whose sort keys are
    numbers, every statement of [recommend] is interpreted: the call
    returns a table or raises. *)
Lemma recommend_on_modelled T P :
  (forall tags, cuisines P = Some tags ->
     Forall (fun c => Re.plain c = true) tags) ->
  numeric_keys T = true ->
  recommend_on T P <> Unmodelled.
Proof.
  intros Hplain Hn. rewrite recommend_on_eq. unfold pipeline.
  destruct (cuisine_filter P T) as [D1|e|] eqn:H1; [|done|].
  2:{ exfalso. unfold cuisine_filter in H1.
      destruct (cuisines P) as [[|c cs]|] eqn:Hc; [done| |done].
      rewrite select_cuisines_eq in H1 by done.
      destruct (has_column T "Cuisines"); [|done].
      by rewrite (compile_all_plain _ (plain_lower_all _ (Hplain _ eq_refl)))
        in H1. }
  cbn [obind].
  destruct (rating_filter P D1) as [D2|e|] eqn:H2; [|done|].
  2:{ exfalso. unfold rating_filter in H2.
      destruct (min_rating P) as [m|]; [|done].
      destruct (Float.truthy m); [|done].
      rewrite select_rating_eq in H2.
      destruct (has_column D1 "Aggregate rating"); [|done].
      by destruct (forallb _ (rows D1)). }
  cbn [obind].
  apply cuisine_filter_Ret in H1 as [_ Hs1].
  apply rating_filter_Ret in H2 as [_ Hs2].
  assert (numeric_keys D2 = true) as Hn2.
  { unfold numeric_keys in *. eapply forallb_sublist; [|exact Hn].
    by transitivity (rows D1). }
  unfold Pandas.sort_values_desc, sort_keys. cbn [List.find].
  destruct (has_column D2 "Aggregate rating"); [|done].
  destruct (has_column D2 "Votes"); [|done]. cbn [negb].
  unfold numeric_keys, sort_keys in Hn2. by rewrite Hn2.
Qed.

(** Whatever [recommend] does, return or raise, the button ends
    normally. *)
Lemma find_restaurants_ends h rec sel m t T :
  objs (mem t) !! df rec = Some T ->
  recommend_on T (mkPreferences (Some sel) (Some m)) <> Unmodelled ->
  exists t', find_restaurants h rec sel m t = (Ret tt, t').
Proof.
  destruct t as [s mf sc]. cbn [mem]. intros HT Hm.
  destruct sel as [|x xs].
  { cbn. unfold show. by eexists. }
  destruct (find_restaurants_run h rec x xs m s mf sc T HT) as (s1 & _ & ->).
  destruct (recommend_on T _) as [R|e|]; [| by eexists | done].
  destruct (df_empty R); [by eexists|].
  destruct (for_each _ _ _) as [o1 t1] eqn:Hcards.
  apply for_each_cards_frame in Hcards as (Hu & _ & _).
  destruct o1 as [[]|e|]; [by eexists.. | done].
Qed.

(** The button never lets an exception out.  Whenever the call of
    [recommend] returns or raises, and so for every selection of tags
    without special characters on a table whose ratings and votes are
    numbers, the button ends normally: an exception of [recommend] or of
    drawing the cards is caught.  In every run it leaves the model file
    and every object of the store, the recommender's table among them, as
    they were; with no cuisine selected it shows one warning and does
    nothing else. *)
Theorem button_never_raises_and_keeps_the_table (h : host)
    (rec : RestaurantRecommender) (sel : list string) (m : float64)
    (t : session) (T : DataFrame) (o : outcome unit) (t' : session) :
  objs (mem t) !! df rec = Some T ->
  find_restaurants h rec sel m t = (o, t') ->
  (Forall (fun c => Re.plain c = true) sel -> numeric_keys T = true ->
   o = Ret tt)
  /\ (recommend_on T (mkPreferences (Some sel) (Some m)) <> Unmodelled ->
      o = Ret tt)
  /\ (forall e, o <> Raise e)
  /\ model_file t' = model_file t
  /\ objs (mem t') !! df rec = Some T
  /\ (forall l D, objs (mem t) !! l = Some D -> objs (mem t') !! l = Some D)
  /\ (sel = [] ->
      t' = mkSession (mem t) (model_file t)
             (screen t ++ [StWarning "Please select at least one cuisine"])).
Proof.
  intros HT Hrun.
  destruct (find_restaurants_frame h rec sel m t T o t' HT Hrun)
    as (Hraise & Hmf & Hkeep).
  assert (recommend_on T (mkPreferences (Some sel) (Some m)) <> Unmodelled ->
          o = Ret tt) as Hends.
  { intros Hm. destruct (find_restaurants_ends h rec sel m t T HT Hm)
      as (t2 & Hrun2). rewrite Hrun2 in Hrun. by injection Hrun as <- _. }
  split.
  { intros Hplain Hn. apply Hends. apply recommend_on_modelled; [|done].
    cbn [cuisines]. by intros tags [= <-]. }
  split; [done|]. split; [done|]. split; [done|].
  split; [by apply Hkeep|]. split; [done|].
  intros ->. cbn in Hrun. unfold show in Hrun. by injection Hrun as _ <-.
Qed.

Lemma button_never_raises_and_keeps_the_table_witness :
  fst (find_restaurants zomato_host (mkRecommender 0) ["pizza"] (Fin 3)
         (mkSession (mkStore [zomato_table] []) None []))
  = Ret tt.
Proof.
  refine (proj1 (button_never_raises_and_keeps_the_table zomato_host
                   (mkRecommender 0) ["pizza"] (Fin 3)
                   (mkSession (mkStore [zomato_table] []) None []) zomato_table
                   _ _ eq_refl _) _ _).
  - apply surjective_pairing.
  - repeat constructor.
  - reflexivity.
Defined.

(** When [recommend] raises, the button ends normally, shows nothing, and
    reports one error that starts with "Recommendation error: "; when the
    exception is the [KeyError] of a missing column, the report is that
    text followed by the name of the column in quotes. *)
Theorem button_reports_a_failed_recommendation (h : host)
    (rec : RestaurantRecommender) (sel : list string) (m : float64)
    (t : session) (T : DataFrame) (e : exn) :
  objs (mem t) !! df rec = Some T -> sel <> [] ->
  recommend_on T (mkPreferences (Some sel) (Some m)) = Raise e ->
  exists t' msg,
    find_restaurants h rec sel m t = (Ret tt, t')
    /\ screen t' = screen t
    /\ reports (mem t')
       = reports (mem t) ++ [("Recommendation error: " ++ msg)%string]
    /\ (forall k, e = KeyError k -> msg = ("'" ++ k ++ "'")%string).
Proof.
  destruct t as [s mf sc]. cbn [mem screen]. intros HT Hne HR.
  destruct sel as [|x xs]; [done|].
  destruct (find_restaurants_run h rec x xs m s mf sc T HT) as (s1 & Hg & ->).
  rewrite HR. exists (mkSession
                        (mkStore (objs s1)
                           (reports s1
                            ++ [("Recommendation error: " ++ exn_str e)%string]))
                        mf sc), (exn_str e).
  split; [reflexivity|]. cbn [mem screen reports].
  split; [done|]. destruct Hg as [_ ->]. split; [done|]. by intros k ->.
Qed.

Lemma button_reports_a_failed_recommendation_witness :
  exists t',
    find_restaurants zomato_host (mkRecommender 0) ["chinese"] (Fin 3)
      (mkSession (mkStore [no_votes_table] []) None []) = (Ret tt, t')
    /\ screen t' = []
    /\ reports (mem t') = ["Recommendation error: 'Votes'"].
Proof.
  destruct (button_reports_a_failed_recommendation zomato_host
              (mkRecommender 0) ["chinese"] (Fin 3)
              (mkSession (mkStore [no_votes_table] []) None [])
              no_votes_table (KeyError "Votes"))
    as (t' & msg & Hrun & Hsc & Hrep & Hmsg).
  - reflexivity.
  - discriminate.
  - vm_compute. reflexivity.
  - exists t'. split; [exact Hrun|]. split; [exact Hsc|].
    rewrite Hrep, (Hmsg "Votes" eq_refl). reflexivity.
Defined.

(** When [recommend] returns, the button shows "No restaurants match" for
    a table without records; otherwise, on a table with the name column
    and cards that draw, it shows the number of records found, at most
    10, and then one card per record in rank order; nothing is reported. *)
Theorem button_shows_the_ranked_records (h : host)
    (rec : RestaurantRecommender) (sel : list string) (m : float64)
    (t : session) (T R : DataFrame) :
  objs (mem t) !! df rec = Some T -> sel <> [] ->
  recommend_on T (mkPreferences (Some sel) (Some m)) = Ret R ->
  exists t',
    find_restaurants h rec sel m t = (Ret tt, t')
    /\ (rows R = [] ->
        screen t' = screen t ++ [StInfo "No restaurants match your criteria"]
        /\ reports (mem t') = reports (mem t))
    /\ (rows R <> [] -> has_column T "Restaurant Name" = true ->
        (forall r, r ∈ rows R -> card_fault h r = None) ->
        screen t'
        = screen t ++ StFound (length (rows R)) :: map StExpander (rows R)
        /\ length (rows R) <= 10
        /\ reports (mem t') = reports (mem t)).
Proof.
  destruct t as [s mf sc]. cbn [mem screen]. intros HT Hne HR.
  destruct sel as [|x xs]; [done|].
  destruct (find_restaurants_run h rec x xs m s mf sc T HT) as (s1 & Hg & ->).
  rewrite HR. destruct (returned_frame_not_empty _ _ _ HR) as [Hcols ->].
  pose proof (proj2 Hg) as Hrep.
  destruct (rows R) as [|r0 rs] eqn:Hrows.
  - rewrite bool_decide_true by done. eexists. split; [reflexivity|].
    cbn [mem screen]. split; [done|]. by intros ?.
  - rewrite bool_decide_false by done.
    destruct (has_column T "Restaurant Name") eqn:Hn.
    + destruct (for_each _ _ _) as [o1 t1] eqn:Hcards.
      pose proof (for_each_cards_frame _ _ _ _ _ _ Hcards) as (Hu & Hm & _).
      cbn [mem] in Hm.
      assert (has_column R "Restaurant Name" = true) as HnR
          by (unfold has_column in *; by rewrite Hcols).
      destruct o1 as [[]|e|]; [| |done].
      * eexists. split; [reflexivity|]. split; [done|].
        intros _ _ Hfault.
        rewrite (for_each_cards_ok h R (r0 :: rs) s1 mf _ HnR Hfault) in Hcards.
        injection Hcards as <-. cbn [mem screen].
        split; [by rewrite <- app_assoc|]. split; [|done].
        apply recommend_on_Ret in HR as (D1 & D2 & _ & _ & _ & _ & _ & ->).
        cbn [rows] in Hrows. rewrite <- Hrows, length_take. lia.
      * eexists. split; [reflexivity|]. split; [done|].
        intros _ _ Hfault.
        rewrite (for_each_cards_ok h R (r0 :: rs) s1 mf _ HnR Hfault) in Hcards.
        discriminate.
    + assert (has_column R "Restaurant Name" = false) as HnR
          by (unfold has_column in *; by rewrite Hcols).
      rewrite (for_each_cards_noname h R r0 rs _ HnR).
      eexists. split; [reflexivity|]. split; [done|]. done.
Qed.

Lemma button_shows_the_ranked_records_witness :
  exists t',
    find_restaurants zomato_host (mkRecommender 0) ["pizza"; "indian"] (Fin 3)
      (mkSession (mkStore [zomato_table] []) None []) = (Ret tt, t')
    /\ screen t'
       = [ StFound 2;
           StExpander (restaurant (CStr "Darbar") (CStr "north indian, mughlai")
                         (CNum (Fin (45 # 10))) (CNum (Fin 5)));
           StExpander (restaurant (CStr "Roma") (CStr "italian, pizza")
                         (CNum (Fin (42 # 10))) (CNum (Fin 100))) ].
Proof.
  destruct (button_shows_the_ranked_records zomato_host (mkRecommender 0)
              ["pizza"; "indian"] (Fin 3)
              (mkSession (mkStore [zomato_table] []) None []) zomato_table
              (mkDataFrame zomato_columns
                 [ restaurant (CStr "Darbar") (CStr "north indian, mughlai")
                     (CNum (Fin (45 # 10))) (CNum (Fin 5));
                   restaurant (CStr "Roma") (CStr "italian, pizza")
                     (CNum (Fin (42 # 10))) (CNum (Fin 100)) ]))
    as (t' & Hrun & _ & Hshown).
  - reflexivity.
  - discriminate.
  - vm_compute. reflexivity.
  - exists t'. split; [exact Hrun|].
    destruct Hshown as (-> & _); [discriminate | reflexivity | done | reflexivity].
Defined.

(** On a table without the [Restaurant Name] column a result that holds
    records is announced as found and then reported as an error: the page
    shows the count and no card, and the report names the missing
    column. *)
Theorem button_announces_then_fails_without_names (h : host)
    (rec : RestaurantRecommender) (sel : list string) (m : float64)
    (t : session) (T R : DataFrame) :
  objs (mem t) !! df rec = Some T -> sel <> [] ->
  recommend_on T (mkPreferences (Some sel) (Some m)) = Ret R ->
  rows R <> [] -> has_column T "Restaurant Name" = false ->
  exists t',
    find_restaurants h rec sel m t = (Ret tt, t')
    /\ screen t' = screen t ++ [StFound (length (rows R))]
    /\ reports (mem t')
       = reports (mem t) ++ ["Recommendation error: 'Restaurant Name'"].
Proof.
  destruct t as [s mf sc]. cbn [mem screen]. intros HT Hne HR Hrows Hn.
  destruct sel as [|x xs]; [done|].
  destruct (find_restaurants_run h rec x xs m s mf sc T HT) as (s1 & Hg & ->).
  rewrite HR. destruct (returned_frame_not_empty _ _ _ HR) as [Hcols ->].
  rewrite bool_decide_false by done.
  assert (has_column R "Restaurant Name" = false) as HnR
      by (unfold has_column in *; by rewrite Hcols).
  destruct (rows R) as [|r0 rs] eqn:E; [done|].
  rewrite (for_each_cards_noname h R r0 rs _ HnR).
  eexists. split; [reflexivity|]. cbn [mem screen reports].
  split; [done|]. destruct Hg as [_ ->]. done.
Qed.

End ButtonTheorems.

Lemma button_announces_then_fails_without_names_witness :
  exists t',
    find_restaurants zomato_host (mkRecommender 0) ["thai"] (Fin 3)
      (mkSession (mkStore [nameless_table] []) None []) = (Ret tt, t')
    /\ screen t' = [StFound 1]
    /\ reports (mem t') = ["Recommendation error: 'Restaurant Name'"].
Proof.
  apply (button_announces_then_fails_without_names zomato_host (mkRecommender 0)
           ["thai"] (Fin 3) (mkSession (mkStore [nameless_table] []) None [])
           nameless_table nameless_table).
  - reflexivity.
  - discriminate.
  - vm_compute. reflexivity.
  - discriminate.
  - reflexivity.
Defined.

Section Script.

Lemma comma_pieces_modelled col : comma_pieces col <> Unmodelled.
Proof.
  induction col as [|[x|s] col IH]; cbn; [done..|].
  by destruct (comma_pieces col).
Qed.

Lemma cuisine_choices_modelled D : cuisine_choices D <> Unmodelled.
Proof.
  unfold cuisine_choices, Pandas.getitem.
  destruct (has_column D "Cuisines"); [|done]. cbn [obind].
  pose proof (comma_pieces_modelled (map (fun r => cell_at r "Cuisines") (rows D))).
  destruct (comma_pieces _); [|done..]. cbn [obind].
  by destruct (Str.sorted_set _).
Qed.

(** Why the choices fail, when they fail. *)
Lemma cuisine_choices_Raise D e :
  cuisine_choices D = Raise e ->
  (e = KeyError "Cuisines" /\ has_column D "Cuisines" = false)
  \/ (e = TypeError "'float' object is not iterable"
      /\ exists r x, r ∈ rows D /\ cuisines_of r = CNum x)
  \/ (e = OtherException "No cuisines found"
      /\ forall r s p, r ∈ rows D -> cuisines_of r = CStr s ->
           p ∈ Str.split "," s -> Str.strip p = EmptyString).
Proof.
  unfold cuisine_choices, Pandas.getitem.
  destruct (has_column D "Cuisines"); [|intros [= <-]; by left]. cbn [obind].
  destruct (comma_pieces _) as [ps|e'|] eqn:Hps; cbn [obind].
  - destruct (Str.sorted_set _) as [|x l] eqn:E; [|done].
    intros [= <-]. right. right. split; [done|]. intros r s p Hr Hs Hp.
    destruct (Str.strip p) as [|c q] eqn:Ep; [done|]. exfalso.
    assert (String c q ∈ Str.sorted_set
              (List.filter Str.nonempty (map Str.strip ps))) as Hin.
    { apply stripped_piece_elem. split; [done|]. exists p. split; [|done].
      destruct (comma_pieces_Ret _ _ Hps) as [_ Hiff]. apply Hiff.
      exists s. split; [|done]. apply list_elem_of_In, in_map_iff.
      exists r. by rewrite <- list_elem_of_In. }
    rewrite E in Hin. by apply elem_of_nil in Hin.
  - intros [= <-]. right. left.
    revert Hps. generalize (rows D) as rs.
    induction rs as [|r rs IH]; cbn; [done|].
    destruct (cell_at r "Cuisines") as [x|s] eqn:Ec.
    + intros [= <-]. split; [done|]. exists r, x. split; [by left | done].
    + destruct (comma_pieces _) as [ps|e0|] eqn:E; cbn; [done| |done].
      intros [= ->]. destruct (IH eq_refl) as (He & r' & x & Hr' & Hx).
      split; [done|]. exists r', x. split; [by right | done].
  - done.
Qed.

Lemma all_cuisines_run d s mf sc D :
  objs s !! d = Some D ->
  all_cuisines d (mkSession s mf sc) =
    match cuisine_choices D with
    | Ret l => (Ret l, mkSession s mf sc)
    | Raise e =>
        (Ret default_cuisines,
         mkSession s mf
           (sc ++ [StWarning ("Using default cuisines: " ++ exn_str e)%string]))
    | Unmodelled => (Unmodelled, mkSession s mf sc)
    end.
Proof.
  intros Hd. unfold all_cuisines, app_try, app_bind, in_mem, deref, lift.
  cbn [mem model_file screen]. rewrite Hd.
  by destruct (cuisine_choices D).
Qed.

End Script.

(** The sidebar never fails to offer cuisines: they are the choices
    computed from the table, with nothing shown, or, when the table has
    no [Cuisines] column, holds a cell that is not text, or has no piece
    left after stripping, the four default cuisines with a warning that
    names the failure; the table and the model file are not touched. *)
Theorem sidebar_always_offers_cuisines (d : loc) (t : session) (D : DataFrame) :
  objs (mem t) !! d = Some D ->
  exists l shown,
    all_cuisines d t
    = (Ret l, mkSession (mem t) (model_file t) (screen t ++ shown))
    /\ l <> []
    /\ ((cuisine_choices D = Ret l /\ shown = [])
        \/ exists e,
             cuisine_choices D = Raise e
             /\ l = default_cuisines
             /\ shown = [StWarning ("Using default cuisines: " ++ exn_str e)%string]
             /\ ((e = KeyError "Cuisines" /\ has_column D "Cuisines" = false)
                 \/ (e = TypeError "'float' object is not iterable"
                     /\ exists r x, r ∈ rows D /\ cuisines_of r = CNum x)
                 \/ (e = OtherException "No cuisines found"
                     /\ forall r s p, r ∈ rows D -> cuisines_of r = CStr s ->
                          p ∈ Str.split "," s -> Str.strip p = EmptyString))).
Proof.
  destruct t as [s mf sc]. cbn [mem model_file screen]. intros Hd.
  rewrite (all_cuisines_run d s mf sc D Hd).
  pose proof (cuisine_choices_modelled D) as Hm.
  destruct (cuisine_choices D) as [l|e|] eqn:E; [| |done].
  - exists l, []. rewrite app_nil_r. split; [done|].
    split; [by apply cuisine_choices_inv in E as (_ & ? & _)|]. by left.
  - eexists _, _. split; [reflexivity|]. split; [done|]. right.
    exists e. repeat (split; [done|]). by apply cuisine_choices_Raise.
Qed.

Lemma sidebar_always_offers_cuisines_witness :
  exists l shown,
    all_cuisines 0 (mkSession (mkStore [no_votes_table] []) None [])
    = (Ret l, mkSession (mkStore [no_votes_table] []) None ([] ++ shown))
    /\ l <> [].
Proof.
  destruct (sidebar_always_offers_cuisines 0
              (mkSession (mkStore [no_votes_table] []) None []) no_votes_table
              eq_refl) as (l & shown & Hrun & Hne & _).
  by exists l, shown.
Defined.

Section ScriptTheorems.


(** The lines that end a run whose start failed. *)
Lemma stop_page_run h s mf sc :
  (in_mem (st_error "System initialization failed. Please check:") ~;;
   show (StWrite ("1. Data file exists at: " ++ DATA_PATH h)%string) ~;;
   show (StWrite "2. You have proper file permissions"))
    (mkSession s mf sc)
  = (Ret tt,
     mkSession
       (mkStore (objs s)
          (reports s ++ ["System initialization failed. Please check:"]))
       mf
       (sc ++ [StWrite ("1. Data file exists at: " ++ DATA_PATH h)%string;
               StWrite "2. You have proper file permissions"])).
Proof.
  unfold app_bind, in_mem, st_error, show. cbn [mem model_file screen].
  by rewrite <- app_assoc.
Qed.

Lemma script_from_start h u t r t1 :
  initialize_system h t = (Ret r, t1) ->
  script h u t =
    match r with
    | None =>
        (in_mem (st_error "System initialization failed. Please check:") ~;;
         show (StWrite ("1. Data file exists at: " ++ DATA_PATH h)%string) ~;;
         show (StWrite "2. You have proper file permissions")) t1
    | Some (d, recommender) =>
        (D <~ in_mem (deref d) ;;
         if df_empty D then
           in_mem (st_error "System initialization failed. Please check:") ~;;
           show (StWrite ("1. Data file exists at: " ++ DATA_PATH h)%string) ~;;
           show (StWrite "2. You have proper file permissions")
         else
           show StTitle ~;;
           options <~ all_cuisines d ;;
           if button u then
             find_restaurants h recommender (multiselect options (picks u))
               (slider u)
           else app_ret tt) t1
    end.
Proof.
  intros H. unfold script. unfold app_bind at 1. rewrite H.
  by destruct r as [[d rec]|].
Qed.

Lemma script_with_table h u t d s1 mf1 sc1 D :
  initialize_system h t
  = (Ret (Some (d, mkRecommender d)), mkSession s1 mf1 sc1) ->
  objs s1 !! d = Some D ->
  script h u t =
    if df_empty D then
      (Ret tt,
       mkSession
         (mkStore (objs s1)
            (reports s1 ++ ["System initialization failed. Please check:"]))
         mf1
         (sc1 ++ [StWrite ("1. Data file exists at: " ++ DATA_PATH h)%string;
                  StWrite "2. You have proper file permissions"]))
    else
      match cuisine_choices D with
      | Unmodelled => (Unmodelled, mkSession s1 mf1 (sc1 ++ [StTitle]))
      | choices =>
          let options :=
            match choices with Ret l => l | _ => default_cuisines end in
          let shown :=
            match choices with
            | Raise e =>
                [StWarning ("Using default cuisines: " ++ exn_str e)%string]
            | _ => []
            end in
          if button u then
            find_restaurants h (mkRecommender d)
              (multiselect options (picks u)) (slider u)
              (mkSession s1 mf1 ((sc1 ++ [StTitle]) ++ shown))
          else (Ret tt, mkSession s1 mf1 ((sc1 ++ [StTitle]) ++ shown))
      end.
Proof.
  intros Hstart HD. rewrite (script_from_start h u t _ _ Hstart).
  unfold app_bind at 1. unfold in_mem at 1, deref at 1.
  cbn [mem model_file screen]. rewrite HD.
  destruct (df_empty D); [apply stop_page_run|].
  unfold app_bind at 1. unfold show at 1. cbn [mem model_file screen].
  unfold app_bind at 1. rewrite (all_cuisines_run d s1 mf1 _ D HD).
  destruct (cuisine_choices D) as [l|e|]; cbn zeta;
    rewrite ?app_nil_r; by destruct (button u).
Qed.

End ScriptTheorems.





(** A load that fails at the first start stays: the empty table is
    written to the model file, and every later run, on any machine state
    in which the data file exists and whatever that file then holds,
    starts from the model file, finds the table empty and stops at the
    initialization check, before the title, the sidebar and the button. *)
Theorem failed_load_stops_every_later_run (h h' : host) (u u' : inputs)
    (t : session) (T : DataFrame) :
  data_exists h = true -> model_file t = None -> dump_fault h = None ->
  fst (load (files h) (DATA_PATH h)) = Ret T -> df_empty T = true ->
  data_exists h' = true ->
  model_file (snd (script h u t)) = Some (inl T)
  /\ exists t2,
       script h' u' (snd (script h u t)) = (Ret tt, t2)
       /\ screen t2
          = screen (snd (script h u t))
            ++ [StWrite ("1. Data file exists at: " ++ DATA_PATH h')%string;
                StWrite "2. You have proper file permissions"]
       /\ reports (mem t2)
          = reports (mem (snd (script h u t)))
            ++ ["System initialization failed. Please check:"]
       /\ model_file t2 = Some (inl T).
Proof.
  destruct t as [s mf sc]. cbn [model_file]. intros Hd -> Hf Hload Hempty Hd'.
  destruct (initialize_cold h s sc Hd)
    as (l & s' & T' & errs & Hload' & Hl & _ & _ & Hrun).
  rewrite Hload' in Hload. cbn [fst] in Hload. injection Hload as ->.
  rewrite Hf in Hrun.
  rewrite (script_with_table h u _ l s' _ _ T Hrun Hl), Hempty.
  cbn [snd model_file]. split; [done|].
  eexists. split.
  - rewrite (script_with_table h' u' _ _ _ _ _ T (initialize_warm h' _ T _ Hd')).
    + by rewrite Hempty.
    + cbn [objs]. by apply list_lookup_middle.
  - cbn [mem screen reports model_file]. done.
Qed.

Lemma failed_load_stops_every_later_run_witness :
  exists t2,
    script zomato_host (mkInputs ["pizza"] (Fin 3) true)
      (snd (script broken_host (mkInputs [] (Fin 3) false) fresh_session))
    = (Ret tt, t2)
    /\ model_file t2 = Some (inl empty_frame).
Proof.
  destruct (failed_load_stops_every_later_run broken_host zomato_host
              (mkInputs [] (Fin 3) false) (mkInputs ["pizza"] (Fin 3) true)
              fresh_session empty_frame eq_refl eq_refl eq_refl)
    as (_ & t2 & Hrun & _ & _ & Hm).
  - vm_compute. reflexivity.
  - reflexivity.
  - reflexivity.
  - by exists t2.
Defined.
